(** * beat-api: the normalization engine and the continuation orchestrator

    A shallow embedding of the response parsers of [src/innertube]
    ([parsers.js]: the item and page mappers) and of the high-level client
    ([youtube.js]), together with the properties the design document states
    about them.

    Upstream payloads are untyped JSON trees.  The mappers walk them with
    optional chaining, truthiness tests and array methods, and a wrong shape
    surfaces as a [TypeError]; the embedding therefore keeps the JavaScript
    value domain and an exception monad instead of a typed schema. *)

From Stdlib Require Import String Ascii List ZArith Bool Lia PeanoNat.
From Stdlib Require Import DecimalString Decimal.
Import ListNotations.
Open Scope string_scope.
Open Scope list_scope.
Set Warnings "-register-all".

(** ** JavaScript values *)

(** What [JSON.parse] can produce, plus [undefined].  An object is the list
    of its own properties in insertion order; a read finds the first binding
    of the key.  A number is kept as an integer: the code under study only
    tests numbers for truthiness and reads [length]s, so a fractional number
    behaves as any non-zero integer does.  A string is the sequence of its
    bytes; the code observes the length of a string only through its
    truthiness, and a character of a string only as a value without
    properties. *)
Inductive JS : Type :=
| JUndef
| JNull
| JBool (b : bool)
| JNum (n : Z)
| JStr (s : string)
| JArr (l : list JS)
| JObj (f : list (string * JS)).

(** Exceptions: the [TypeError] of a bad property read or call, an explicit
    [throw new Error(msg)], and a failure of the transport collaborator. *)
Inductive Exn : Type :=
| TypeError
| JsError (msg : string)
| TransportError.

Inductive Res (A : Type) : Type :=
| Ok (a : A)
| Throw (e : Exn).
Arguments Ok {A} a.
Arguments Throw {A} e.

Definition bind {A B : Type} (m : Res A) (k : A -> Res B) : Res B :=
  match m with
  | Ok a => k a
  | Throw e => Throw e
  end.

Notation "x <- m ;; k" := (bind m (fun x => k))
  (at level 100, m at next level, right associativity).

(** [try { body } catch (err) { return null; }] *)
Definition catchNull (body : Res JS) : Res JS :=
  match body with
  | Ok v => Ok v
  | Throw _ => Ok JNull
  end.

Definition truthy (v : JS) : bool :=
  match v with
  | JUndef | JNull => false
  | JBool b => b
  | JNum n => negb (n =? 0)%Z
  | JStr s => negb (s =? "")
  | JArr _ | JObj _ => true
  end.

Definition nullish (v : JS) : bool :=
  match v with
  | JUndef | JNull => true
  | _ => false
  end.

(** [a || b] when [b] has no effect. *)
Definition orElse (a b : JS) : JS := if truthy a then a else b.

Fixpoint assoc (k : string) (f : list (string * JS)) : JS :=
  match f with
  | [] => JUndef
  | (k', v) :: f' => if k' =? k then v else assoc k f'
  end.

(** [v.k] on a value that is neither [null] nor [undefined].  Parsed arrays
    and strings own [length]; none of the names the code reads is inherited
    from a prototype as a data property. *)
Definition prop (v : JS) (k : string) : JS :=
  match v with
  | JObj f => assoc k f
  | JArr l => if k =? "length" then JNum (Z.of_nat (length l)) else JUndef
  | JStr s => if k =? "length" then JNum (Z.of_nat (String.length s)) else JUndef
  | _ => JUndef
  end.

(** [v.k] *)
Definition get (v : JS) (k : string) : Res JS :=
  if nullish v then Throw TypeError else Ok (prop v k).

(** [v?.k] *)
Definition oget (v : JS) (k : string) : JS :=
  if nullish v then JUndef else prop v k.

Definition natKey (n : nat) : string := NilEmpty.string_of_uint (Nat.to_uint n).

Definition charAt (s : string) (n : nat) : JS :=
  match String.get n s with
  | Some c => JStr (String c EmptyString)
  | None => JUndef
  end.

(** [v[n]] for a literal index, on a value that is not nullish. *)
Definition pidx (v : JS) (n : nat) : JS :=
  match v with
  | JArr l => nth n l JUndef
  | JStr s => charAt s n
  | JObj f => assoc (natKey n) f
  | _ => JUndef
  end.

(** [v[n]] *)
Definition idx (v : JS) (n : nat) : Res JS :=
  if nullish v then Throw TypeError else Ok (pidx v n).

(** [v?.[n]] *)
Definition oidx (v : JS) (n : nat) : JS :=
  if nullish v then JUndef else pidx v n.

Notation "v ?> k" := (oget v k) (at level 40, left associativity).
Notation "v ?@ n" := (oidx v n) (at level 40, left associativity).

(** [v === 'literal'] *)
Definition isStr (v : JS) (s : string) : bool :=
  match v with
  | JStr x => x =? s
  | _ => false
  end.

(** ** Array and string methods *)

(** The receiver of an array-only method ([filter], [map], [some], [find],
    [flatMap], [forEach], [join]): anything but an array has no such
    function, and the call is a [TypeError]. *)
Definition arrayOf (v : JS) : Res (list JS) :=
  match v with
  | JArr l => Ok l
  | _ => Throw TypeError
  end.

(** The rest of an optional chain [v?. ...]: skipped when [v] is nullish. *)
Definition optChain (v : JS) (k : JS -> Res JS) : Res JS :=
  if nullish v then Ok JUndef else k v.

Fixpoint mapM {A B : Type} (f : A -> Res B) (l : list A) : Res (list B) :=
  match l with
  | [] => Ok []
  | x :: xs => y <- f x ;; ys <- mapM f xs ;; Ok (y :: ys)
  end.

Fixpoint filterM {A : Type} (p : A -> Res bool) (l : list A) : Res (list A) :=
  match l with
  | [] => Ok []
  | x :: xs =>
      b <- p x ;; ys <- filterM p xs ;; Ok (if b then x :: ys else ys)
  end.

(** [some] and [find] stop at the first hit: later elements are not visited. *)
Fixpoint someM {A : Type} (p : A -> Res bool) (l : list A) : Res bool :=
  match l with
  | [] => Ok false
  | x :: xs => b <- p x ;; if b then Ok true else someM p xs
  end.

Fixpoint findM (p : JS -> Res bool) (l : list JS) : Res JS :=
  match l with
  | [] => Ok JUndef
  | x :: xs => b <- p x ;; if b then Ok x else findM p xs
  end.

Fixpoint strLast (s : string) : string :=
  match s with
  | EmptyString => EmptyString
  | String c EmptyString => s
  | String _ r => strLast r
  end.

(** [v.slice(-1)] on a value that is not nullish: arrays and strings have
    [slice]; on anything else the call is a [TypeError]. *)
Definition sliceLast (v : JS) : Res JS :=
  match v with
  | JArr [] => Ok (JArr [])
  | JArr l => Ok (JArr [last l JUndef])
  | JStr s => Ok (JStr (strLast s))
  | _ => Throw TypeError
  end.

(** [s.startsWith(p)] *)
Fixpoint startsWith (p s : string) : bool :=
  match p, s with
  | EmptyString, _ => true
  | String a p', String b s' => Ascii.eqb a b && startsWith p' s'
  | String _ _, EmptyString => false
  end.

(** [v?.startsWith(p)], read as a condition ([undefined] is falsy). *)
Definition ostartsWith (v : JS) (p : string) : Res bool :=
  match v with
  | JUndef | JNull => Ok false
  | JStr s => Ok (startsWith p s)
  | _ => Throw TypeError
  end.

(** [v?.replace(/^VL/, '')] *)
Definition oreplaceVL (v : JS) : Res JS :=
  match v with
  | JUndef | JNull => Ok JUndef
  | JStr s => Ok (JStr (if startsWith "VL" s then String.substring 2 (String.length s - 2) s else s))
  | _ => Throw TypeError
  end.

(** *** The duration pattern [/^\d+:\d+(:\d+)?$/] *)

Definition isDigit (c : ascii) : bool :=
  let n := nat_of_ascii c in ((48 <=? n) && (n <=? 57))%nat.

Fixpoint skipDigits (s : string) : string :=
  match s with
  | String c r => if isDigit c then skipDigits r else s
  | EmptyString => s
  end.

(** [\d+]: at least one digit, then as many as there are (what follows a
    group in the pattern is a colon or the end, so the greedy reading is the
    only one). *)
Definition digits1 (s : string) : option string :=
  match s with
  | String c r => if isDigit c then Some (skipDigits r) else None
  | EmptyString => None
  end.

Definition colonDigits (s : string) : option string :=
  match s with
  | String ":" r => digits1 r
  | _ => None
  end.

Definition isEmpty (s : string) : bool :=
  match s with
  | EmptyString => true
  | _ => false
  end.

Definition matchesDuration (s : string) : bool :=
  match digits1 s with
  | None => false
  | Some r1 =>
      match colonDigits r1 with
      | None => false
      | Some r2 =>
          isEmpty r2 ||
          match colonDigits r2 with
          | Some r3 => isEmpty r3
          | None => false
          end
      end
  end.

(** [v?.match(/^\d+:\d+(:\d+)?$/)], read as a condition. *)
Definition omatchDuration (v : JS) : Res bool :=
  match v with
  | JUndef | JNull => Ok false
  | JStr s => Ok (matchesDuration s)
  | _ => Throw TypeError
  end.

(** ** Host built-ins

    Three built-ins whose results depend on the engine's number and string
    conversions.  No property below depends on what they return, so they are
    taken as given: [parseInt] ([None] stands for [NaN]), [xs.join('')], and
    the read [o[o.length - 1]] on a plain object [o]. *)
Record Host : Type := {
  parseInt : JS -> option Z;
  joinEmpty : list JS -> string;
  lastOfObject : list (string * JS) -> JS
}.

Section Parsers.

Variable host : Host.

(** [parseInt(v) || null] *)
Definition yearOf (v : JS) : JS :=
  match parseInt host v with
  | Some n => orElse (JNum n) JNull
  | None => JNull
  end.

(** [v[v.length - 1]] on a value that is not nullish.  A number or a boolean
    has no [length], the index is [NaN] and the read is [undefined]. *)
Definition lastIndex (v : JS) : JS :=
  match v with
  | JArr l => last l JUndef
  | JStr s => if isEmpty s then JUndef else JStr (strLast s)
  | JObj f => lastOfObject host f
  | _ => JUndef
  end.

(** *** Utility helpers *)

Definition evens {A : Type} : list A -> list A :=
  fix go (l : list A) : list A :=
    match l with
    | [] => []
    | [x] => [x]
    | x :: _ :: r => x :: go r
    end.

Definition oddElements (arr : JS) : Res (list JS) :=
  if negb (truthy arr) then Ok []
  else l <- arrayOf arr ;; Ok (evens l).

Definition getThumbnailUrl (thumbnailRenderer : JS) : JS :=
  let thumbnails := thumbnailRenderer ?> "thumbnail" ?> "thumbnails" in
  if negb (truthy thumbnails) || negb (truthy (prop thumbnails "length")) then JNull
  else orElse (lastIndex thumbnails ?> "url") JNull.

Definition getContinuation (continuations : JS) : JS :=
  if negb (truthy continuations) || negb (truthy (prop continuations "length")) then JNull
  else orElse (pidx continuations 0 ?> "nextContinuationData" ?> "continuation") JNull.

Definition getItems (contents : JS) : Res (list JS) :=
  if negb (truthy contents) then Ok []
  else
    l <- arrayOf contents ;;
    filterM (fun c => r <- get c "continuationItemRenderer" ;; Ok (negb (truthy r))) l.

Definition continuationToken (c : JS) : JS :=
  c ?> "continuationItemRenderer" ?> "continuationEndpoint"
    ?> "continuationCommand" ?> "token".

Definition getItemsContinuation (contents : JS) : Res JS :=
  if negb (truthy contents) then Ok JNull
  else
    l <- arrayOf contents ;;
    contItem <- findM (fun c => r <- get c "continuationItemRenderer" ;; Ok (truthy r)) l ;;
    Ok (orElse (continuationToken contItem) JNull).

(** *** Shared fragments of the item mappers *)

(** [badges?.some((b) => b.musicInlineBadgeRenderer?.icon?.iconType ===
    'MUSIC_EXPLICIT_BADGE') || false] *)
Definition explicitOf (badges : JS) : Res JS :=
  e <- optChain badges (fun bs =>
         l <- arrayOf bs ;;
         b <- someM (fun b =>
                r <- get b "musicInlineBadgeRenderer" ;;
                Ok (isStr (r ?> "icon" ?> "iconType") "MUSIC_EXPLICIT_BADGE")) l ;;
         Ok (JBool b)) ;;
  Ok (orElse e (JBool false)).

Definition browseIdOf (r : JS) : JS :=
  r ?> "browseEndpoint" ?> "browseId".

Definition playEndpoint (overlay : JS) : JS :=
  overlay ?> "musicItemThumbnailOverlayRenderer" ?> "content"
    ?> "musicPlayButtonRenderer" ?> "playNavigationEndpoint".

Definition musicVideoTypeOf (watchEndpoint : JS) : JS :=
  watchEndpoint ?> "watchEndpointMusicSupportedConfigs"
    ?> "watchEndpointMusicConfig" ?> "musicVideoType".

Definition flexText (flexColumns : JS) (n : nat) : Res JS :=
  c <- idx flexColumns n ;;
  Ok (c ?> "musicResponsiveListItemFlexColumnRenderer" ?> "text").

(** [{ name: r.text, id: r.navigationEndpoint?.browseEndpoint?.browseId }] *)
Definition nameAndId (r : JS) : Res JS :=
  name <- get r "text" ;;
  nav <- get r "navigationEndpoint" ;;
  Ok (JObj [("name", name); ("id", browseIdOf nav)]).

(** [{ name: r.text, id: r.navigationEndpoint.browseEndpoint.browseId }] *)
Definition nameAndIdStrict (r : JS) : Res JS :=
  name <- get r "text" ;;
  nav <- get r "navigationEndpoint" ;;
  be <- get nav "browseEndpoint" ;;
  id <- get be "browseId" ;;
  Ok (JObj [("name", name); ("id", id)]).

Definition runHasPrefix (p : string) (r : JS) : Res bool :=
  nav <- get r "navigationEndpoint" ;;
  ostartsWith (browseIdOf nav) p.

(** The [duration] field, written the same way in the responsive-list mapper
    and in [parseAlbumSong]:
    [renderer.fixedColumns?.[0]?.musicResponsiveListItemFixedColumnRenderer
       ?.text?.runs?.[0]?.text
     || (secondCol?.runs?.[secondCol.runs.length - 1]?.text?.match(/^\d+:\d+(:\d+)?$/)
          ? secondCol.runs[secondCol.runs.length - 1].text : null)] *)
Definition fixedDuration (fixedColumns : JS) : JS :=
  fixedColumns ?@ 0 ?> "musicResponsiveListItemFixedColumnRenderer"
    ?> "text" ?> "runs" ?@ 0 ?> "text".

Definition trailingText (secondCol : JS) : JS :=
  let runs := secondCol ?> "runs" in
  if nullish runs then JUndef else lastIndex runs ?> "text".

Definition durationOf (renderer secondCol : JS) : Res JS :=
  fx <- get renderer "fixedColumns" ;;
  if truthy (fixedDuration fx) then Ok (fixedDuration fx)
  else
    m <- omatchDuration (trailingText secondCol) ;;
    if m then
      runs <- get secondCol "runs" ;;
      _ <- get runs "length" ;;
      get (lastIndex runs) "text"
    else Ok JNull.

(** *** parseMusicResponsiveListItemRenderer *)

(** The block of [const]s at the head of the mapper. *)
Record RFields : Type := {
  rSecondCol : JS;
  rTitle : JS;
  rVideoId : JS;
  rBrowseId : JS;
  rThumbnail : JS;
  rExplicit : JS;
  rPageType : JS;
  rMusicVideoType : JS
}.

Definition responsiveFields (renderer : JS) : Res RFields :=
  fc <- get renderer "flexColumns" ;;
  let flexColumns := orElse fc (JArr []) in
  firstCol <- flexText flexColumns 0 ;;
  secondCol <- flexText flexColumns 1 ;;
  let title := firstCol ?> "runs" ?@ 0 ?> "text" in
  pid <- get renderer "playlistItemData" ;;
  videoId <- (if truthy (pid ?> "videoId") then Ok (pid ?> "videoId")
              else ov <- get renderer "overlay" ;;
                   Ok (playEndpoint ov ?> "watchEndpoint" ?> "videoId")) ;;
  nav <- get renderer "navigationEndpoint" ;;
  let browseId := browseIdOf nav in
  th <- get renderer "thumbnail" ;;
  thumbnail <- (if truthy (getThumbnailUrl (th ?> "musicThumbnailRenderer"))
                then Ok (getThumbnailUrl (th ?> "musicThumbnailRenderer"))
                else
                  th' <- get renderer "thumbnail" ;;
                  s <- optChain (th' ?> "musicThumbnailRenderer" ?> "thumbnail" ?> "thumbnails")
                         sliceLast ;;
                  Ok (s ?@ 0 ?> "url")) ;;
  badges <- get renderer "badges" ;;
  explicit <- explicitOf badges ;;
  nav' <- get renderer "navigationEndpoint" ;;
  let pageType := nav' ?> "browseEndpoint" ?> "browseEndpointContextSupportedConfigs"
                    ?> "browseEndpointContextMusicConfig" ?> "pageType" in
  ov' <- get renderer "overlay" ;;
  let musicVideoType := musicVideoTypeOf (playEndpoint ov' ?> "watchEndpoint") in
  Ok {| rSecondCol := secondCol; rTitle := title; rVideoId := videoId;
        rBrowseId := browseId; rThumbnail := thumbnail; rExplicit := explicit;
        rPageType := pageType; rMusicVideoType := musicVideoType |}.

Definition responsiveArtist (x : RFields) : JS :=
  JObj [("type", JStr "artist"); ("id", rBrowseId x); ("title", rTitle x);
        ("thumbnail", rThumbnail x);
        ("subscribers", rSecondCol x ?> "runs" ?@ 0 ?> "text")].

Definition responsiveAlbum (renderer : JS) (x : RFields) : Res JS :=
  ov <- get renderer "overlay" ;;
  let playlistId := playEndpoint ov ?> "watchPlaylistEndpoint" ?> "playlistId" in
  a <- optChain (rSecondCol x ?> "runs") (fun runs =>
         l <- arrayOf runs ;;
         l' <- filterM (fun r => n <- get r "navigationEndpoint" ;; Ok (truthy n)) l ;;
         m <- mapM nameAndId l' ;;
         Ok (JArr m)) ;;
  s <- optChain (rSecondCol x ?> "runs") sliceLast ;;
  Ok (JObj [("type", JStr "album"); ("browseId", rBrowseId x);
            ("playlistId", playlistId); ("title", rTitle x);
            ("artists", orElse a (JArr []));
            ("year", yearOf (s ?@ 0 ?> "text"));
            ("thumbnail", rThumbnail x); ("explicit", rExplicit x)]).

(** [c?.runs?.[0] ? { name: c.runs[0].text,
                      id: c.runs[0].navigationEndpoint?.browseEndpoint?.browseId } : null] *)
Definition firstRunAuthor (runs : JS) (reread : Res JS) : Res JS :=
  if truthy (runs ?@ 0) then
    rs <- reread ;;
    r0 <- idx rs 0 ;;
    name <- get r0 "text" ;;
    rs' <- reread ;;
    r0' <- idx rs' 0 ;;
    nav <- get r0' "navigationEndpoint" ;;
    Ok (JObj [("name", name); ("id", browseIdOf nav)])
  else Ok JNull.

Definition responsivePlaylist (x : RFields) : Res JS :=
  playlistId <- oreplaceVL (rBrowseId x) ;;
  author <- firstRunAuthor (rSecondCol x ?> "runs") (get (rSecondCol x) "runs") ;;
  Ok (JObj [("type", JStr "playlist"); ("id", playlistId);
            ("browseId", rBrowseId x); ("title", rTitle x);
            ("author", author); ("thumbnail", rThumbnail x)]).

Definition songArtists (secondCol : JS) : Res (list JS) :=
  a <- optChain (secondCol ?> "runs") (fun runs =>
         l <- arrayOf runs ;;
         l' <- filterM (runHasPrefix "UC") l ;;
         m <- mapM nameAndId l' ;;
         Ok (JArr m)) ;;
  artists <- arrayOf (orElse a (JArr [])) ;;
  if (length artists =? 0)%nat && truthy (secondCol ?> "runs" ?> "length") then
    runs <- get secondCol "runs" ;;
    l <- arrayOf runs ;;
    filtered <- filterM (fun r =>
                  t <- get r "text" ;;
                  Ok (truthy t && negb (isStr t " • ") && negb (isStr t " & "))) l ;;
    if (0 <? length filtered)%nat then
      extra <- mapM (fun r =>
                 name <- get r "text" ;;
                 nav <- get r "navigationEndpoint" ;;
                 Ok (JObj [("name", name); ("id", orElse (browseIdOf nav) JNull)]))
               (firstn 1 filtered) ;;
      Ok (artists ++ extra)
    else Ok artists
  else Ok artists.

Definition findAlbumRun (secondCol : JS) : Res JS :=
  optChain (secondCol ?> "runs") (fun runs =>
    l <- arrayOf runs ;; findM (runHasPrefix "MPREb") l).

Definition findAlbumRunStrict (secondCol : JS) : Res JS :=
  runs <- get secondCol "runs" ;;
  l <- arrayOf runs ;;
  findM (runHasPrefix "MPREb") l.

Definition songAlbum (secondCol : JS) : Res JS :=
  found <- findAlbumRun secondCol ;;
  if truthy found then
    r1 <- findAlbumRunStrict secondCol ;;
    name <- get r1 "text" ;;
    r2 <- findAlbumRunStrict secondCol ;;
    nav <- get r2 "navigationEndpoint" ;;
    be <- get nav "browseEndpoint" ;;
    id <- get be "browseId" ;;
    Ok (JObj [("name", name); ("id", id)])
  else Ok JNull.

Definition responsiveSong (renderer : JS) (x : RFields) : Res JS :=
  artists <- songArtists (rSecondCol x) ;;
  album <- songAlbum (rSecondCol x) ;;
  duration <- durationOf renderer (rSecondCol x) ;;
  Ok (JObj [("type", JStr "song"); ("id", rVideoId x); ("title", rTitle x);
            ("artists", JArr artists); ("thumbnail", rThumbnail x);
            ("explicit", rExplicit x); ("musicVideoType", rMusicVideoType x);
            ("album", album); ("duration", duration)]).

(** The chain of [if]s after the [const]s; the first test that holds
    returns. *)
Definition responsiveItem (renderer : JS) (x : RFields) : Res JS :=
  isArtist <- (if isStr (rPageType x) "MUSIC_PAGE_TYPE_ARTIST" then Ok true
               else ostartsWith (rBrowseId x) "UC") ;;
  if isArtist then Ok (responsiveArtist x)
  else if isStr (rPageType x) "MUSIC_PAGE_TYPE_ALBUM" then responsiveAlbum renderer x
  else if isStr (rPageType x) "MUSIC_PAGE_TYPE_PLAYLIST" then responsivePlaylist x
  else if truthy (rVideoId x) || truthy (rTitle x) then responsiveSong renderer x
  else Ok JNull.

(** The body of the [try]. *)
Definition responsiveBody (renderer : JS) : Res JS :=
  x <- responsiveFields renderer ;; responsiveItem renderer x.

Definition parseMusicResponsiveListItemRenderer (renderer : JS) : Res JS :=
  if negb (truthy renderer) then Ok JNull
  else catchNull (responsiveBody renderer).

(** *** parseMusicTwoRowItemRenderer *)

Record TFields : Type := {
  tTitle : JS;
  tSubtitle : JS;
  tThumbnail : JS;
  tBrowseId : JS;
  tVideoId : JS;
  tExplicit : JS;
  tMusicVideoType : JS
}.

Definition twoRowFields (renderer : JS) : Res TFields :=
  t <- get renderer "title" ;;
  st <- get renderer "subtitle" ;;
  tr <- get renderer "thumbnailRenderer" ;;
  nav <- get renderer "navigationEndpoint" ;;
  nav1 <- get renderer "navigationEndpoint" ;;
  sb <- get renderer "subtitleBadges" ;;
  explicit <- explicitOf sb ;;
  nav2 <- get renderer "navigationEndpoint" ;;
  Ok {| tTitle := t ?> "runs" ?@ 0 ?> "text";
        tSubtitle := st ?> "runs";
        tThumbnail := getThumbnailUrl (tr ?> "musicThumbnailRenderer");
        tBrowseId := browseIdOf nav;
        tVideoId := nav1 ?> "watchEndpoint" ?> "videoId";
        tExplicit := explicit;
        tMusicVideoType := musicVideoTypeOf (nav2 ?> "watchEndpoint") |}.

Definition twoRowAlbum (renderer : JS) (x : TFields) : Res JS :=
  ov <- get renderer "thumbnailOverlay" ;;
  let playlistId := playEndpoint ov ?> "watchPlaylistEndpoint" ?> "playlistId" in
  odd <- oddElements (tSubtitle x) ;;
  m <- mapM nameAndId (tl odd) ;;
  artists <- filterM (fun a => i <- get a "id" ;; Ok (truthy i)) m ;;
  s <- optChain (tSubtitle x) sliceLast ;;
  Ok (JObj [("type", JStr "album"); ("browseId", tBrowseId x);
            ("playlistId", playlistId); ("title", tTitle x);
            ("artists", JArr artists);
            ("year", yearOf (s ?@ 0 ?> "text"));
            ("thumbnail", tThumbnail x); ("explicit", tExplicit x)]).

Definition twoRowSong (x : TFields) : Res JS :=
  a <- optChain (tSubtitle x) (fun sub =>
         l <- arrayOf sub ;;
         l' <- filterM (fun r => n <- get r "navigationEndpoint" ;;
                                 Ok (truthy (browseIdOf n))) l ;;
         m <- mapM nameAndIdStrict l' ;;
         Ok (JArr m)) ;;
  Ok (JObj [("type", JStr "song"); ("id", tVideoId x); ("title", tTitle x);
            ("artists", orElse a (JArr [])); ("thumbnail", tThumbnail x);
            ("explicit", tExplicit x); ("musicVideoType", tMusicVideoType x)]).

Definition twoRowArtist (x : TFields) : JS :=
  JObj [("type", JStr "artist"); ("id", tBrowseId x); ("title", tTitle x);
        ("thumbnail", tThumbnail x); ("subscribers", tSubtitle x ?@ 0 ?> "text")].

Definition twoRowPlaylist (x : TFields) : Res JS :=
  id <- oreplaceVL (tBrowseId x) ;;
  author <- firstRunAuthor (tSubtitle x) (Ok (tSubtitle x)) ;;
  Ok (JObj [("type", JStr "playlist"); ("id", id); ("browseId", tBrowseId x);
            ("title", tTitle x); ("author", author); ("thumbnail", tThumbnail x)]).

Definition twoRowUnknown (x : TFields) : Res JS :=
  sub <- optChain (tSubtitle x) (fun st =>
           l <- arrayOf st ;;
           texts <- mapM (fun r => get r "text") l ;;
           Ok (JStr (joinEmpty host texts))) ;;
  Ok (JObj [("type", JStr "unknown"); ("browseId", tBrowseId x);
            ("videoId", tVideoId x); ("title", tTitle x);
            ("thumbnail", tThumbnail x); ("subtitle", sub)]).

(** Album detection, song detection, artist detection, playlist detection,
    fallback: in this order. *)
Definition twoRowItem (renderer : JS) (x : TFields) : Res JS :=
  isAlbum <- ostartsWith (tBrowseId x) "MPREb" ;;
  if isAlbum then twoRowAlbum renderer x
  else if truthy (tVideoId x) then twoRowSong x
  else
    isArtist <- ostartsWith (tBrowseId x) "UC" ;;
    if isArtist then Ok (twoRowArtist x)
    else
      vl <- ostartsWith (tBrowseId x) "VL" ;;
      isPlaylist <- (if vl then Ok true else ostartsWith (tBrowseId x) "RDCLAK") ;;
      if isPlaylist then twoRowPlaylist x
      else twoRowUnknown x.

(** The body of the [try]. *)
Definition twoRowBody (renderer : JS) : Res JS :=
  x <- twoRowFields renderer ;; twoRowItem renderer x.

Definition parseMusicTwoRowItemRenderer (renderer : JS) : Res JS :=
  if negb (truthy renderer) then Ok JNull
  else catchNull (twoRowBody renderer).

(** *** parseAlbumSong *)

(** [album] is [null] by default; no [try] here, a [TypeError] escapes. *)
Definition parseAlbumSong (renderer album : JS) : Res JS :=
  if negb (truthy renderer) then Ok JNull
  else
    fc <- get renderer "flexColumns" ;;
    let flexColumns := orElse fc (JArr []) in
    firstCol <- flexText flexColumns 0 ;;
    secondCol <- flexText flexColumns 1 ;;
    let title := firstCol ?> "runs" ?@ 0 ?> "text" in
    pid <- get renderer "playlistItemData" ;;
    videoId <- (if truthy (pid ?> "videoId") then Ok (pid ?> "videoId")
                else ov <- get renderer "overlay" ;;
                     Ok (playEndpoint ov ?> "watchEndpoint" ?> "videoId")) ;;
    if negb (truthy title) && negb (truthy videoId) then Ok JNull
    else
      a <- optChain (secondCol ?> "runs") (fun runs =>
             l <- arrayOf runs ;;
             l' <- filterM (fun r => n <- get r "navigationEndpoint" ;;
                                     Ok (truthy (browseIdOf n))) l ;;
             m <- mapM nameAndIdStrict l' ;;
             Ok (JArr m)) ;;
      let artists := orElse (orElse a (album ?> "artists")) (JArr []) in
      thumbnail <- (if truthy (album ?> "thumbnail") then Ok (album ?> "thumbnail")
                    else th <- get renderer "thumbnail" ;;
                         Ok (getThumbnailUrl (th ?> "musicThumbnailRenderer"))) ;;
      badges <- get renderer "badges" ;;
      explicit <- explicitOf badges ;;
      albumRef <- (if truthy album then
                     n <- get album "title" ;; i <- get album "browseId" ;;
                     Ok (JObj [("name", n); ("id", i)])
                   else Ok JNull) ;;
      duration <- durationOf renderer secondCol ;;
      Ok (JObj [("type", JStr "song"); ("id", videoId); ("title", title);
                ("artists", artists); ("thumbnail", thumbnail);
                ("explicit", explicit); ("album", albumRef);
                ("duration", duration)]).

(** [xs.filter(Boolean)] *)
Definition filterBoolean (l : list JS) : list JS := filter truthy l.

(** *** parseAlbumSongs *)

Definition albumShelf (response : JS) : Res JS :=
  c <- get response "contents" ;;
  Ok (c ?> "twoColumnBrowseResultsRenderer" ?> "secondaryContents"
        ?> "sectionListRenderer" ?> "contents" ?@ 0 ?> "musicPlaylistShelfRenderer").

(** Returns the pair [{ songs, continuation }]. *)
Definition parseAlbumSongs (response : JS) : Res (list JS * JS) :=
  sh <- albumShelf response ;;
  let contents := sh ?> "contents" in
  items <- getItems contents ;;
  mapped <- mapM (fun c => r <- get c "musicResponsiveListItemRenderer" ;;
                           parseAlbumSong r JNull) items ;;
  let songs := filterBoolean mapped in
  sh' <- albumShelf response ;;
  continuation <- (if truthy (getContinuation (sh' ?> "continuations"))
                   then Ok (getContinuation (sh' ?> "continuations"))
                   else getItemsContinuation contents) ;;
  Ok (songs, continuation).

(** *** parsePlaylistPage *)

(** [xs.flatMap(f)]: an array returned by [f] is spliced in, anything else
    is appended as it is. *)
Fixpoint flatMapM (f : JS -> Res JS) (l : list JS) : Res (list JS) :=
  match l with
  | [] => Ok []
  | x :: xs =>
      y <- f x ;;
      ys <- flatMapM f xs ;;
      Ok (match y with JArr e => e ++ ys | _ => y :: ys end)
  end.

Definition playlistSongs (playlistShelf : JS) : Res (list JS) :=
  items <- getItems (playlistShelf ?> "contents") ;;
  mapped <- mapM (fun c => r <- get c "musicResponsiveListItemRenderer" ;;
                           parseMusicResponsiveListItemRenderer r) items ;;
  Ok (filterBoolean mapped).

Definition headerPlaylist (header playlistId : JS) (editable : bool) : Res JS :=
  t <- get header "title" ;;
  s1 <- get header "straplineTextOne" ;;
  author <- firstRunAuthor (s1 ?> "runs")
              (s <- get header "straplineTextOne" ;; get s "runs") ;;
  ss <- get header "secondSubtitle" ;;
  th <- get header "thumbnail" ;;
  sl <- optChain (th ?> "musicThumbnailRenderer" ?> "thumbnail" ?> "thumbnails") sliceLast ;;
  Ok (JObj [("id", playlistId); ("title", t ?> "runs" ?@ 0 ?> "text");
            ("author", author);
            ("songCountText", ss ?> "runs" ?@ 0 ?> "text");
            ("thumbnail", sl ?@ 0 ?> "url");
            ("isEditable", JBool editable)]).

Definition firstSongOf (playlistShelf : JS) : JS :=
  playlistShelf ?> "contents" ?@ 0 ?> "musicResponsiveListItemRenderer".

Definition allRunsOf (firstSong : JS) : Res (list JS) :=
  a <- optChain (firstSong ?> "flexColumns") (fun cols =>
         l <- arrayOf cols ;;
         rs <- flatMapM (fun col =>
                 c <- get col "musicResponsiveListItemFlexColumnRenderer" ;;
                 Ok (orElse (c ?> "text" ?> "runs") (JArr []))) l ;;
         Ok (JArr rs)) ;;
  arrayOf (orElse a (JArr [])).

Definition fallbackPlaylist (response playlistShelf playlistId : JS) (songs : list JS)
  : Res JS :=
  let firstSong := firstSongOf playlistShelf in
  sl <- optChain (firstSong ?> "thumbnail" ?> "musicThumbnailRenderer"
                    ?> "thumbnail" ?> "thumbnails") sliceLast ;;
  let firstThumbnail := sl ?@ 0 ?> "url" in
  allRuns <- allRunsOf firstSong ;;
  mf <- get response "microformat" ;;
  let microformat := mf ?> "microformatDataRenderer" in
  albumRun <- findM (runHasPrefix "MPREb") allRuns ;;
  artistRun <- findM (runHasPrefix "UC") allRuns ;;
  let title := orElse (orElse (microformat ?> "title") (albumRun ?> "text")) playlistId in
  author <- (if truthy artistRun then nameAndIdStrict artistRun else Ok JNull) ;;
  Ok (JObj [("id", playlistId); ("title", title); ("author", author);
            ("songCountText", JStr (natKey (length songs) ++ " songs"));
            ("thumbnail", orElse firstThumbnail JNull);
            ("isEditable", JBool false)]).

Definition pageResult (playlist : JS) (songs : list JS) (songsContinuation continuation : JS)
  : JS :=
  JObj [("playlist", playlist); ("songs", JArr songs);
        ("songsContinuation", songsContinuation); ("continuation", continuation)].

Definition playlistBase (twoCol : JS) : JS :=
  twoCol ?> "tabs" ?@ 0 ?> "tabRenderer" ?> "content"
    ?> "sectionListRenderer" ?> "contents" ?@ 0.

Definition playlistHeader (twoCol : JS) : JS :=
  orElse (playlistBase twoCol ?> "musicResponsiveHeaderRenderer")
    (playlistBase twoCol ?> "musicEditablePlaylistDetailHeaderRenderer" ?> "header"
       ?> "musicResponsiveHeaderRenderer").

Definition playlistShelfOf (twoCol : JS) : JS :=
  twoCol ?> "secondaryContents" ?> "sectionListRenderer"
    ?> "contents" ?@ 0 ?> "musicPlaylistShelfRenderer".

Definition parsePlaylistPage (response playlistId : JS) : Res JS :=
  c <- get response "contents" ;;
  let twoCol := c ?> "twoColumnBrowseResultsRenderer" in
  let header := playlistHeader twoCol in
  let editable := truthy (playlistBase twoCol ?> "musicEditablePlaylistDetailHeaderRenderer") in
  let playlistShelf := playlistShelfOf twoCol in
  songs <- playlistSongs playlistShelf ;;
  songsContinuation <-
    (if truthy (getContinuation (playlistShelf ?> "continuations"))
     then Ok (getContinuation (playlistShelf ?> "continuations"))
     else getItemsContinuation (playlistShelf ?> "contents")) ;;
  let sectionContinuation :=
    getContinuation (twoCol ?> "secondaryContents" ?> "sectionListRenderer"
                       ?> "continuations") in
  if truthy header then
    playlist <- headerPlaylist header playlistId editable ;;
    Ok (pageResult playlist songs songsContinuation sectionContinuation)
  else if (0 <? length songs)%nat || truthy playlistShelf then
    playlist <- fallbackPlaylist response playlistShelf playlistId songs ;;
    Ok (pageResult playlist songs songsContinuation sectionContinuation)
  else Ok JNull.

(** *** parsePlaylistContinuation *)

(** What [for (const x of v || [])] and the spread [[...(v || [])]] iterate
    over: the elements of an array, the characters of a string; nothing else
    that JSON yields is iterable. *)
Definition iterOf (v : JS) : Res (list JS) :=
  match orElse v (JArr []) with
  | JArr l => Ok l
  | JStr s => Ok (map (fun c => JStr (String c EmptyString)) (list_ascii_of_string s))
  | _ => Throw TypeError
  end.

Definition appendedItems (response : JS) : Res JS :=
  a <- get response "onResponseReceivedActions" ;;
  Ok (a ?@ 0 ?> "appendContinuationItemsAction" ?> "continuationItems").

Definition songsResult (songs : list JS) (continuation : JS) : JS :=
  JObj [("songs", JArr songs); ("continuation", continuation)].

Definition parsePlaylistContinuation (response : JS) : Res JS :=
  cc <- get response "continuationContents" ;;
  m <- optChain (cc ?> "sectionListContinuation" ?> "contents") (fun v =>
         l <- arrayOf v ;;
         r <- flatMapM (fun c => s <- get c "musicPlaylistShelfRenderer" ;;
                                 Ok (orElse (s ?> "contents") (JArr []))) l ;;
         Ok (JArr r)) ;;
  cc1 <- get response "continuationContents" ;;
  appended <- appendedItems response ;;
  mainContents <- iterOf m ;;
  shelfContents <- iterOf (cc1 ?> "musicPlaylistShelfContinuation" ?> "contents") ;;
  appendedContents <- iterOf appended ;;
  mapped <- mapM (fun c => r <- get c "musicResponsiveListItemRenderer" ;;
                           parseMusicResponsiveListItemRenderer r)
              (mainContents ++ shelfContents ++ appendedContents) ;;
  let songs := filterBoolean mapped in
  if (0 <? length songs)%nat then
    cc2 <- get response "continuationContents" ;;
    if truthy (getContinuation (cc2 ?> "sectionListContinuation" ?> "continuations"))
    then Ok (songsResult songs
               (getContinuation (cc2 ?> "sectionListContinuation" ?> "continuations")))
    else if truthy (getContinuation
                      (cc2 ?> "musicPlaylistShelfContinuation" ?> "continuations"))
    then Ok (songsResult songs
               (getContinuation (cc2 ?> "musicPlaylistShelfContinuation" ?> "continuations")))
    else if truthy (getContinuation (cc2 ?> "musicShelfContinuation" ?> "continuations"))
    then Ok (songsResult songs
               (getContinuation (cc2 ?> "musicShelfContinuation" ?> "continuations")))
    else
      appended' <- appendedItems response ;;
      token <- getItemsContinuation appended' ;;
      Ok (songsResult songs token)
  else Ok (songsResult songs JNull).

(** *** parsePlaylistPanelVideoRenderer and parseQueue *)

(** The [forEach] over the menu items, which assigns the two library
    tokens; the pair is [(libraryAddToken, libraryRemoveToken)]. *)
Definition menuTokenStep (acc : JS * JS) (item : JS) : Res (JS * JS) :=
  toggleRenderer <- get item "toggleMenuServiceItemRenderer" ;;
  if truthy toggleRenderer then
    d <- get toggleRenderer "defaultIcon" ;;
    let icon := d ?> "iconType" in
    acc1 <- (if isStr icon "LIBRARY_ADD" then
               e <- get toggleRenderer "defaultServiceEndpoint" ;;
               Ok (e ?> "feedbackEndpoint" ?> "feedbackToken", snd acc)
             else Ok acc) ;;
    if isStr icon "LIBRARY_REMOVE" || isStr icon "LIBRARY_SAVED" then
      e <- get toggleRenderer "defaultServiceEndpoint" ;;
      Ok (fst acc1, e ?> "feedbackEndpoint" ?> "feedbackToken")
    else Ok acc1
  else Ok acc.

Fixpoint foldM {A B : Type} (f : A -> B -> Res A) (l : list B) (a : A) : Res A :=
  match l with
  | [] => Ok a
  | x :: xs => a' <- f a x ;; foldM f xs a'
  end.

Definition parsePlaylistPanelVideoRenderer (renderer : JS) : Res JS :=
  if negb (truthy renderer) then Ok JNull
  else
    t <- get renderer "title" ;;
    v <- get renderer "videoId" ;;
    videoId <- (if truthy v then Ok v
                else n <- get renderer "navigationEndpoint" ;;
                     Ok (n ?> "watchEndpoint" ?> "videoId")) ;;
    th <- get renderer "thumbnail" ;;
    sl <- optChain (th ?> "thumbnails") sliceLast ;;
    lb <- get renderer "longBylineText" ;;
    a <- optChain (lb ?> "runs") (fun runs =>
           l <- arrayOf runs ;;
           l' <- filterM (runHasPrefix "UC") l ;;
           m <- mapM nameAndIdStrict l' ;;
           Ok (JArr m)) ;;
    lb' <- get renderer "longBylineText" ;;
    album <- optChain (lb' ?> "runs") (fun runs =>
               l <- arrayOf runs ;; findM (runHasPrefix "MPREb") l) ;;
    nav <- get renderer "navigationEndpoint" ;;
    menu <- get renderer "menu" ;;
    tokens <- (if nullish (menu ?> "menuRenderer" ?> "items") then Ok (JNull, JNull)
               else l <- arrayOf (menu ?> "menuRenderer" ?> "items") ;;
                    foldM menuTokenStep l (JNull, JNull)) ;;
    albumRef <- (if truthy album then nameAndIdStrict album else Ok JNull) ;;
    ln <- get renderer "lengthText" ;;
    badges <- get renderer "badges" ;;
    explicit <- explicitOf badges ;;
    Ok (JObj [("type", JStr "song"); ("id", videoId);
              ("title", t ?> "runs" ?@ 0 ?> "text");
              ("artists", orElse a (JArr []));
              ("thumbnail", sl ?@ 0 ?> "url");
              ("musicVideoType", musicVideoTypeOf (nav ?> "watchEndpoint"));
              ("album", albumRef);
              ("duration", orElse (ln ?> "runs" ?@ 0 ?> "text") JNull);
              ("libraryAddToken", fst tokens);
              ("libraryRemoveToken", snd tokens);
              ("explicit", explicit)]).

Definition parseQueue (response : JS) : Res JS :=
  q <- get response "queueDatas" ;;
  a <- optChain q (fun qs =>
         l <- arrayOf qs ;;
         m <- mapM (fun qd => c <- get qd "content" ;;
                              parsePlaylistPanelVideoRenderer (c ?> "playlistPanelVideoRenderer")) l ;;
         Ok (JArr (filterBoolean m))) ;;
  Ok (orElse a (JArr [])).

End Parsers.

(** ** The client ([youtube.js])

    The transport collaborator ([InnerTube._post] behind [browse],
    [browseWithCtoken] and [getQueue]) is an arbitrary function of the
    request, of the client's session fields at the time of the call and of
    everything sent before: any stream of responses, however adversarial, is
    one such function.  It either returns a payload or raises. *)

Inductive Request : Type :=
| Browse (browseId params continuation : JS) (setLogin : bool)
| BrowseWithCtoken (continuation : JS)
| GetQueue (videoIds playlistId : JS).

(** The mutable session fields of the shared [InnerTube] object. *)
Record InnerTube : Type := {
  visitorData : JS;
  dataSyncId : JS;
  cookie : JS
}.

(** One transport call: the request and the visitor identifier the context
    and the headers were built with. *)
Record Sent : Type := {
  request : Request;
  sentVisitorData : JS
}.

Record World : Type := {
  innerTube : InnerTube;
  sent : list Sent
}.

Definition Transport : Type := World -> Request -> Res JS.

Definition setVisitorData (v : JS) (w : World) : World :=
  {| innerTube := {| visitorData := v;
                     dataSyncId := dataSyncId (innerTube w);
                     cookie := cookie (innerTube w) |};
     sent := sent w |}.

Definition MAX_GET_QUEUE_SIZE : nat := 1000.

(** [seenContinuations.has(c)]: a [Set] compares with SameValueZero.  Two
    primitives are the same when they are equal; an object or an array is
    only the same as itself, and every response is a freshly parsed tree. *)
Definition sameValueZero (a b : JS) : bool :=
  match a, b with
  | JUndef, JUndef => true
  | JNull, JNull => true
  | JBool x, JBool y => Bool.eqb x y
  | JNum x, JNum y => (x =? y)%Z
  | JStr x, JStr y => x =? y
  | _, _ => false
  end.

Definition setHas (seen : list JS) (c : JS) : bool :=
  existsb (sameValueZero c) seen.

(** What one turn of a loop comes to: another turn, the result, or an
    exception. *)
Inductive Outcome (S A : Type) : Type :=
| Continue (s : S)
| Done (a : A)
| Raise (e : Exn).
Arguments Continue {S A} s.
Arguments Done {S A} a.
Arguments Raise {S A} e.

Section Client.

Variable host : Host.
Variable transport : Transport.

(** [await this.innerTube.<endpoint>(...)] *)
Definition send (rq : Request) (w : World) : Res JS * World :=
  (transport w rq,
   {| innerTube := innerTube w;
      sent := sent w ++ [{| request := rq;
                            sentVisitorData := visitorData (innerTube w) |}] |}).

(** *** albumSongs *)

Definition maxRequests : nat := 50.

(** The variables of the loop. *)
Record Loop : Type := {
  songs : list JS;
  continuation : JS;
  seenContinuations : list JS;
  requestCount : nat
}.

(** What one resumed response contributes: the songs of its
    append-continuation items and the next token. *)
Definition resumedPage (response : JS) : Res (list JS * JS) :=
  a <- get response "onResponseReceivedActions" ;;
  let contItems := a ?@ 0 ?> "appendContinuationItemsAction" ?> "continuationItems" in
  found <- (if truthy contItems then
              l <- arrayOf contItems ;;
              m <- mapM (fun item =>
                     r <- get item "musicResponsiveListItemRenderer" ;;
                     parseMusicResponsiveListItemRenderer host r) l ;;
              Ok (filterBoolean m)
            else Ok []) ;;
  cc <- get response "continuationContents" ;;
  Ok (found,
      orElse (cc ?> "musicPlaylistShelfContinuation" ?> "continuations" ?@ 0
                ?> "nextContinuationData" ?> "continuation") JNull).

(** One evaluation of the loop test and, when it holds, of the body. *)
Definition albumSongsStep (st : Loop) (w : World) : Outcome Loop (list JS) * World :=
  if truthy (continuation st) && (requestCount st <? maxRequests)%nat then
    if setHas (seenContinuations st) (continuation st) then (Done (songs st), w)
    else
      let (r, w') := send (Browse JNull JNull (continuation st) false) w in
      match (response <- r ;; resumedPage response) with
      | Throw e => (Raise e, w')
      | Ok (found, next) =>
          (Continue {| songs := songs st ++ found;
                       continuation := next;
                       seenContinuations := continuation st :: seenContinuations st;
                       requestCount := S (requestCount st) |}, w')
      end
  else (Done (songs st), w).

(** The [while] loop, run for at most [fuel] evaluations of its test. *)
Fixpoint albumSongsLoop (fuel : nat) (st : Loop) (w : World)
  : option (Res (list JS) * World) :=
  match fuel with
  | O => None
  | S fuel' =>
      match albumSongsStep st w with
      | (Continue st', w') => albumSongsLoop fuel' st' w'
      | (Done a, w') => Some (Ok a, w')
      | (Raise e, w') => Some (Throw e, w')
      end
  end.

Definition albumSongs (fuel : nat) (playlistId : string) (w : World)
  : option (Res (list JS) * World) :=
  let (r, w') := send (Browse (JStr ("VL" ++ playlistId)) JNull JNull false) w in
  match (response <- r ;; parseAlbumSongs host response) with
  | Throw e => Some (Throw e, w')
  | Ok (first, token) =>
      albumSongsLoop fuel
        {| songs := first; continuation := token;
           seenContinuations := []; requestCount := 0 |} w'
  end.

(** *** artistAlbumsContinuation *)

Definition nextContinuationOf (continuations : JS) : JS :=
  orElse (continuations ?@ 0 ?> "nextContinuationData" ?> "continuation") JNull.

Definition mapTwoRow (l : list JS) : Res (list JS) :=
  mapM (fun i => r <- get i "musicTwoRowItemRenderer" ;;
                 parseMusicTwoRowItemRenderer host r) l.

(** [(i) => i && i.type === 'album'] *)
Definition isAlbumItem (i : JS) : Res bool :=
  if truthy i then t <- get i "type" ;; Ok (isStr t "album") else Ok false.

Definition albumsResult (albums : list JS) (continuation visitorData : JS) : JS :=
  JObj [("albums", JArr albums); ("continuation", continuation);
        ("visitorData", visitorData)].

(** The body of the [try] after the response has arrived. *)
Definition artistAlbumsPage (response suppliedVisitorData : JS) : Res JS :=
  cc <- get response "continuationContents" ;;
  let gc := cc ?> "gridContinuation" in
  if negb (truthy gc) then Ok (albumsResult [] JNull JNull)
  else
    its <- get gc "items" ;;
    a <- optChain its (fun v =>
           l <- arrayOf v ;;
           m <- mapTwoRow l ;;
           f <- filterM isAlbumItem m ;;
           Ok (JArr f)) ;;
    albums <- arrayOf (orElse a (JArr [])) ;;
    conts <- get gc "continuations" ;;
    let nextToken := if (0 <? length albums)%nat then nextContinuationOf conts else JNull in
    rc <- get response "responseContext" ;;
    let nextVisitorData := orElse (orElse (rc ?> "visitorData") suppliedVisitorData) JNull in
    Ok (albumsResult albums nextToken
          (if truthy nextToken then nextVisitorData else JNull)).

(** [try { body } finally { fin }]: [fin] runs on both exits and the
    outcome of [body] is kept. *)
Definition tryFinally {A : Type} (body : World -> Res A * World) (fin : World -> World)
  (w : World) : Res A * World :=
  let (r, w') := body w in (r, fin w').

Definition artistAlbumsContinuation (continuation suppliedVisitorData : JS) (w : World)
  : Res JS * World :=
  let originalVisitorData := visitorData (innerTube w) in
  let w1 := if truthy suppliedVisitorData then setVisitorData suppliedVisitorData w else w in
  tryFinally
    (fun w2 =>
       let (r, w3) := send (BrowseWithCtoken continuation) w2 in
       (response <- r ;; artistAlbumsPage response suppliedVisitorData, w3))
    (setVisitorData originalVisitorData)
    w1.

(** *** playlistContinuation *)

Definition playlistContinuation (continuation : JS) (w : World) : Res JS * World :=
  let (r, w') := send (Browse JNull JNull continuation true) w in
  (response <- r ;; parsePlaylistContinuation host response, w').

(** *** queue *)

(** [videoIds] is an array of identifiers or [null] (the default). *)
Definition arrayOrNull (videoIds : option (list JS)) : JS :=
  match videoIds with
  | Some ids => JArr ids
  | None => JNull
  end.

(** [videoIds && videoIds.length > MAX_GET_QUEUE_SIZE]: an array is truthy
    whatever its length. *)
Definition tooMany (videoIds : option (list JS)) : bool :=
  match videoIds with
  | Some ids => (MAX_GET_QUEUE_SIZE <? length ids)%nat
  | None => false
  end.

Definition queue (videoIds : option (list JS)) (playlistId : JS) (w : World)
  : Res JS * World :=
  if tooMany videoIds then
    (Throw (JsError ("Max queue size is " ++ natKey MAX_GET_QUEUE_SIZE)), w)
  else
    let (r, w') := send (GetQueue (arrayOrNull videoIds) playlistId) w in
    (response <- r ;; parseQueue response, w').

(** *** artistItemsContinuation *)

Definition itemsResult (items : list JS) (continuation : JS) : JS :=
  JObj [("items", JArr items); ("continuation", continuation)].

(** [xs?.map((i) => parsers.parseMusicTwoRowItemRenderer(i.musicTwoRowItemRenderer))
       .filter(Boolean) || []] *)
Definition twoRowList (xs : JS) : Res (list JS) :=
  a <- optChain xs (fun v =>
         l <- arrayOf v ;; m <- mapTwoRow l ;; Ok (JArr (filterBoolean m))) ;;
  arrayOf (orElse a (JArr [])).

(** [xs?.filter((c) => !c.continuationItemRenderer)
       .map((c) => parsers.parseMusicResponsiveListItemRenderer(c.musicResponsiveListItemRenderer))
       .filter(Boolean) || []] *)
Definition responsiveList (xs : JS) : Res (list JS) :=
  a <- optChain xs (fun v =>
         l <- arrayOf v ;;
         l' <- filterM (fun c => r <- get c "continuationItemRenderer" ;;
                                 Ok (negb (truthy r))) l ;;
         m <- mapM (fun c => r <- get c "musicResponsiveListItemRenderer" ;;
                             parseMusicResponsiveListItemRenderer host r) l' ;;
         Ok (JArr (filterBoolean m))) ;;
  arrayOf (orElse a (JArr [])).

(** [items.length ? token || null : null] *)
Definition tokenIfAny (items : list JS) (token : JS) : JS :=
  if (0 <? length items)%nat then orElse token JNull else JNull.

Definition gridPage (gc : JS) : Res JS :=
  its <- get gc "items" ;;
  items <- twoRowList its ;;
  conts <- get gc "continuations" ;;
  Ok (itemsResult items
        (tokenIfAny items (conts ?@ 0 ?> "nextContinuationData" ?> "continuation"))).

Definition shelfPage (mpc : JS) : Res JS :=
  cs <- get mpc "contents" ;;
  items <- responsiveList cs ;;
  conts <- get mpc "continuations" ;;
  Ok (itemsResult items
        (tokenIfAny items (conts ?@ 0 ?> "nextContinuationData" ?> "continuation"))).

(** A carousel entry: two-row first, responsive second, [null] otherwise. *)
Definition carouselEntry (c : JS) : Res JS :=
  t <- get c "musicTwoRowItemRenderer" ;;
  if truthy t then parseMusicTwoRowItemRenderer host t
  else
    r <- get c "musicResponsiveListItemRenderer" ;;
    if truthy r then parseMusicResponsiveListItemRenderer host r
    else Ok JNull.

Definition carouselList (xs : JS) : Res (list JS) :=
  a <- optChain xs (fun v =>
         l <- arrayOf v ;; m <- mapM carouselEntry l ;; Ok (JArr (filterBoolean m))) ;;
  arrayOf (orElse a (JArr [])).

(** [parseSectionContent]: the closure updates [allItems] and
    [nextContinuation], here the two components of the accumulator. *)
Definition parseSectionContent (acc : list JS * JS) (section : JS) : Res (list JS * JS) :=
  let (allItems, nextContinuation) := acc in
  grid <- get section "gridRenderer" ;;
  shelf <- get section "musicShelfRenderer" ;;
  carousel <- get section "musicCarouselShelfRenderer" ;;
  if truthy grid then
    its <- get grid "items" ;;
    parsed <- twoRowList its ;;
    conts <- get grid "continuations" ;;
    Ok (allItems ++ parsed,
        if truthy nextContinuation then nextContinuation else nextContinuationOf conts)
  else if truthy shelf then
    cs <- get shelf "contents" ;;
    parsed <- responsiveList cs ;;
    conts <- get shelf "continuations" ;;
    Ok (allItems ++ parsed,
        if truthy nextContinuation then nextContinuation else nextContinuationOf conts)
  else if truthy carousel then
    cs <- get carousel "contents" ;;
    parsed <- carouselList cs ;;
    Ok (allItems ++ parsed, nextContinuation)
  else Ok acc.

Definition sectionStep (acc : list JS * JS) (section : JS) : Res (list JS * JS) :=
  isr <- get section "itemSectionRenderer" ;;
  if truthy isr then
    cs <- get isr "contents" ;;
    inner <- iterOf cs ;;
    foldM parseSectionContent inner acc
  else parseSectionContent acc section.

Definition sectionListPage (slc : JS) : Res JS :=
  cs <- get slc "contents" ;;
  sections <- iterOf cs ;;
  acc <- foldM sectionStep sections ([], JNull) ;;
  let (allItems, nextContinuation) := acc in
  conts <- get slc "continuations" ;;
  let nextContinuation' :=
    if truthy nextContinuation then nextContinuation else nextContinuationOf conts in
  Ok (itemsResult allItems
        (if (0 <? length allItems)%nat then nextContinuation' else JNull)).

(** The [onResponseReceivedActions] fallback. *)
Definition appendPage (response : JS) : Res JS :=
  a <- get response "onResponseReceivedActions" ;;
  let contItems := a ?@ 0 ?> "appendContinuationItemsAction" ?> "continuationItems" in
  items <- responsiveList contItems ;;
  if (0 <? length items)%nat then
    found <- optChain contItems (fun v =>
               l <- arrayOf v ;;
               findM (fun c => r <- get c "continuationItemRenderer" ;; Ok (truthy r)) l) ;;
    Ok (itemsResult items (orElse (continuationToken found) JNull))
  else Ok (itemsResult items JNull).

(** The wire shapes are probed one after the other; the first that is
    present returns. *)
Definition artistItemsPage (response : JS) : Res JS :=
  cc <- get response "continuationContents" ;;
  if truthy (cc ?> "gridContinuation") then
    gridPage (cc ?> "gridContinuation")
  else if truthy (cc ?> "musicPlaylistShelfContinuation") then
    shelfPage (cc ?> "musicPlaylistShelfContinuation")
  else if truthy (cc ?> "sectionListContinuation") then
    sectionListPage (cc ?> "sectionListContinuation")
  else appendPage response.

Definition artistItemsContinuation (continuation : JS) (w : World) : Res JS * World :=
  let (r, w') := send (BrowseWithCtoken continuation) w in
  (response <- r ;; artistItemsPage response, w').

End Client.


(** ** Further string methods *)

(** [s.split(sep)] for a separator of one character: never empty, the
    pieces are what lies between two separators. *)
Fixpoint splitOn (sep : ascii) (s : string) : list string :=
  match s with
  | EmptyString => [EmptyString]
  | String c r =>
      if Ascii.eqb c sep then EmptyString :: splitOn sep r
      else match splitOn sep r with
           | piece :: pieces => String c piece :: pieces
           | [] => [String c EmptyString]
           end
  end.

(** [s.toLowerCase()] on the letters A to Z.  The middleware below compares
    the result with ['bearer']; no character outside A to Z lowers to one of
    the letters of that word, so the comparison comes out the same. *)
Definition lowerChar (c : ascii) : ascii :=
  let n := nat_of_ascii c in
  if ((65 <=? n) && (n <=? 90))%nat then ascii_of_nat (n + 32) else c.

Fixpoint toLowerCase (s : string) : string :=
  match s with
  | EmptyString => EmptyString
  | String c r => String (lowerChar c) (toLowerCase r)
  end.

(** [s.includes(needle)] *)
Fixpoint includes (needle s : string) : bool :=
  startsWith needle s ||
  match s with
  | EmptyString => false
  | String _ r => includes needle r
  end.

(** [v?.includes('literal')], read as a condition.  An array has [includes]
    too and compares its elements with the literal. *)
Definition oincludes (v : JS) (needle : string) : Res bool :=
  match v with
  | JUndef | JNull => Ok false
  | JStr s => Ok (includes needle s)
  | JArr l => Ok (existsb (fun x => isStr x needle) l)
  | _ => Throw TypeError
  end.

(** [v?.split('=').pop()] *)
Definition osplitPop (v : JS) : Res JS :=
  match v with
  | JUndef | JNull => Ok JUndef
  | JStr s => Ok (JStr (last (splitOn "=" s) EmptyString))
  | _ => Throw TypeError
  end.

(** ** The bearer-token middleware ([middleware/auth.js])

    [req.headers.authorization] and [process.env.BEARER_TOKEN] are each a
    string or [undefined].  The middleware either answers with a status and
    an error message ([res.status(n).json({ success: false, error })]) or
    calls [next()]. *)

Inductive Reply : Type :=
| Respond (status : nat) (error : string)
| CallNext.

Definition authMiddleware (authorization expectedToken : option string) : Reply :=
  match authorization with
  | None => Respond 401 "Missing Authorization header"
  | Some authHeader =>
      if isEmpty authHeader then Respond 401 "Missing Authorization header"
      else
        let parts := splitOn " " authHeader in
        if negb (length parts =? 2)%nat
           || negb (toLowerCase (nth 0 parts "") =? "bearer")
        then Respond 401 "Invalid Authorization format. Use: Bearer <token>"
        else
          let token := nth 1 parts "" in
          match expectedToken with
          | None => Respond 500 "Server authentication not configured"
          | Some expected =>
              if isEmpty expected then Respond 500 "Server authentication not configured"
              else if token =? expected then CallNext
              else Respond 403 "Invalid token"
          end
  end.

(** ** The retry wrapper of the transport ([InnerTube._withRetry])

    [fn] is whatever the wrapped request does on its successive
    invocations: the outcome of the invocation number [n], counted from
    zero.  The wrapper is observed through the number of invocations and
    the delays it slept, in order. *)

Record Attempts : Type := {
  calls : nat;
  sleeps : list Z
}.

(** The variables of the [for] loop. *)
Record RetryLoop : Type := {
  attempt : nat;
  delay : Z
}.

Section Retry.

Variable A : Type.
Variable fn : nat -> Res A.

(** One evaluation of the loop test and, when it holds, of the body.  A
    result of [None] is the [undefined] of leaving the loop without a
    [return]. *)
Definition withRetryStep (maxAttempts : Z) (st : RetryLoop) (log : Attempts)
  : Outcome RetryLoop (option A) * Attempts :=
  if (Z.of_nat (attempt st) <? maxAttempts)%Z then
    match fn (calls log) with
    | Ok a => (Done (Some a), {| calls := S (calls log); sleeps := sleeps log |})
    | Throw err =>
        if (maxAttempts - 1 <=? Z.of_nat (attempt st))%Z
        then (Raise err, {| calls := S (calls log); sleeps := sleeps log |})
        else (Continue {| attempt := S (attempt st); delay := (delay st * 2)%Z |},
              {| calls := S (calls log); sleeps := sleeps log ++ [delay st] |})
    end
  else (Done None, log).

Fixpoint withRetryLoop (fuel : nat) (maxAttempts : Z) (st : RetryLoop) (log : Attempts)
  : option (Res (option A) * Attempts) :=
  match fuel with
  | O => None
  | S fuel' =>
      match withRetryStep maxAttempts st log with
      | (Continue st', log') => withRetryLoop fuel' maxAttempts st' log'
      | (Done a, log') => Some (Ok a, log')
      | (Raise e, log') => Some (Throw e, log')
      end
  end.

Definition _withRetry (fuel : nat) (maxAttempts initialDelay : Z)
  : option (Res (option A) * Attempts) :=
  withRetryLoop fuel maxAttempts {| attempt := 0; delay := initialDelay |}
    {| calls := 0; sleeps := [] |}.

(** [_post] and [_get] wrap their request with the default budget,
    [maxAttempts = 3] and [initialDelay = 500]. *)
Definition _post (fuel : nat) : option (Res (option A) * Attempts) :=
  _withRetry fuel 3 500.

End Retry.

(** ** deduplicateById *)

(** The [filter] callback with the [Set] it updates: [seen] holds the keys
    kept so far. *)
Fixpoint dedupFrom (seen : list JS) (items : list JS) : Res (list JS) :=
  match items with
  | [] => Ok []
  | item :: rest =>
      i <- get item "id" ;;
      key <- (if truthy i then Ok i else get item "browseId") ;;
      if negb (truthy key) || setHas seen key then dedupFrom seen rest
      else kept <- dedupFrom (key :: seen) rest ;; Ok (item :: kept)
  end.

Definition deduplicateById (items : list JS) : Res (list JS) := dedupFrom [] items.

(** ** Further page parsers ([parsers.js]) *)

Section MoreParsers.

Variable host : Host.

(** [runs?.map((r) => r.text).join('')] *)
Definition joinedText (runs : JS) : Res JS :=
  optChain runs (fun v =>
    l <- arrayOf v ;;
    texts <- mapM (fun r => get r "text") l ;;
    Ok (JStr (joinEmpty host texts))).

(** [xs?.map((c) => parseMusicResponsiveListItemRenderer(c.musicResponsiveListItemRenderer))
       .filter(Boolean) || []] *)
Definition mappedResponsive (xs : JS) : Res (list JS) :=
  a <- optChain xs (fun v =>
         l <- arrayOf v ;;
         m <- mapM (fun c => r <- get c "musicResponsiveListItemRenderer" ;;
                             parseMusicResponsiveListItemRenderer host r) l ;;
         Ok (JArr (filterBoolean m))) ;;
  arrayOf (orElse a (JArr [])).

(** [getItems(contents)?.map((c) => parseMusicResponsiveListItemRenderer(
       c.musicResponsiveListItemRenderer)).filter(Boolean) || []]: [getItems]
    always returns an array. *)
Definition shelfItems (contents : JS) : Res (list JS) :=
  items <- getItems contents ;;
  mapped <- mapM (fun c => r <- get c "musicResponsiveListItemRenderer" ;;
                           parseMusicResponsiveListItemRenderer host r) items ;;
  Ok (filterBoolean mapped).

(** *** parseMusicCardShelfRenderer *)

(** [subtitle?.filter((r) => r.navigationEndpoint?.browseEndpoint)
       .map((r) => ({ name: r.text, id: r.navigationEndpoint.browseEndpoint.browseId }))
     || []] *)
Definition cardArtists (subtitle : JS) : Res JS :=
  a <- optChain subtitle (fun runs =>
         l <- arrayOf runs ;;
         l' <- filterM (fun r => n <- get r "navigationEndpoint" ;;
                                 Ok (truthy (n ?> "browseEndpoint"))) l ;;
         m <- mapM nameAndIdStrict l' ;;
         Ok (JArr m)) ;;
  Ok (orElse a (JArr [])).

(** No [try] here: a [TypeError] escapes. *)
Definition parseMusicCardShelfRenderer (renderer : JS) : Res JS :=
  if negb (truthy renderer) then Ok JNull
  else
    t <- get renderer "title" ;;
    let title := t ?> "runs" ?@ 0 ?> "text" in
    st <- get renderer "subtitle" ;;
    let subtitle := st ?> "runs" in
    th <- get renderer "thumbnail" ;;
    let thumbnail := getThumbnailUrl host (th ?> "musicThumbnailRenderer") in
    ot <- get renderer "onTap" ;;
    let videoId := ot ?> "watchEndpoint" ?> "videoId" in
    let browseId := ot ?> "browseEndpoint" ?> "browseId" in
    if truthy videoId then
      artists <- cardArtists subtitle ;;
      Ok (JObj [("type", JStr "song"); ("id", videoId); ("title", title);
                ("artists", artists); ("thumbnail", thumbnail)])
    else
      isAlbum <- ostartsWith browseId "MPREb" ;;
      if isAlbum then
        artists <- cardArtists subtitle ;;
        Ok (JObj [("type", JStr "album"); ("browseId", browseId); ("title", title);
                  ("artists", artists); ("thumbnail", thumbnail)])
      else
        isArtist <- ostartsWith browseId "UC" ;;
        if isArtist then
          Ok (JObj [("type", JStr "artist"); ("id", browseId); ("title", title);
                    ("thumbnail", thumbnail)])
        else
          sub <- joinedText subtitle ;;
          Ok (JObj [("type", JStr "unknown"); ("browseId", browseId); ("title", title);
                    ("thumbnail", thumbnail); ("subtitle", sub)]).

(** [parseSearchItem] *)
Definition parseSearchItem (renderer : JS) : Res JS :=
  parseMusicResponsiveListItemRenderer host renderer.

(** *** parseSearchSummary *)

(** [uniqueItems.length ? { title, items: uniqueItems } : null] *)
Definition summaryOf (title : JS) (uniqueItems : list JS) : JS :=
  if (0 <? length uniqueItems)%nat
  then JObj [("title", title); ("items", JArr uniqueItems)]
  else JNull.

(** The callback of the [map] over the sections of the first tab. *)
Definition summarySection (section : JS) : Res JS :=
  mcsr <- get section "musicCardShelfRenderer" ;;
  if truthy mcsr then
    hd <- get mcsr "header" ;;
    let title := orElse (hd ?> "musicCardShelfHeaderBasicRenderer" ?> "title"
                            ?> "runs" ?@ 0 ?> "text") (JStr "Top result") in
    topItem <- parseMusicCardShelfRenderer mcsr ;;
    cs <- get mcsr "contents" ;;
    additionalItems <- mappedResponsive cs ;;
    let items := filterBoolean (topItem :: additionalItems) in
    uniqueItems <- deduplicateById items ;;
    Ok (summaryOf title uniqueItems)
  else
    msr <- get section "musicShelfRenderer" ;;
    if truthy msr then
      t <- get msr "title" ;;
      let title := orElse (t ?> "runs" ?@ 0 ?> "text") (JStr "Other") in
      cs <- get msr "contents" ;;
      items <- shelfItems cs ;;
      uniqueItems <- deduplicateById items ;;
      Ok (summaryOf title uniqueItems)
    else Ok JNull.

Definition searchSections (response : JS) : JS :=
  response ?> "contents" ?> "tabbedSearchResultsRenderer" ?> "tabs" ?@ 0
    ?> "tabRenderer" ?> "content" ?> "sectionListRenderer" ?> "contents".

Definition parseSearchSummary (response : JS) : Res JS :=
  a <- optChain (searchSections response) (fun v =>
         l <- arrayOf v ;;
         m <- mapM summarySection l ;;
         Ok (JArr (filterBoolean m))) ;;
  Ok (JObj [("summaries", orElse a (JArr []))]).

(** *** parseSearchResults and parseSearchContinuation *)

Definition parseSearchResults (response : JS) : Res JS :=
  let sectionContents := searchSections response in
  let lastSection :=
    if nullish sectionContents then JUndef else lastIndex host sectionContents in
  let musicShelf := lastSection ?> "musicShelfRenderer" in
  shown <- getItems (musicShelf ?> "contents") ;;
  mapped <- mapM (fun c => r <- get c "musicResponsiveListItemRenderer" ;;
                           parseSearchItem (orElse r c)) shown ;;
  continuation <-
    (if truthy (getContinuation (musicShelf ?> "continuations"))
     then Ok (getContinuation (musicShelf ?> "continuations"))
     else getItemsContinuation (musicShelf ?> "contents")) ;;
  Ok (itemsResult (filterBoolean mapped) continuation).

Definition parseSearchContinuation (response : JS) : Res JS :=
  let shelf := response ?> "continuationContents" ?> "musicShelfContinuation" in
  a <- optChain (shelf ?> "contents") (fun v =>
         l <- arrayOf v ;;
         m <- mapM (fun c => r <- get c "musicResponsiveListItemRenderer" ;;
                             parseSearchItem r) l ;;
         Ok (JArr (filterBoolean m))) ;;
  items <- arrayOf (orElse a (JArr [])) ;;
  Ok (itemsResult items
        (if (0 <? length items)%nat then getContinuation (shelf ?> "continuations")
         else JNull)).

(** *** parseAlbumPage *)

(** [{ album, songs, otherVersions }] *)
Record AlbumPage : Type := {
  pageAlbum : JS;
  pageSongs : list JS;
  pageOtherVersions : list JS
}.

(** [runs?.filter((r) => r.navigationEndpoint)
       .map((r) => ({ name: r.text, id: r.navigationEndpoint?.browseEndpoint?.browseId }))
     || []] *)
Definition linkedArtists (runs : JS) : Res JS :=
  a <- optChain runs (fun v =>
         l <- arrayOf v ;;
         l' <- filterM (fun r => n <- get r "navigationEndpoint" ;; Ok (truthy n)) l ;;
         m <- mapM nameAndId l' ;;
         Ok (JArr m)) ;;
  Ok (orElse a (JArr [])).

(** [thumbnails?.slice(-1)?.[0]?.url] *)
Definition lastUrl (thumbnails : JS) : Res JS :=
  s <- optChain thumbnails sliceLast ;;
  Ok (s ?@ 0 ?> "url").

Definition singleColumnContents (response : JS) : Res JS :=
  c <- get response "contents" ;;
  Ok (c ?> "singleColumnBrowseResultsRenderer" ?> "tabs" ?@ 0 ?> "tabRenderer"
        ?> "content" ?> "sectionListRenderer" ?> "contents").

(** The branch of a library-owned release. *)
Definition libraryAlbumPage (response browseId : JS) : Res (option AlbumPage) :=
  hd <- get response "header" ;;
  let header := hd ?> "musicDetailHeaderRenderer" in
  if negb (truthy header) then Ok None
  else
    mn <- get header "menu" ;;
    let playlistId := mn ?> "menuRenderer" ?> "topLevelButtons" ?@ 0 ?> "buttonRenderer"
                        ?> "navigationEndpoint" ?> "watchPlaylistEndpoint"
                        ?> "playlistId" in
    t <- get header "title" ;;
    st <- get header "subtitle" ;;
    artists <- linkedArtists (st ?> "runs") ;;
    th <- get header "thumbnail" ;;
    thumbnail <- lastUrl (th ?> "croppedSquareThumbnailRenderer" ?> "thumbnail"
                            ?> "thumbnails") ;;
    let album := JObj [("browseId", browseId); ("playlistId", playlistId);
                       ("title", t ?> "runs" ?@ 0 ?> "text");
                       ("artists", artists);
                       ("year", yearOf host (trailingText host st));
                       ("thumbnail", thumbnail); ("explicit", JBool false)] in
    sc <- singleColumnContents response ;;
    shown <- getItems (sc ?@ 0 ?> "musicShelfRenderer" ?> "contents") ;;
    mapped <- mapM (fun c => r <- get c "musicResponsiveListItemRenderer" ;;
                             parseAlbumSong host r album) shown ;;
    Ok (Some {| pageAlbum := album; pageSongs := filterBoolean mapped;
                pageOtherVersions := [] |}).

(** The branch of a standard album: its songs are not on the page. *)
Definition standardAlbumPage (response browseId : JS) : Res (option AlbumPage) :=
  mf <- get response "microformat" ;;
  playlistId <- osplitPop (mf ?> "microformatDataRenderer" ?> "urlCanonical") ;;
  c <- get response "contents" ;;
  let twoCol := c ?> "twoColumnBrowseResultsRenderer" in
  let headerContent := playlistBase twoCol ?> "musicResponsiveHeaderRenderer" in
  if negb (truthy headerContent) then Ok None
  else
    t <- get headerContent "title" ;;
    s1 <- get headerContent "straplineTextOne" ;;
    odd <- oddElements (s1 ?> "runs") ;;
    artists <- mapM nameAndId odd ;;
    st <- get headerContent "subtitle" ;;
    sl <- optChain (st ?> "runs") sliceLast ;;
    th <- get headerContent "thumbnail" ;;
    thumbnail <- lastUrl (th ?> "musicThumbnailRenderer" ?> "thumbnail" ?> "thumbnails") ;;
    let album := JObj [("browseId", browseId); ("playlistId", playlistId);
                       ("title", t ?> "runs" ?@ 0 ?> "text");
                       ("artists", JArr artists);
                       ("year", yearOf host (sl ?@ 0 ?> "text"));
                       ("thumbnail", thumbnail); ("explicit", JBool false)] in
    otherVersions <- twoRowList host
                       (twoCol ?> "secondaryContents" ?> "sectionListRenderer"
                          ?> "contents" ?@ 1 ?> "musicCarouselShelfRenderer"
                          ?> "contents") ;;
    Ok (Some {| pageAlbum := album; pageSongs := [];
                pageOtherVersions := otherVersions |}).

Definition parseAlbumPage (response browseId : JS) : Res (option AlbumPage) :=
  owned <- oincludes browseId "FEmusic_library_privately_owned_release_detail" ;;
  if owned then libraryAlbumPage response browseId
  else standardAlbumPage response browseId.

(** *** parseArtistPage *)

Definition parseArtistSection (content : JS) : Res JS :=
  carousel <- get content "musicCarouselShelfRenderer" ;;
  if negb (truthy carousel) then Ok JNull
  else
    hd <- get carousel "header" ;;
    let basic := hd ?> "musicCarouselShelfBasicHeaderRenderer" in
    let more := basic ?> "moreContentButton" ?> "buttonRenderer"
                  ?> "navigationEndpoint" ?> "browseEndpoint" in
    cs <- get carousel "contents" ;;
    items <- carouselList host cs ;;
    Ok (JObj [("title", basic ?> "title" ?> "runs" ?@ 0 ?> "text");
              ("browseId", more ?> "browseId");
              ("params", more ?> "params");
              ("items", JArr items)]).

Definition parseArtistPage (response browseId : JS) : Res JS :=
  header <- get response "header" ;;
  let immersive := header ?> "musicImmersiveHeaderRenderer" in
  let visual := header ?> "musicVisualHeaderRenderer" in
  let detail := header ?> "musicDetailHeaderRenderer" in
  let musicHeader := header ?> "musicHeaderRenderer" in
  let title :=
    orElse (orElse (immersive ?> "title" ?> "runs" ?@ 0 ?> "text")
                   (visual ?> "title" ?> "runs" ?@ 0 ?> "text"))
           (musicHeader ?> "title" ?> "runs" ?@ 0 ?> "text") in
  let thumbnail :=
    orElse (orElse (getThumbnailUrl host (immersive ?> "thumbnail" ?> "musicThumbnailRenderer"))
                   (getThumbnailUrl host
                      (visual ?> "foregroundThumbnail" ?> "musicThumbnailRenderer")))
           (getThumbnailUrl host (detail ?> "thumbnail" ?> "musicThumbnailRenderer")) in
  sectionContents <- singleColumnContents response ;;
  found <- optChain sectionContents (fun v =>
             l <- arrayOf v ;;
             findM (fun c => d <- get c "musicDescriptionShelfRenderer" ;;
                             Ok (truthy d)) l) ;;
  let descriptionRuns :=
    orElse (found ?> "musicDescriptionShelfRenderer" ?> "description" ?> "runs")
           (immersive ?> "description" ?> "runs") in
  s <- optChain sectionContents (fun v =>
         l <- arrayOf v ;;
         m <- mapM parseArtistSection l ;;
         Ok (JArr (filterBoolean m))) ;;
  let sections := orElse s (JArr []) in
  description <- joinedText descriptionRuns ;;
  let subscribe := immersive ?> "subscriptionButton" ?> "subscribeButtonRenderer" in
  Ok (JObj [("artist", JObj [("id", browseId); ("title", title);
                             ("thumbnail", thumbnail);
                             ("channelId", subscribe ?> "channelId")]);
            ("sections", sections);
            ("description", orElse description JNull);
            ("subscriberCountText",
             orElse (orElse (immersive ?> "subscriptionButton2" ?> "subscribeButtonRenderer"
                               ?> "subscriberCountWithSubscribeText" ?> "runs" ?@ 0
                               ?> "text")
                            (subscribe ?> "longSubscriberCountText" ?> "runs" ?@ 0 ?> "text"))
                    (subscribe ?> "shortSubscriberCountText" ?> "runs" ?@ 0 ?> "text"));
            ("monthlyListenerCount",
             immersive ?> "monthlyListenerCount" ?> "runs" ?@ 0 ?> "text")]).

End MoreParsers.

(** *** parseNextResult *)

(** The callback of the [map] over the panel: [null] for an entry without a
    video renderer. *)
Definition panelEntry (c : JS) : Res JS :=
  renderer <- get c "playlistPanelVideoRenderer" ;;
  if negb (truthy renderer) then Ok JNull
  else
    item <- parsePlaylistPanelVideoRenderer renderer ;;
    sel <- get renderer "selected" ;;
    Ok (JObj [("item", item); ("selected", orElse sel (JBool false))]).

(** [(x) => x && x.item] *)
Definition hasItem (x : JS) : Res bool :=
  if truthy x then i <- get x "item" ;; Ok (truthy i) else Ok false.

(** [xs.findIndex(p)], counting from [i]: [-1] when nothing is found. *)
Fixpoint findIndexM (p : JS -> Res bool) (l : list JS) (i : nat) : Res Z :=
  match l with
  | [] => Ok (-1)%Z
  | x :: xs => b <- p x ;; if b then Ok (Z.of_nat i) else findIndexM p xs (S i)
  end.

Definition watchNextTabs (response : JS) : Res JS :=
  c <- get response "contents" ;;
  Ok (c ?> "singleColumnMusicWatchNextResultsRenderer" ?> "tabbedRenderer"
        ?> "watchNextTabbedResultsRenderer" ?> "tabs").

Definition parseNextResult (response : JS) : Res JS :=
  cc <- get response "continuationContents" ;;
  playlistPanelRenderer <-
    (if truthy (cc ?> "playlistPanelContinuation")
     then Ok (cc ?> "playlistPanelContinuation")
     else tabs <- watchNextTabs response ;;
          Ok (tabs ?@ 0 ?> "tabRenderer" ?> "content" ?> "musicQueueRenderer"
                ?> "content" ?> "playlistPanelRenderer")) ;;
  if negb (truthy playlistPanelRenderer) then Ok JNull
  else
    tabs1 <- watchNextTabs response ;;
    let title := tabs1 ?@ 0 ?> "tabRenderer" ?> "content" ?> "musicQueueRenderer"
                   ?> "header" ?> "musicQueueHeaderRenderer" ?> "subtitle"
                   ?> "runs" ?@ 0 ?> "text" in
    cs <- get playlistPanelRenderer "contents" ;;
    a <- optChain cs (fun v =>
           l <- arrayOf v ;;
           m <- mapM panelEntry l ;;
           f <- filterM hasItem m ;;
           Ok (JArr f)) ;;
    items <- arrayOf (orElse a (JArr [])) ;;
    found <- mapM (fun i => get i "item") items ;;
    currentIndex <- findIndexM (fun i => s <- get i "selected" ;; Ok (truthy s)) items 0 ;;
    tabs <- watchNextTabs response ;;
    conts <- get playlistPanelRenderer "continuations" ;;
    Ok (JObj [("title", title);
              ("items", JArr found);
              ("currentIndex",
               if (0 <=? currentIndex)%Z then JNum currentIndex else JNull);
              ("lyricsEndpoint",
               orElse (tabs ?@ 1 ?> "tabRenderer" ?> "endpoint" ?> "browseEndpoint") JNull);
              ("relatedEndpoint",
               orElse (tabs ?@ 2 ?> "tabRenderer" ?> "endpoint" ?> "browseEndpoint") JNull);
              ("continuation", getContinuation conts)]).

(** ** Further methods of the client ([youtube.js]) *)

Section MoreClient.

Variable host : Host.
Variable transport : Transport.

(** What a template literal makes of a value that is not a string already
    ([`VL${playlistId}`]); the conversion of the engine is taken as given. *)
Variable stringOf : JS -> string.

Definition templateText (v : JS) : string :=
  match v with
  | JStr s => s
  | _ => stringOf v
  end.

(** A parameter declared with [= null]: [undefined] is replaced by the
    default, any other value is kept.  [InnerTube.browse] declares its
    identifier, its parameters and its token this way. *)
Definition defaultNull (v : JS) : JS :=
  match v with
  | JUndef => JNull
  | _ => v
  end.

(** *** album *)

Definition album (fuel : nat) (browseId : JS) (withSongs : bool) (w : World)
  : option (Res AlbumPage * World) :=
  let (r, w1) := send transport (Browse (defaultNull browseId) JNull JNull false) w in
  match (response <- r ;; parseAlbumPage host response browseId) with
  | Throw e => Some (Throw e, w1)
  | Ok None => Some (Throw (JsError "Failed to parse album page"), w1)
  | Ok (Some result) =>
      let playlistId := prop (pageAlbum result) "playlistId" in
      if withSongs && truthy playlistId && (length (pageSongs result) =? 0)%nat then
        match albumSongs host transport fuel (templateText playlistId) w1 with
        | None => None
        | Some (Throw e, w2) => Some (Throw e, w2)
        | Some (Ok songsResult, w2) =>
            Some (Ok {| pageAlbum := pageAlbum result; pageSongs := songsResult;
                        pageOtherVersions := pageOtherVersions result |}, w2)
        end
      else Some (Ok result, w1)
  end.

(** *** artist, artistItems and artistAlbums *)

Definition artist (browseId : JS) (w : World) : Res JS * World :=
  let (r, w') := send transport (Browse (defaultNull browseId) JNull JNull false) w in
  (response <- r ;; parseArtistPage host response browseId, w').

Definition titledItems (title : JS) (items : list JS) (continuation visitorData : JS)
  : JS :=
  JObj [("title", title); ("items", JArr items); ("continuation", continuation);
        ("_visitorData", visitorData)].

(** The body of [artistItems] after the response has arrived: grid,
    carousel, shelf, and the playlist shelf as the fallback. *)
Definition artistItemsFirstPage (response : JS) : Res JS :=
  rc <- get response "responseContext" ;;
  let responseVisitorData := orElse (rc ?> "visitorData") JNull in
  sc <- singleColumnContents response ;;
  let contents := sc ?@ 0 in
  let grid := contents ?> "gridRenderer" in
  let carousel := contents ?> "musicCarouselShelfRenderer" in
  let shelf := contents ?> "musicShelfRenderer" in
  let playlistShelf := contents ?> "musicPlaylistShelfRenderer" in
  if truthy grid then
    hd <- get grid "header" ;;
    its <- get grid "items" ;;
    items <- twoRowList host its ;;
    conts <- get grid "continuations" ;;
    Ok (titledItems
          (orElse (hd ?> "gridHeaderRenderer" ?> "title" ?> "runs" ?@ 0 ?> "text") (JStr ""))
          items (nextContinuationOf conts) responseVisitorData)
  else if truthy carousel then
    hd <- get carousel "header" ;;
    cs <- get carousel "contents" ;;
    items <- carouselList host cs ;;
    Ok (titledItems
          (orElse (hd ?> "musicCarouselShelfBasicHeaderRenderer" ?> "title"
                      ?> "runs" ?@ 0 ?> "text") (JStr ""))
          items JNull responseVisitorData)
  else if truthy shelf then
    cs <- get shelf "contents" ;;
    items <- responsiveList host cs ;;
    t <- get shelf "title" ;;
    hdr <- get response "header" ;;
    conts <- get shelf "continuations" ;;
    Ok (titledItems
          (orElse (orElse (t ?> "runs" ?@ 0 ?> "text")
                          (hdr ?> "musicHeaderRenderer" ?> "title" ?> "runs" ?@ 0 ?> "text"))
                  (JStr ""))
          items (nextContinuationOf conts) responseVisitorData)
  else
    items <- responsiveList host (playlistShelf ?> "contents") ;;
    hdr <- get response "header" ;;
    found <- optChain (playlistShelf ?> "contents") (fun v =>
               l <- arrayOf v ;;
               findM (fun c => r <- get c "continuationItemRenderer" ;; Ok (truthy r)) l) ;;
    Ok (titledItems
          (orElse (hdr ?> "musicHeaderRenderer" ?> "title" ?> "runs" ?@ 0 ?> "text")
                  (JStr ""))
          items (orElse (continuationToken found) JNull) responseVisitorData).

Definition artistItems (browseId params : JS) (w : World) : Res JS * World :=
  let (r, w') := send transport
                   (Browse (defaultNull browseId) (defaultNull params) JNull false) w in
  (response <- r ;; artistItemsFirstPage response, w').

(** [(section) => section.items && section.items.some((item) => item && item.type === 'album')] *)
Definition hasAlbum (section : JS) : Res bool :=
  its <- get section "items" ;;
  if truthy its then l <- arrayOf its ;; someM isAlbumItem l else Ok false.

(** The section of the artist page that holds albums; a falsy value where
    [artistAlbums] returns its empty result: no page, no sections, or no
    section with an album. *)
Definition albumsSectionOf (artistPage : JS) : Res JS :=
  if negb (truthy artistPage) then Ok JUndef
  else
    secs <- get artistPage "sections" ;;
    if negb (truthy secs) then Ok JUndef
    else l <- arrayOf secs ;; findM hasAlbum l.

Definition titledAlbums (title : JS) (albums : list JS) (continuation visitorData : JS)
  : JS :=
  JObj [("title", title); ("albums", JArr albums); ("continuation", continuation);
        ("visitorData", visitorData)].

(** [xs.filter((item) => item && item.type === 'album')] *)
Definition albumsOnly (xs : JS) : Res (list JS) :=
  l <- arrayOf xs ;; filterM isAlbumItem l.

Definition artistAlbums (browseId : JS) (w : World) : Res JS * World :=
  let (r, w1) := artist browseId w in
  match (artistPage <- r ;; albumsSectionOf artistPage) with
  | Throw e => (Throw e, w1)
  | Ok albumsSection =>
      if negb (truthy albumsSection) then (Ok (albumsResult [] JNull JNull), w1)
      else if truthy (prop albumsSection "browseId") then
        let (r2, w2) := artistItems (prop albumsSection "browseId")
                          (prop albumsSection "params") w1 in
        (firstPage <- r2 ;;
         its <- get firstPage "items" ;;
         albums <- albumsOnly its ;;
         t <- get albumsSection "title" ;;
         c <- get firstPage "continuation" ;;
         vd <- get firstPage "_visitorData" ;;
         Ok (titledAlbums t albums (orElse c JNull)
               (if truthy c then orElse vd JNull else JNull)), w2)
      else
        (t <- get albumsSection "title" ;;
         its <- get albumsSection "items" ;;
         albums <- albumsOnly its ;;
         Ok (titledAlbums t albums JNull JNull), w1)
  end.

(** *** playlist *)

Definition playlist (playlistId : JS) (w : World) : Res JS * World :=
  let (r, w') := send transport
                   (Browse (JStr ("VL" ++ templateText playlistId)) JNull JNull true) w in
  (response <- r ;;
   result <- parsePlaylistPage host response playlistId ;;
   if negb (truthy result) then Throw (JsError "Failed to parse playlist page")
   else Ok result, w').

End MoreClient.

(** ** The watch-next and feedback endpoints

    [InnerTube.next] and [InnerTube.feedback] are a second collaborator of
    the same kind as the transport above: a function of the call and of the
    calls made before it. *)

Inductive Call : Type :=
| NextCall (videoId playlistId playlistSetVideoId index params continuation : JS)
| FeedbackCall (tokens : JS).

Definition Service : Type := list Call -> Call -> Res JS.

(** [a === b] between a value of the response and an argument of the
    caller: two primitives are equal when they are the same; an object of
    the response is never the caller's object. *)
Definition strictEquals (a b : JS) : bool := sameValueZero a b.

(** [xs.every(p)] stops at the first element that fails. *)
Fixpoint everyM {A : Type} (p : A -> Res bool) (l : list A) : Res bool :=
  match l with
  | [] => Ok true
  | x :: xs => b <- p x ;; if b then everyM p xs else Ok false
  end.

Section Feedback.

Variable service : Service.

Definition invoke (c : Call) (log : list Call) : Res JS * list Call :=
  (service log c, log ++ [c]).

Definition next (videoId playlistId playlistSetVideoId index params continuation : JS)
  (log : list Call) : Res JS * list Call :=
  let (r, log') :=
    invoke (NextCall videoId (defaultNull playlistId) (defaultNull playlistSetVideoId)
              (defaultNull index) (defaultNull params) (defaultNull continuation)) log in
  (response <- r ;; parseNextResult response, log').

(** [response.feedbackResponses?.every((r) => r.isProcessed) || false] *)
Definition allProcessed (response : JS) : Res JS :=
  fr <- get response "feedbackResponses" ;;
  a <- optChain fr (fun v =>
         l <- arrayOf v ;;
         b <- everyM (fun r => p <- get r "isProcessed" ;; Ok (truthy p)) l ;;
         Ok (JBool b)) ;;
  Ok (orElse a (JBool false)).

Definition feedback (tokens : JS) (log : list Call) : Res JS * list Call :=
  let (r, log') := invoke (FeedbackCall tokens) log in
  (response <- r ;; allProcessed response, log').

(** [addSongToLibrary] and [removeSongFromLibrary] differ in the token they
    read and in the message of their error. *)
Definition toggleLibrary (tokenName message : string) (videoId : JS) (log : list Call)
  : Res JS * list Call :=
  let (r, log1) := next videoId JNull JNull JNull JNull JNull log in
  match (nextResult <- r ;;
         song <- optChain (nextResult ?> "items") (fun v =>
                   l <- arrayOf v ;;
                   findM (fun s => i <- get s "id" ;; Ok (strictEquals i videoId)) l) ;;
         Ok (song ?> tokenName)) with
  | Throw e => (Throw e, log1)
  | Ok token =>
      if negb (truthy token) then (Throw (JsError message), log1)
      else feedback (JArr [token]) log1
  end.

Definition addSongToLibrary : JS -> list Call -> Res JS * list Call :=
  toggleLibrary "libraryAddToken" "Add to library token not available".

Definition removeSongFromLibrary : JS -> list Call -> Res JS * list Call :=
  toggleLibrary "libraryRemoveToken" "Remove from library token not available".

End Feedback.

(** ** parseRelatedPage *)

(** The four arrays the parser fills. *)
Record Related : Type := {
  relatedSongs : list JS;
  relatedAlbums : list JS;
  relatedArtists : list JS;
  relatedPlaylists : list JS
}.

Section RelatedPage.

Variable host : Host.

(** The callback of the inner [forEach]: map the entry, then file the item
    by its [type]; an item of another type is dropped. *)
Definition relatedStep (acc : Related) (content : JS) : Res Related :=
  r <- get content "musicResponsiveListItemRenderer" ;;
  item <- (if truthy r then parseMusicResponsiveListItemRenderer host r
           else
             t <- get content "musicTwoRowItemRenderer" ;;
             if truthy t then parseMusicTwoRowItemRenderer host t else Ok JNull) ;;
  if negb (truthy item) then Ok acc
  else
    ty <- get item "type" ;;
    Ok (if isStr ty "song" then
          {| relatedSongs := relatedSongs acc ++ [item];
             relatedAlbums := relatedAlbums acc;
             relatedArtists := relatedArtists acc;
             relatedPlaylists := relatedPlaylists acc |}
        else if isStr ty "album" then
          {| relatedSongs := relatedSongs acc;
             relatedAlbums := relatedAlbums acc ++ [item];
             relatedArtists := relatedArtists acc;
             relatedPlaylists := relatedPlaylists acc |}
        else if isStr ty "artist" then
          {| relatedSongs := relatedSongs acc;
             relatedAlbums := relatedAlbums acc;
             relatedArtists := relatedArtists acc ++ [item];
             relatedPlaylists := relatedPlaylists acc |}
        else if isStr ty "playlist" then
          {| relatedSongs := relatedSongs acc;
             relatedAlbums := relatedAlbums acc;
             relatedArtists := relatedArtists acc;
             relatedPlaylists := relatedPlaylists acc ++ [item] |}
        else acc).

(** [v?.forEach(f)] with [f] updating the accumulator. *)
Definition forEachM {A : Type} (f : A -> JS -> Res A) (v : JS) (a : A) : Res A :=
  if nullish v then Ok a else l <- arrayOf v ;; foldM f l a.

Definition parseRelatedPage (response : JS) : Res JS :=
  c <- get response "contents" ;;
  acc <- forEachM (fun acc section =>
           m <- get section "musicCarouselShelfRenderer" ;;
           forEachM relatedStep (m ?> "contents") acc)
         (c ?> "sectionListRenderer" ?> "contents")
         {| relatedSongs := []; relatedAlbums := [];
            relatedArtists := []; relatedPlaylists := [] |} ;;
  Ok (JObj [("songs", JArr (relatedSongs acc)); ("albums", JArr (relatedAlbums acc));
            ("artists", JArr (relatedArtists acc));
            ("playlists", JArr (relatedPlaylists acc))]).

End RelatedPage.

(** ** parseChartsPage *)

Section Charts.

Variable host : Host.

(** Two more conversions of the engine, taken as given: [String(v)] for a
    value that is not a string, as a regular expression applies it to its
    argument, and the test [v.length < 3] for a value that is not an
    array. *)
Variable stringOf : JS -> string.
Variable shorterThan3 : JS -> bool.

(** [/needle/i.test(title)]: the pattern is a word of lower-case letters,
    and only the letters A to Z fold to them. *)
Definition testIgnoreCase (needle : string) (title : JS) : bool :=
  includes needle (toLowerCase (match title with JStr s => s | _ => stringOf title end)).

Definition determineChartType (title : JS) : string :=
  if negb (truthy title) then "GENRE"
  else if testIgnoreCase "trending" title then "TRENDING"
  else if testIgnoreCase "top" title then "TOP"
  else "GENRE".

(** No [try] here: a [TypeError] escapes. *)
Definition parseChartItem (renderer : JS) : Res JS :=
  if negb (truthy renderer) then Ok JNull
  else
    fc <- get renderer "flexColumns" ;;
    let flexColumns := orElse fc (JArr []) in
    let tooShort := match flexColumns with
                    | JArr l => (length l <? 3)%nat
                    | _ => shorterThan3 flexColumns
                    end in
    pid <- get renderer "playlistItemData" ;;
    if tooShort || negb (truthy (pid ?> "videoId")) then Ok JNull
    else
      let column (n : nat) :=
        pidx flexColumns n ?> "musicResponsiveListItemFlexColumnRenderer" ?> "text" in
      let title := column 0 ?> "runs" ?@ 0 ?> "text" in
      if negb (truthy title) then Ok JNull
      else
        pid' <- get renderer "playlistItemData" ;;
        id <- get pid' "videoId" ;;
        a <- optChain (column 1 ?> "runs") (fun runs =>
               l <- arrayOf runs ;;
               m <- mapM (fun r =>
                      name <- get r "text" ;;
                      nav <- get r "navigationEndpoint" ;;
                      Ok (JObj [("name", name);
                                ("id", orElse (browseIdOf nav) JNull)])) l ;;
               named <- filterM (fun a => n <- get a "name" ;; Ok (truthy n)) m ;;
               Ok (JArr named)) ;;
        th <- get renderer "thumbnail" ;;
        badges <- get renderer "badges" ;;
        explicit <- explicitOf badges ;;
        Ok (JObj [("type", JStr "song"); ("id", id); ("title", title);
                  ("artists", orElse a (JArr []));
                  ("thumbnail", getThumbnailUrl host (th ?> "musicThumbnailRenderer"));
                  ("explicit", explicit);
                  ("chartPosition", yearOf host (column 2 ?> "runs" ?@ 0 ?> "text"));
                  ("chartChange", orElse (column 2 ?> "runs" ?@ 1 ?> "text") JNull)]).

Definition chartSection (title : JS) (items : list JS) (chartType : string) : JS :=
  JObj [("title", title); ("items", JArr items); ("chartType", JStr chartType)].

(** The callback of the [map] over a carousel of a chart. *)
Definition chartEntry (item : JS) : Res JS :=
  r <- get item "musicResponsiveListItemRenderer" ;;
  if truthy r then parseChartItem r
  else
    t <- get item "musicTwoRowItemRenderer" ;;
    if truthy t then parseMusicTwoRowItemRenderer host t else Ok JNull.

(** The callback of the [forEach] over the contents; [sections] is the
    array it pushes to.  A carousel without a title leaves the callback at
    once, its grid is not looked at. *)
Definition chartStep (sections : list JS) (content : JS) : Res (list JS) :=
  carousel <- get content "musicCarouselShelfRenderer" ;;
  afterCarousel <-
    (if truthy carousel then
       hd <- get carousel "header" ;;
       let title := hd ?> "musicCarouselShelfBasicHeaderRenderer" ?> "title"
                       ?> "runs" ?@ 0 ?> "text" in
       if negb (truthy title) then Ok None
       else
         cs <- get carousel "contents" ;;
         a <- optChain cs (fun v =>
                l <- arrayOf v ;;
                m <- mapM chartEntry l ;;
                Ok (JArr (filterBoolean m))) ;;
         items <- arrayOf (orElse a (JArr [])) ;;
         Ok (Some (if (0 <? length items)%nat
                   then sections ++ [chartSection title items (determineChartType title)]
                   else sections))
     else Ok (Some sections)) ;;
  match afterCarousel with
  | None => Ok sections
  | Some sections1 =>
      grid <- get content "gridRenderer" ;;
      if truthy grid then
        hd <- get grid "header" ;;
        let title := hd ?> "gridHeaderRenderer" ?> "title" ?> "runs" ?@ 0 ?> "text" in
        if negb (truthy title) then Ok sections1
        else
          its <- get grid "items" ;;
          items <- twoRowList host its ;;
          Ok (if (0 <? length items)%nat
              then sections1 ++ [chartSection title items "NEW_RELEASES"]
              else sections1)
      else Ok sections1
  end.

Definition parseChartsPage (response : JS) : Res JS :=
  c <- get response "contents" ;;
  sections <- forEachM chartStep
                (c ?> "singleColumnBrowseResultsRenderer" ?> "tabs" ?@ 0 ?> "tabRenderer"
                   ?> "content" ?> "sectionListRenderer" ?> "contents") [] ;;
  cc <- get response "continuationContents" ;;
  Ok (JObj [("sections", JArr sections);
            ("continuation",
             getContinuation (cc ?> "sectionListContinuation" ?> "continuations"))]).

End Charts.

(** ** Request headers and context ([InnerTube._buildHeaders],
    [InnerTube._buildContext]) *)

Definition ORIGIN_YOUTUBE_MUSIC : string := "https://music.youtube.com".
Definition REFERER_YOUTUBE_MUSIC : string := ORIGIN_YOUTUBE_MUSIC ++ "/".
Definition USER_AGENT_WEB : string :=
  "Mozilla/5.0 (Windows NT 10.0; Win64; x64; rv:140.0) Gecko/20100101 Firefox/140.0".

Record ClientConfig : Type := {
  clientName : string;
  clientVersion : string;
  clientId : string;
  userAgent : string;
  loginSupported : bool;
  useSignatureTimestamp : bool;
  useWebPoTokens : bool;
  isEmbedded : bool
}.

Definition WEB : ClientConfig :=
  {| clientName := "WEB"; clientVersion := "2.20260213.00.00"; clientId := "1";
     userAgent := USER_AGENT_WEB; loginSupported := false;
     useSignatureTimestamp := false; useWebPoTokens := false; isEmbedded := false |}.

Definition WEB_REMIX : ClientConfig :=
  {| clientName := "WEB_REMIX"; clientVersion := "1.20260213.01.00"; clientId := "67";
     userAgent := USER_AGENT_WEB; loginSupported := true;
     useSignatureTimestamp := true; useWebPoTokens := true; isEmbedded := false |}.

(** The fields of the [InnerTube] object that the two builders read:
    the session fields, the cookie map filled by the constructor, and the
    locale. *)
Record Session : Type := {
  tube : InnerTube;
  cookieMap : list (string * string);
  gl : JS;
  hl : JS
}.

Fixpoint lookup (k : string) (m : list (string * string)) : option string :=
  match m with
  | [] => None
  | (k', v) :: m' => if k' =? k then Some v else lookup k m'
  end.

(** The setter of the client, [set cookie(value) { this.innerTube.cookie =
    value; }]: the cookie map is left as the constructor filled it. *)
Definition setCookie (value : JS) (s : Session) : Session :=
  {| tube := {| visitorData := visitorData (tube s);
                dataSyncId := dataSyncId (tube s);
                cookie := value |};
     cookieMap := cookieMap s;
     gl := gl s;
     hl := hl s |}.

Section Headers.

(** [crypto.createHash('sha1')...digest('hex')] and
    [Math.floor(Date.now() / 1000)], taken as given. *)
Variable sha1 : string -> string.
Variable currentTime : nat.

Definition _buildContext (s : Session) (client : ClientConfig) (visitorData dataSyncId : JS)
  : JS :=
  JObj [("client",
         JObj [("clientName", JStr (clientName client));
               ("clientVersion", JStr (clientVersion client));
               ("gl", gl s); ("hl", hl s);
               ("visitorData", orElse visitorData JUndef)]);
        ("user",
         JObj [("lockedSafetyMode", JBool false);
               ("onBehalfOfUser",
                if loginSupported client then orElse dataSyncId JUndef else JUndef)]);
        ("request",
         JObj [("internalExperimentFlags", JArr []); ("useSsl", JBool true)])].

Definition _buildHeaders (s : Session) (client : ClientConfig) (setLogin : bool)
  : list (string * JS) :=
  let headers :=
    [("Content-Type", JStr "application/json");
     ("Accept", JStr "application/json");
     ("Accept-Language", JStr "en-US,en;q=0.9");
     ("X-Goog-Api-Format-Version", JStr "1");
     ("X-YouTube-Client-Name", JStr (clientId client));
     ("X-YouTube-Client-Version", JStr (clientVersion client));
     ("X-Origin", JStr ORIGIN_YOUTUBE_MUSIC);
     ("Referer", JStr REFERER_YOUTUBE_MUSIC);
     ("User-Agent", JStr (userAgent client))] in
  let headers1 :=
    if truthy (visitorData (tube s))
    then headers ++ [("X-Goog-Visitor-Id", visitorData (tube s))]
    else headers in
  if setLogin && loginSupported client && truthy (cookie (tube s)) then
    let headers2 := headers1 ++ [("Cookie", cookie (tube s))] in
    match lookup "SAPISID" (cookieMap s) with
    | Some sapisid =>
        if isEmpty sapisid then headers2
        else
          let sapisidHash :=
            sha1 (natKey currentTime ++ " " ++ sapisid ++ " " ++ ORIGIN_YOUTUBE_MUSIC) in
          headers2 ++ [("Authorization",
                        JStr ("SAPISIDHASH " ++ natKey currentTime ++ "_" ++ sapisidHash))]
    | None => headers2
    end
  else headers1.

End Headers.

(** ** The routes of the YouTube router ([routes/youtube.js])

    The router is made with the defaults of Express: a path is matched
    segment by segment, a literal segment whatever its case, a parameter
    [:name] by any segment that is not empty, and one slash at the end is
    allowed.  The routes are tried in the order of their registration and
    the first one whose method and pattern match runs; every handler below
    answers the request or hands an error to the error handler, none passes
    the request on to a later route. *)

Inductive Method : Type := GET | POST | DELETE.

Definition sameMethod (a b : Method) : bool :=
  match a, b with
  | GET, GET | POST, POST | DELETE, DELETE => true
  | _, _ => false
  end.

Inductive Segment : Type :=
| Lit (text : string)
| Param (name : string).

(** One handler per registered route, named after what it serves. *)
Inductive Handler : Type :=
| SearchSuggestionsRoute | SearchSummaryRoute | SearchRoute | SearchContinuationRoute
| AlbumRoute | AlbumSongsRoute
| ArtistRoute | ArtistAlbumsRoute | ArtistItemsRoute
| ArtistItemsContinuationRoute | ArtistAlbumsContinuationRoute
| PlaylistRoute | PlaylistContinuationRoute
| HomeRoute | ExploreRoute | NewReleasesRoute | MoodAndGenresRoute | ChartsRoute
| BrowseRoute
| LibraryRoute | LibraryContinuationRoute
| HistoryRoute | PlayerRoute | NextRoute | QueueRoute
| LyricsRoute | RelatedRoute | TranscriptRoute | AccountRoute
| LikeVideoRoute | LikePlaylistRoute | SubscribeRoute
| PlaylistCreateRoute | PlaylistRenameRoute | PlaylistDeleteRoute
| PlaylistAddRoute | PlaylistRemoveRoute
| LibraryAddRoute | LibraryRemoveRoute.

Record Route : Type := {
  routeMethod : Method;
  routePattern : list Segment;
  routeHandler : Handler
}.

Definition route (m : Method) (pattern : list Segment) (handler : Handler) : Route :=
  {| routeMethod := m; routePattern := pattern; routeHandler := handler |}.

(** The routes in the order of their registration. *)
Definition youtubeRoutes : list Route :=
  [route GET [Lit "search"; Lit "suggestions"] SearchSuggestionsRoute;
   route GET [Lit "search"; Lit "summary"] SearchSummaryRoute;
   route GET [Lit "search"] SearchRoute;
   route GET [Lit "search"; Lit "continuation"] SearchContinuationRoute;
   route GET [Lit "album"; Param "browseId"] AlbumRoute;
   route GET [Lit "album"; Param "playlistId"; Lit "songs"] AlbumSongsRoute;
   route GET [Lit "artist"; Param "browseId"] ArtistRoute;
   route GET [Lit "artist"; Param "browseId"; Lit "albums"] ArtistAlbumsRoute;
   route GET [Lit "artist"; Param "browseId"; Lit "items"] ArtistItemsRoute;
   route GET [Lit "artist"; Lit "items"; Lit "continuation"] ArtistItemsContinuationRoute;
   route GET [Lit "artist"; Lit "albums"; Lit "continuation"] ArtistAlbumsContinuationRoute;
   route GET [Lit "playlist"; Param "playlistId"] PlaylistRoute;
   route GET [Lit "playlist"; Lit "continuation"] PlaylistContinuationRoute;
   route GET [Lit "home"] HomeRoute;
   route GET [Lit "explore"] ExploreRoute;
   route GET [Lit "new-releases"] NewReleasesRoute;
   route GET [Lit "mood-and-genres"] MoodAndGenresRoute;
   route GET [Lit "charts"] ChartsRoute;
   route GET [Lit "browse"; Param "browseId"] BrowseRoute;
   route GET [Lit "library"; Param "browseId"] LibraryRoute;
   route GET [Lit "library"; Lit "continuation"] LibraryContinuationRoute;
   route GET [Lit "history"] HistoryRoute;
   route GET [Lit "player"; Param "videoId"] PlayerRoute;
   route GET [Lit "next"; Param "videoId"] NextRoute;
   route POST [Lit "queue"] QueueRoute;
   route GET [Lit "lyrics"; Param "browseId"] LyricsRoute;
   route GET [Lit "related"; Param "browseId"] RelatedRoute;
   route GET [Lit "transcript"; Param "videoId"] TranscriptRoute;
   route GET [Lit "account"] AccountRoute;
   route POST [Lit "like"; Lit "video"] LikeVideoRoute;
   route POST [Lit "like"; Lit "playlist"] LikePlaylistRoute;
   route POST [Lit "subscribe"] SubscribeRoute;
   route POST [Lit "playlist"; Lit "create"] PlaylistCreateRoute;
   route POST [Lit "playlist"; Lit "rename"] PlaylistRenameRoute;
   route DELETE [Lit "playlist"; Param "playlistId"] PlaylistDeleteRoute;
   route POST [Lit "playlist"; Lit "add"] PlaylistAddRoute;
   route POST [Lit "playlist"; Lit "remove"] PlaylistRemoveRoute;
   route POST [Lit "library"; Lit "add"] LibraryAddRoute;
   route POST [Lit "library"; Lit "remove"] LibraryRemoveRoute].

(** The segments of a path that begins with a slash. *)
Fixpoint matchSegments (pattern : list Segment) (segments : list string) : bool :=
  match pattern, segments with
  | [], [] => true
  | [], [last] => isEmpty last
  | Lit text :: pattern', s :: segments' =>
      (toLowerCase s =? toLowerCase text) && matchSegments pattern' segments'
  | Param _ :: pattern', s :: segments' =>
      negb (isEmpty s) && matchSegments pattern' segments'
  | _, _ => false
  end.

Definition matchPath (pattern : list Segment) (path : string) : bool :=
  match splitOn "/" path with
  | first :: segments => isEmpty first && matchSegments pattern segments
  | [] => false
  end.

Fixpoint firstMatch (routes : list Route) (m : Method) (path : string) : option Handler :=
  match routes with
  | [] => None
  | r :: routes' =>
      if sameMethod (routeMethod r) m && matchPath (routePattern r) path
      then Some (routeHandler r)
      else firstMatch routes' m path
  end.

(** The handler that serves a request, if any. *)
Definition dispatch (m : Method) (path : string) : option Handler :=
  firstMatch youtubeRoutes m path.
(** ** A host for running examples

    On the values of the examples below it answers as the engine does:
    [parseInt] of a string of decimal digits, [join] of strings, and no
    array-like plain object. *)

Fixpoint decimalValue (acc : Z) (s : string) : Z :=
  match s with
  | String c r =>
      if isDigit c then decimalValue (10 * acc + Z.of_nat (nat_of_ascii c - 48)) r
      else acc
  | EmptyString => acc
  end.

Definition exampleParseInt (v : JS) : option Z :=
  match v with
  | JStr (String c r) => if isDigit c then Some (decimalValue 0 (String c r)) else None
  | _ => None
  end.

Definition exampleJoin (l : list JS) : string :=
  fold_right (fun v acc => match v with JStr s => (s ++ acc)%string | _ => acc end) "" l.

Definition exampleHost : Host :=
  {| parseInt := exampleParseInt;
     joinEmpty := exampleJoin;
     lastOfObject := fun _ => JUndef |}.


(** ** The fragment's identifying fields, read off the fragment itself *)

Definition fragmentBrowseId (r : JS) : JS :=
  r ?> "navigationEndpoint" ?> "browseEndpoint" ?> "browseId".

Definition fragmentPageType (r : JS) : JS :=
  r ?> "navigationEndpoint" ?> "browseEndpoint"
    ?> "browseEndpointContextSupportedConfigs"
    ?> "browseEndpointContextMusicConfig" ?> "pageType".

(** Two-row fragments carry the track identifier in the watch endpoint. *)
Definition twoRowVideoId (r : JS) : JS :=
  r ?> "navigationEndpoint" ?> "watchEndpoint" ?> "videoId".

(** Responsive-list fragments carry it in [playlistItemData] or in the play
    button of the overlay. *)
Definition responsiveVideoId (r : JS) : JS :=
  orElse (r ?> "playlistItemData" ?> "videoId")
    (playEndpoint (r ?> "overlay") ?> "watchEndpoint" ?> "videoId").

Definition flexColumnText (r : JS) (n : nat) : JS :=
  orElse (r ?> "flexColumns") (JArr []) ?@ n
    ?> "musicResponsiveListItemFlexColumnRenderer" ?> "text".

Definition responsiveTitle (r : JS) : JS :=
  flexColumnText r 0 ?> "runs" ?@ 0 ?> "text".

(** The secondary line: the text of the second flex column. *)
Definition secondaryLine (r : JS) : JS := flexColumnText r 1.

Definition hasPrefix (v : JS) (p : string) : bool :=
  match v with
  | JStr s => startsWith p s
  | _ => false
  end.

(** ** The decision orders, as first-match-wins lists *)

(** Two-row fragments: album prefix, track identifier, artist prefix,
    playlist prefixes, unknown. *)
Definition twoRowOrder (r : JS) : string :=
  if hasPrefix (fragmentBrowseId r) "MPREb" then "album"
  else if truthy (twoRowVideoId r) then "song"
  else if hasPrefix (fragmentBrowseId r) "UC" then "artist"
  else if hasPrefix (fragmentBrowseId r) "VL" || hasPrefix (fragmentBrowseId r) "RDCLAK"
       then "playlist"
  else "unknown".

(** Responsive-list fragments: artist (page type or prefix), album (page
    type), playlist (page type), song (track identifier or title), nothing. *)
Definition responsiveOrder (r : JS) : option string :=
  if isStr (fragmentPageType r) "MUSIC_PAGE_TYPE_ARTIST"
     || hasPrefix (fragmentBrowseId r) "UC" then Some "artist"
  else if isStr (fragmentPageType r) "MUSIC_PAGE_TYPE_ALBUM" then Some "album"
  else if isStr (fragmentPageType r) "MUSIC_PAGE_TYPE_PLAYLIST" then Some "playlist"
  else if truthy (responsiveVideoId r) || truthy (responsiveTitle r) then Some "song"
  else None.

(** ** The duration rule, in the claim's words

    The rule is written without the mapper's own duration code: the column
    is read off the fragment, and the pattern is decided on the pieces
    between the colons. *)

(** The text of the fixed-width duration column: the first run of the first
    fixed column. *)
Definition durationColumn (r : JS) : JS :=
  r ?> "fixedColumns" ?@ 0 ?> "musicResponsiveListItemFixedColumnRenderer"
    ?> "text" ?> "runs" ?@ 0 ?> "text".

(** The text of the last fragment of a line. *)
Definition trailingFragment (line : JS) : JS :=
  match line ?> "runs" with
  | JArr l => last l JUndef ?> "text"
  | _ => JUndef
  end.

Definition decimalDigit (c : ascii) : bool :=
  existsb (Ascii.eqb c) ["0"; "1"; "2"; "3"; "4"; "5"; "6"; "7"; "8"; "9"]%char.

(** The pieces of a text between its colons: [3:45] has the pieces [3] and
    [45], a text without a colon is its own single piece. *)
Fixpoint colonGroups (s : string) : list string :=
  match s with
  | EmptyString => [EmptyString]
  | String c r =>
      if Ascii.eqb c ":" then EmptyString :: colonGroups r
      else match colonGroups r with
           | g :: gs => String c g :: gs
           | [] => [String c EmptyString]
           end
  end.

(** One or more decimal digits. *)
Definition decimalGroup (g : string) : bool :=
  (0 <? String.length g)%nat && forallb decimalDigit (list_ascii_of_string g).

(** Two or three groups of decimal digits separated by colons.  The groups
    may have any width and any value. *)
Definition durationPattern (s : string) : bool :=
  match colonGroups s with
  | [a; b] => decimalGroup a && decimalGroup b
  | [a; b; c] => decimalGroup a && decimalGroup b && decimalGroup c
  | _ => false
  end.

(** The duration column when it has a text; otherwise the trailing fragment
    of the secondary line when it matches the pattern; otherwise [null]. *)
Definition durationByRule (r : JS) : JS :=
  if truthy (durationColumn r) then durationColumn r
  else
    match trailingFragment (secondaryLine r) with
    | JStr s => if durationPattern s then JStr s else JNull
    | _ => JNull
    end.

(** A strict clock reading, as the claim has it: [mm:ss] with one or two
    digits of minutes and two of seconds, or [h:mm:ss] with two digits of
    minutes and two of seconds. *)
Definition strictClock (s : string) : bool :=
  match colonGroups s with
  | [m; sec] =>
      decimalGroup m && (String.length m <=? 2)%nat &&
      decimalGroup sec && (String.length sec =? 2)%nat
  | [hr; m; sec] =>
      decimalGroup hr &&
      decimalGroup m && (String.length m =? 2)%nat &&
      decimalGroup sec && (String.length sec =? 2)%nat
  | _ => false
  end.

(** ** The pattern of the mapper, piece by piece *)





(** ** Example payloads *)

Definition textRun (text : string) (browseId : option string) : JS :=
  JObj [("text", JStr text);
        ("navigationEndpoint",
         match browseId with
         | Some b => JObj [("browseEndpoint", JObj [("browseId", JStr b)])]
         | None => JUndef
         end)].

Definition flexColumn (runs : list JS) : JS :=
  JObj [("musicResponsiveListItemFlexColumnRenderer",
         JObj [("text", JObj [("runs", JArr runs)])])].

Definition thumbnailOf (urls : list string) : JS :=
  JObj [("musicThumbnailRenderer",
         JObj [("thumbnail",
                JObj [("thumbnails",
                       JArr (map (fun u => JObj [("url", JStr u)]) urls))])])].

Definition navigation (browseId : option string) (videoId : option string) : JS :=
  JObj [("browseEndpoint",
         match browseId with
         | Some b => JObj [("browseId", JStr b)]
         | None => JUndef
         end);
        ("watchEndpoint",
         match videoId with
         | Some v => JObj [("videoId", JStr v)]
         | None => JUndef
         end)].

(** A song row: title, byline with artist, album and duration. *)
Definition exampleSong : JS :=
  JObj [("flexColumns",
         JArr [flexColumn [textRun "Blue" None];
               flexColumn [textRun "Ana" (Some "UCana"); textRun " & " None;
                           textRun "Sky" (Some "MPREb_sky"); textRun "3:45" None]]);
        ("playlistItemData", JObj [("videoId", JStr "v1")]);
        ("thumbnail", thumbnailOf ["small"; "large"])].

(** The same row with another trailing text in its byline, and with a
    fixed column when [fixed] is given. *)
Definition songEnding (trailing : string) (fixed : option string) : JS :=
  JObj [("flexColumns",
         JArr [flexColumn [textRun "Blue" None];
               flexColumn [textRun "Ana" (Some "UCana"); textRun " & " None;
                           textRun trailing None]]);
        ("playlistItemData", JObj [("videoId", JStr "v1")]);
        ("fixedColumns",
         match fixed with
         | Some t =>
             JArr [JObj [("musicResponsiveListItemFixedColumnRenderer",
                          JObj [("text", JObj [("runs", JArr [textRun t None])])])]]
         | None => JUndef
         end)].

(** What the responsive-list mapper makes of it. *)
Definition exampleSongItem : JS :=
  JObj [("type", JStr "song"); ("id", JStr "v1"); ("title", JStr "Blue");
        ("artists", JArr [JObj [("name", JStr "Ana"); ("id", JStr "UCana")]]);
        ("thumbnail", JStr "large"); ("explicit", JBool false);
        ("musicVideoType", JUndef);
        ("album", JObj [("name", JStr "Sky"); ("id", JStr "MPREb_sky")]);
        ("duration", JStr "3:45")].


(** A channel link whose thumbnail list is an object instead of an array. *)
Definition channelWithBadThumbnails : JS :=
  JObj [("navigationEndpoint", navigation (Some "UCana") None);
        ("thumbnail",
         JObj [("musicThumbnailRenderer",
                JObj [("thumbnail", JObj [("thumbnails", JObj [])])])])].

(** A song row whose badge list is a number. *)
Definition songWithBadBadges : JS :=
  JObj [("flexColumns", JArr [flexColumn [textRun "Blue" None]]);
        ("playlistItemData", JObj [("videoId", JStr "v1")]);
        ("badges", JNum 1)].

(** An album link with a title and no page type. *)
Definition albumLinkRow : JS :=
  JObj [("flexColumns", JArr [flexColumn [textRun "Sky" None]]);
        ("navigationEndpoint", navigation (Some "MPREb_sky") None)].

(** An album link alone: no title, no track identifier, no page type. *)
Definition bareAlbumLink : JS :=
  JObj [("navigationEndpoint", navigation (Some "MPREb_sky") None)].

(** An album tile, as a grid shows it. *)
Definition exampleAlbumTile : JS :=
  JObj [("title", JObj [("runs", JArr [textRun "Sky" None])]);
        ("navigationEndpoint", navigation (Some "MPREb_sky") None)].

(** A resumed response that carries both a grid continuation (one album
    tile) and a playlist-shelf continuation (one song row). *)
Definition gridPart : JS :=
  JObj [("items", JArr [JObj [("musicTwoRowItemRenderer", exampleAlbumTile)]])].

Definition shelfPart : JS :=
  JObj [("contents", JArr [JObj [("musicResponsiveListItemRenderer", exampleSong)]])].

Definition bothShapes : JS :=
  JObj [("continuationContents",
         JObj [("musicPlaylistShelfContinuation", shelfPart);
               ("gridContinuation", gridPart)])].

(** A resumed grid page with three entries: one without a renderer, one
    whose renderer has a badge list that is a number (a lookup fails inside
    the mapper), and an album tile. *)
Definition gridEntries : list JS :=
  [JObj [("other", JNum 1)];
   JObj [("musicTwoRowItemRenderer", JObj [("subtitleBadges", JNum 1)])];
   JObj [("musicTwoRowItemRenderer", exampleAlbumTile)]].

Definition gridWithRejects : JS :=
  JObj [("continuationContents",
         JObj [("gridContinuation", JObj [("items", JArr gridEntries)])])].

(** The same page with a [null] entry in front. *)
Definition gridWithNullEntry : JS :=
  JObj [("continuationContents",
         JObj [("gridContinuation", JObj [("items", JArr (JNull :: gridEntries))])])].

(** A world with a stored visitor identifier and nothing sent yet. *)
Definition exampleWorld : World :=
  {| innerTube := {| visitorData := JStr "stored"; dataSyncId := JNull; cookie := JNull |};
     sent := [] |}.

(** A transport that fails on every call. *)
Definition failingTransport : Transport := fun _ _ => Throw TransportError.

(** ** The log of an [albumSongs] run *)

Definition sentWith (w : World) (rq : Request) : Sent :=
  {| request := rq; sentVisitorData := visitorData (innerTube w) |}.

(** The request of the first page and the request that resumes with a
    token. *)
Definition firstRequest (playlistId : string) : Request :=
  Browse (JStr ("VL" ++ playlistId)) JNull JNull false.

Definition resumeRequest (token : JS) : Request :=
  Browse JNull JNull token false.

(** The world after the first page and one resume call per token. *)
Definition afterRun (w : World) (playlistId : string) (tokens : list JS) : World :=
  {| innerTube := innerTube w;
     sent := sent w ++ sentWith w (firstRequest playlistId)
                       :: map (fun c => sentWith w (resumeRequest c)) tokens |}.

(** Each token differs from the tokens in [seen] and from every token
    before it in the list. *)
Fixpoint freshFrom (seen tokens : list JS) : bool :=
  match tokens with
  | [] => true
  | c :: rest => negb (setHas seen c) && freshFrom (c :: seen) rest
  end.

(** *** A three-page album *)

Definition nextContinuationData (token : string) : JS :=
  JArr [JObj [("nextContinuationData", JObj [("continuation", JStr token)])]].

(** First page: one song row, more to come under token [t1]. *)
Definition pageOne : JS :=
  JObj [("contents",
    JObj [("twoColumnBrowseResultsRenderer",
      JObj [("secondaryContents",
        JObj [("sectionListRenderer",
          JObj [("contents",
            JArr [JObj [("musicPlaylistShelfRenderer",
              JObj [("contents",
                     JArr [JObj [("musicResponsiveListItemRenderer", exampleSong)]]);
                    ("continuations", nextContinuationData "t1")])]])])])])])].

(** Second page: no item, and a new token [t2]. *)
Definition pageTwo : JS :=
  JObj [("onResponseReceivedActions",
         JArr [JObj [("appendContinuationItemsAction",
                      JObj [("continuationItems", JArr [])])]]);
        ("continuationContents",
         JObj [("musicPlaylistShelfContinuation",
                JObj [("continuations", nextContinuationData "t2")])])].

(** Third page: one song row and no token. *)
Definition pageThree : JS :=
  JObj [("onResponseReceivedActions",
         JArr [JObj [("appendContinuationItemsAction",
                      JObj [("continuationItems",
                             JArr [JObj [("musicResponsiveListItemRenderer",
                                          exampleSong)]])])]])].

Definition threePages : Transport :=
  fun _ rq =>
    match rq with
    | Browse browseId _ token _ =>
        if truthy browseId then Ok pageOne
        else if isStr token "t1" then Ok pageTwo
        else if isStr token "t2" then Ok pageThree
        else Throw TransportError
    | _ => Throw TransportError
    end.

(** A first page whose token is [t], and resumed pages that carry one song
    row and the same token again, whatever is asked. *)
Definition echoFirst : JS :=
  JObj [("contents",
    JObj [("twoColumnBrowseResultsRenderer",
      JObj [("secondaryContents",
        JObj [("sectionListRenderer",
          JObj [("contents",
            JArr [JObj [("musicPlaylistShelfRenderer",
              JObj [("contents", JArr []);
                    ("continuations", nextContinuationData "t")])]])])])])])].

Definition echoResumed : JS :=
  JObj [("onResponseReceivedActions",
         JArr [JObj [("appendContinuationItemsAction",
                      JObj [("continuationItems",
                             JArr [JObj [("musicResponsiveListItemRenderer",
                                          exampleSong)]])])]]);
        ("continuationContents",
         JObj [("musicPlaylistShelfContinuation",
                JObj [("continuations", nextContinuationData "t")])])].

Definition echoTransport : Transport :=
  fun _ rq =>
    match rq with
    | Browse browseId _ _ _ => if truthy browseId then Ok echoFirst else Ok echoResumed
    | _ => Throw TransportError
    end.

(** Resumed pages in the shelf format: one song row under
    [continuationContents.musicPlaylistShelfContinuation.contents] and a
    token that is new on every page (the token asked for, with a [+]). *)
Definition shelfFormatResumed (token : string) : JS :=
  JObj [("continuationContents",
         JObj [("musicPlaylistShelfContinuation",
                JObj [("contents",
                       JArr [JObj [("musicResponsiveListItemRenderer", exampleSong)]]);
                      ("continuations", nextContinuationData (token ++ "+"))])])].

Definition shelfFormatTransport : Transport :=
  fun _ rq =>
    match rq with
    | Browse browseId _ token _ =>
        if truthy browseId then Ok echoFirst
        else match token with
             | JStr t => Ok (shelfFormatResumed t)
             | _ => Throw TransportError
             end
    | _ => Throw TransportError
    end.

(** ** A playlist shelf whose first entry is a song row *)

(** A run of a byline: its text and, when it links somewhere, the browse
    identifier of the link. *)
Definition Byline : Type := list (string * option string).

Definition encodeRun (r : string * option string) : JS := textRun (fst r) (snd r).

(** The flex columns and the thumbnail candidates of a row, as upstream
    sends them. *)
Definition columnsOf (cols : list Byline) : JS :=
  JArr (map (fun c => flexColumn (map encodeRun c)) cols).

Definition thumbnailList (urls : list string) : JS :=
  JArr (map (fun u => JObj [("url", JStr u)]) urls).

(** ** The descriptor of a playlist page without a header

    What the fallback takes from a row of the shelf, read off the row: the
    runs of all its flex columns in order, the first of them that links to a
    channel, and the shape a row must have for these reads to go through. *)

(** The runs of one flex column.  A value that is no array counts as a
    single run when it is truthy and as no run otherwise. *)
Definition columnRuns (col : JS) : list JS :=
  match col ?> "musicResponsiveListItemFlexColumnRenderer" ?> "text" ?> "runs" with
  | JArr runs => runs
  | v => if truthy v then [v] else []
  end.

Definition rowRuns (row : JS) : list JS :=
  match row ?> "flexColumns" with
  | JArr cols => flat_map columnRuns cols
  | _ => []
  end.

Definition linksToChannel (run : JS) : bool := hasPrefix (fragmentBrowseId run) "UC".

(** The name and the identifier of the first run that links to a channel,
    [null] when no run does. *)
Definition channelAuthor (row : JS) : JS :=
  match find linksToChannel (rowRuns row) with
  | Some run => JObj [("name", prop run "text"); ("id", fragmentBrowseId run)]
  | None => JNull
  end.

Definition stringOrAbsent (v : JS) : bool :=
  match v with
  | JStr _ | JUndef | JNull => true
  | _ => false
  end.

(** A row is well formed when its flex columns are absent or an array
    without [null] entries, each of its runs is a value other than [null]
    whose browse identifier is a string or absent, and its thumbnail list is
    absent, an array or a string. *)
Definition wellFormedRow (row : JS) : bool :=
  match row ?> "flexColumns" with
  | JArr cols => forallb (fun col => negb (nullish col)) cols
  | v => nullish v
  end &&
  forallb (fun run => negb (nullish run) && stringOrAbsent (fragmentBrowseId run))
    (rowRuns row) &&
  match row ?> "thumbnail" ?> "musicThumbnailRenderer" ?> "thumbnail" ?> "thumbnails" with
  | JArr _ | JStr _ | JUndef | JNull => true
  | _ => false
  end.

(** A playlist page without a header block: one shelf with [entries]. *)
Definition headerlessPage (entries : list JS) : JS :=
  JObj [("contents",
    JObj [("twoColumnBrowseResultsRenderer",
      JObj [("secondaryContents",
        JObj [("sectionListRenderer",
          JObj [("contents",
            JArr [JObj [("musicPlaylistShelfRenderer",
              JObj [("contents", JArr entries)])]])])])])])].

Definition exampleColumns : list Byline :=
  [[("Blue", None)];
   [("Ana", Some "UCana"); (" & ", None); ("Sky", Some "MPREb_sky"); ("3:45", None)]].

Definition exampleRow : JS :=
  JObj [("flexColumns", columnsOf exampleColumns);
        ("playlistItemData", JObj [("videoId", JStr "v1")]);
        ("thumbnail",
         JObj [("musicThumbnailRenderer",
                JObj [("thumbnail",
                       JObj [("thumbnails", thumbnailList ["small"; "large"])])])])].

Definition exampleEntry : JS :=
  JObj [("musicResponsiveListItemRenderer", exampleRow)].

(** The same row with a title that links to a channel of its own. *)
Definition linkedTitleRow : JS :=
  JObj [("flexColumns",
         columnsOf [[("Blue", Some "UCblue")];
                    [("Ana", Some "UCana"); (" & ", None); ("Sky", Some "MPREb_sky")]]);
        ("playlistItemData", JObj [("videoId", JStr "v1")]);
        ("thumbnail",
         JObj [("musicThumbnailRenderer",
                JObj [("thumbnail",
                       JObj [("thumbnails", thumbnailList ["small"; "large"])])])])].

Definition linkedTitleEntry : JS :=
  JObj [("musicResponsiveListItemRenderer", linkedTitleRow)].

(** A row with a track identifier whose flex columns are a number. *)
Definition numberedColumnsRow : JS :=
  JObj [("flexColumns", JNum 5); ("playlistItemData", JObj [("videoId", JStr "v1")])].

(** The playlist descriptor of a mapped page and its first song. *)
Definition descriptorOf (page : Res JS) : option (JS * JS) :=
  match page with
  | Ok v => Some (prop (prop v "playlist") "author", prop (prop v "playlist") "thumbnail")
  | Throw _ => None
  end.

Definition firstSongFields (page : Res JS) : option (JS * JS) :=
  match page with
  | Ok v => Some (pidx (prop v "songs") 0 ?> "artists", pidx (prop v "songs") 0 ?> "thumbnail")
  | Throw _ => None
  end.

(** ** Vocabulary for the further properties *)

(** The character [c] occurs in [s]. *)
Fixpoint contains (c : ascii) (s : string) : bool :=
  match s with
  | EmptyString => false
  | String a r => Ascii.eqb a c || contains c r
  end.

(** The delays of [k] consecutive back-offs that start at [d]: each one is
    twice the one before. *)
Fixpoint backoff (d : Z) (k : nat) : list Z :=
  match k with
  | O => []
  | S k' => d :: backoff (d * 2) k'
  end.

Definition totalSleep (l : list Z) : Z := fold_right Z.add 0%Z l.

(** The key [deduplicateById] files an item under: [item.id || item.browseId]. *)
Definition keyOf (item : JS) : JS := orElse (prop item "id") (prop item "browseId").

(** [a] is [b] with some elements left out, the order kept. *)
Inductive Subseq {A : Type} : list A -> list A -> Prop :=
| subseq_nil : Subseq [] []
| subseq_keep (x : A) (a b : list A) : Subseq a b -> Subseq (x :: a) (x :: b)
| subseq_drop (x : A) (a b : list A) : Subseq a b -> Subseq a (x :: b).

(** A request that fails [k] times and then answers. *)
Definition failsThenAnswers (k : nat) (answer : JS) (n : nat) : Res JS :=
  if (n <? k)%nat then Throw TransportError else Ok answer.

(** A request that fails with a different error each time. *)
Definition alwaysFails (n : nat) : Res JS :=
  Throw (JsError ("attempt " ++ natKey n)).

Definition taggedItem (id : string) (title : string) : JS :=
  JObj [("type", JStr "song"); ("id", JStr id); ("title", JStr title)].

(** A section of the search summary as the caller gets it: a title that is
    not empty, at least one item, no key twice. *)
Definition wellFormedSummary (s : JS) : Prop :=
  exists title items,
    s = JObj [("title", title); ("items", JArr items)] /\
    truthy title = true /\
    items <> [] /\
    freshFrom [] (map keyOf items) = true.

(** What a resumed page promises its caller: the items are mapped items
    (never [null]); no item, no token; and the token is [null] or a truthy
    value, so that a caller who loops while the token is truthy stops on
    every page that carries none. *)
Definition pageInvariant (items : list JS) (token : JS) : Prop :=
  Forall (fun i => truthy i = true) items /\
  (items = [] -> token = JNull) /\
  (token = JNull \/ truthy token = true).

(** A section of the charts page as the caller gets it. *)
Definition wellFormedChart (s : JS) : Prop :=
  exists title items chartType,
    s = JObj [("title", title); ("items", JArr items); ("chartType", JStr chartType)] /\
    truthy title = true /\
    items <> [] /\
    Forall (fun i => truthy i = true) items /\
    In chartType ["TRENDING"; "TOP"; "GENRE"; "NEW_RELEASES"].

Definition allOfType (t : string) (items : list JS) : Prop :=
  Forall (fun i => prop i "type" = JStr t) items.

(** ** Further example payloads *)

(** A resumed search page that names a token and lists no row. *)
Definition emptySearchPage : JS :=
  JObj [("continuationContents",
         JObj [("musicShelfContinuation",
                JObj [("contents", JArr []);
                      ("continuations", nextContinuationData "more")])])].

(** The first tab of a search response. *)
Definition searchTab (sections : list JS) : JS :=
  JObj [("contents",
    JObj [("tabbedSearchResultsRenderer",
      JObj [("tabs",
        JArr [JObj [("tabRenderer",
          JObj [("content",
            JObj [("sectionListRenderer",
              JObj [("contents", JArr sections)])])])]])])])].

(** A top-result card for the track [v1] whose own rows list [v1] again,
    followed by a shelf without rows. *)
Definition topResultCard : JS :=
  JObj [("title", JObj [("runs", JArr [textRun "Blue" None])]);
        ("onTap", JObj [("watchEndpoint", JObj [("videoId", JStr "v1")])]);
        ("contents", JArr [exampleEntry])].

Definition summaryResponse : JS :=
  searchTab [JObj [("musicCardShelfRenderer", topResultCard)];
             JObj [("musicShelfRenderer", JObj [("contents", JArr [])])]].

(** A panel entry for the track [videoId], selected or not, with an add
    token when [token] names one. *)
Definition panelVideo (videoId : string) (selected : bool) (token : option string) : JS :=
  JObj [("playlistPanelVideoRenderer",
         JObj [("videoId", JStr videoId);
               ("selected", JBool selected);
               ("menu",
                JObj [("menuRenderer",
                       JObj [("items",
                              match token with
                              | Some t =>
                                  JArr [JObj [("toggleMenuServiceItemRenderer",
                                    JObj [("defaultIcon",
                                           JObj [("iconType", JStr "LIBRARY_ADD")]);
                                          ("defaultServiceEndpoint",
                                           JObj [("feedbackEndpoint",
                                                  JObj [("feedbackToken", JStr t)])])])]]
                              | None => JArr []
                              end)])])])].

(** A watch-next response: an entry that is no video, then two tracks, the
    second of them selected. *)
Definition watchNextResponse : JS :=
  JObj [("continuationContents",
         JObj [("playlistPanelContinuation",
                JObj [("contents",
                       JArr [JObj [("automixPreviewVideoRenderer", JObj [])];
                             panelVideo "v1" false (Some "add-v1");
                             panelVideo "v2" true None])])])].

Definition queueResponse : JS :=
  JObj [("queueDatas",
         JArr [JObj [("content", panelVideo "v1" false None)];
               JObj [("content", JObj [])]])].

(** A service that answers the watch-next call with the panel above and a
    feedback call with an empty list of feedback responses. *)
Definition exampleService : Service :=
  fun _ c =>
    match c with
    | NextCall _ _ _ _ _ _ => Ok watchNextResponse
    | FeedbackCall _ => Ok (JObj [("feedbackResponses", JArr [])])
    end.

(** A resumed playlist page that names a token and lists no row. *)
Definition emptyPlaylistPage : JS :=
  JObj [("continuationContents",
         JObj [("musicPlaylistShelfContinuation",
                JObj [("contents", JArr []);
                      ("continuations", nextContinuationData "more")])])].

(** A resumed grid of the artist's albums: one album tile, one artist tile,
    a token, and the visitor identifier of the response. *)
Definition exampleArtistTile : JS :=
  JObj [("title", JObj [("runs", JArr [textRun "Ana" None])]);
        ("navigationEndpoint", navigation (Some "UCana") None)].

Definition albumsGrid : JS :=
  JObj [("responseContext", JObj [("visitorData", JStr "fresh")]);
        ("continuationContents",
         JObj [("gridContinuation",
                JObj [("items",
                       JArr [JObj [("musicTwoRowItemRenderer", exampleAlbumTile)];
                             JObj [("musicTwoRowItemRenderer", exampleArtistTile)]]);
                      ("continuations", nextContinuationData "more")])])].

(** The first section of a single-column page. *)
Definition singleColumn (sections : list JS) : JS :=
  JObj [("singleColumnBrowseResultsRenderer",
    JObj [("tabs",
      JArr [JObj [("tabRenderer",
        JObj [("content",
          JObj [("sectionListRenderer",
            JObj [("contents", JArr sections)])])])]])])].

(** An artist page with one carousel of albums that links to more, and the
    page behind that link: a grid with the same album tile and a token. *)
Definition artistPageResponse : JS :=
  JObj [("contents",
         singleColumn
           [JObj [("musicCarouselShelfRenderer",
              JObj [("header",
                     JObj [("musicCarouselShelfBasicHeaderRenderer",
                       JObj [("title", JObj [("runs", JArr [textRun "Albums" None])]);
                             ("moreContentButton",
                              JObj [("buttonRenderer",
                                JObj [("navigationEndpoint",
                                       navigation (Some "MPADana") None)])])])]);
                    ("contents",
                     JArr [JObj [("musicTwoRowItemRenderer", exampleAlbumTile)]])])]])].

Definition artistAlbumsFirstPage : JS :=
  JObj [("responseContext", JObj [("visitorData", JStr "fresh")]);
        ("contents",
         singleColumn
           [JObj [("gridRenderer",
              JObj [("items",
                     JArr [JObj [("musicTwoRowItemRenderer", exampleAlbumTile)];
                           JObj [("musicTwoRowItemRenderer", exampleArtistTile)]]);
                    ("continuations", nextContinuationData "more")])]])].

Definition artistTransport : Transport :=
  fun _ rq =>
    match rq with
    | Browse browseId _ _ _ =>
        if isStr browseId "UCana" then Ok artistPageResponse
        else if isStr browseId "MPADana" then Ok artistAlbumsFirstPage
        else Throw TransportError
    | BrowseWithCtoken _ => Ok albumsGrid
    | _ => Throw TransportError
    end.

(** A transport that answers every request with a headerless playlist page
    of one song row. *)
Definition headerlessTransport : Transport :=
  fun _ _ => Ok (headerlessPage [exampleEntry]).

Definition exampleStringOf (v : JS) : string :=
  match v with
  | JStr s => s
  | _ => "null"
  end.

(** A playlist tile whose browse identifier begins with [VL]. *)
Definition examplePlaylistTile : JS :=
  JObj [("title", JObj [("runs", JArr [textRun "Mix" None])]);
        ("navigationEndpoint", navigation (Some "VLPLmix") None)].

(** A related page: one carousel with a song row and an album tile. *)
Definition relatedResponse : JS :=
  JObj [("contents",
         JObj [("sectionListRenderer",
                JObj [("contents",
                       JArr [JObj [("musicCarouselShelfRenderer",
                         JObj [("contents",
                                JArr [exampleEntry;
                                      JObj [("musicTwoRowItemRenderer",
                                             exampleAlbumTile)]])])]])])])].

(** A charts page: a carousel titled [Top Trending] with one album tile, a
    carousel without a title, and a grid without items. *)
Definition chartsResponse : JS :=
  JObj [("contents",
         singleColumn
           [JObj [("musicCarouselShelfRenderer",
              JObj [("header",
                     JObj [("musicCarouselShelfBasicHeaderRenderer",
                       JObj [("title",
                              JObj [("runs", JArr [textRun "Top Trending" None])])])]);
                    ("contents",
                     JArr [JObj [("musicTwoRowItemRenderer", exampleAlbumTile)]])])];
            JObj [("musicCarouselShelfRenderer",
              JObj [("contents",
                     JArr [JObj [("musicTwoRowItemRenderer", exampleAlbumTile)]])])];
            JObj [("gridRenderer",
              JObj [("header",
                     JObj [("gridHeaderRenderer",
                       JObj [("title",
                              JObj [("runs", JArr [textRun "New" None])])])]);
                    ("items", JArr [])])]])].

(** What the mappers make of the payloads above. *)
Definition exampleAlbumItem : JS :=
  JObj [("type", JStr "album"); ("browseId", JStr "MPREb_sky");
        ("playlistId", JUndef); ("title", JStr "Sky");
        ("artists", JArr []); ("year", JNull);
        ("thumbnail", JNull); ("explicit", JBool false)].

Definition examplePlaylistItem : JS :=
  JObj [("type", JStr "playlist"); ("id", JStr "PLmix");
        ("browseId", JStr "VLPLmix"); ("title", JStr "Mix");
        ("author", JNull); ("thumbnail", JNull)].

Definition panelSong (videoId : string) (addToken : JS) : JS :=
  JObj [("type", JStr "song"); ("id", JStr videoId);
        ("title", JUndef); ("artists", JArr []);
        ("thumbnail", JUndef); ("musicVideoType", JUndef);
        ("album", JNull); ("duration", JNull);
        ("libraryAddToken", addToken);
        ("libraryRemoveToken", JNull); ("explicit", JBool false)].

Definition topResultItem : JS :=
  JObj [("type", JStr "song"); ("id", JStr "v1"); ("title", JStr "Blue");
        ("artists", JArr []); ("thumbnail", JNull)].

Definition headerlessPlaylist : JS :=
  pageResult
    (JObj [("id", JStr "PLx"); ("title", JStr "Sky");
           ("author", JObj [("name", JStr "Ana"); ("id", JStr "UCana")]);
           ("songCountText", JStr "1 songs");
           ("thumbnail", JStr "large"); ("isEditable", JBool false)])
    [exampleSongItem] JNull JNull.

(** A path that a pattern matches: its literal segments, and [x] for every
    parameter. *)
Fixpoint samplePath (pattern : list Segment) : string :=
  match pattern with
  | [] => ""
  | Lit text :: pattern' => "/" ++ text ++ samplePath pattern'
  | Param _ :: pattern' => "/x" ++ samplePath pattern'
  end.

(** How a library toggle ends after it has asked for the watch-next panel
    of the video: it raises and sends nothing more, or it sends one
    feedback call whose only token is truthy and is the token [tokenName]
    of an item of the panel whose [id] is the video. *)
Definition toggleOutcome (service : Service) (videoId : JS) (log : list Call)
  (tokenName : string) (run : Res JS * list Call) : Prop :=
  let asked := NextCall videoId JNull JNull JNull JNull JNull in
  (snd run = log ++ [asked] /\ exists e, fst run = Throw e) \/
  (exists nextResult items song token,
     (response <- service log asked ;; parseNextResult response) = Ok nextResult /\
     prop nextResult "items" = JArr items /\
     In song items /\
     strictEquals (prop song "id") videoId = true /\
     prop song tokenName = token /\
     truthy token = true /\
     snd run = log ++ [asked; FeedbackCall (JArr [token])]).

(** The accumulator of the section walk: mapped items, and a token that is
    [null] or truthy. *)
Definition walked (acc : list JS * JS) : Prop :=
  Forall (fun i => truthy i = true) (fst acc) /\
  (snd acc = JNull \/ truthy (snd acc) = true).

(** Every array of the related page holds items of its own type. *)
Definition filed (acc : Related) : Prop :=
  allOfType "song" (relatedSongs acc) /\ allOfType "album" (relatedAlbums acc) /\
  allOfType "artist" (relatedArtists acc) /\ allOfType "playlist" (relatedPlaylists acc).


(** A session whose cookie map was read from a cookie with a [SAPISID]. *)
Definition exampleSession : Session :=
  {| tube := {| visitorData := JNull; dataSyncId := JNull;
                cookie := JStr "SAPISID=old" |};
     cookieMap := [("SAPISID", "old")];
     gl := JStr "US";
     hl := JStr "en" |}.

Definition exampleSha1 (s : string) : string := "hash(" ++ s ++ ")".
(** ** Basic facts about the exception monad and property reads *)

Lemma bind_Ok_inv {A B : Type} (m : Res A) (k : A -> Res B) (b : B) :
  bind m k = Ok b -> exists a, m = Ok a /\ k a = Ok b.
Proof.
  destruct m as [a | e]; simpl; intros H; [ eauto | discriminate ].
Qed.

Lemma truthy_not_nullish (v : JS) : truthy v = true -> nullish v = false.
Proof. destruct v; simpl; intros H; congruence. Qed.

Lemma get_not_nullish (v : JS) (k : string) :
  nullish v = false -> get v k = Ok (prop v k).
Proof. unfold get; intros ->; reflexivity. Qed.

Lemma get_truthy (v : JS) (k : string) :
  truthy v = true -> get v k = Ok (prop v k).
Proof. intros H; apply get_not_nullish, truthy_not_nullish, H. Qed.

Lemma get_Ok_inv (v : JS) (k : string) (x : JS) :
  get v k = Ok x -> nullish v = false /\ x = prop v k.
Proof.
  unfold get; destruct (nullish v); intros H; [ discriminate | ].
  inversion H; auto.
Qed.

Lemma oget_not_nullish (v : JS) (k : string) :
  nullish v = false -> v ?> k = prop v k.
Proof. unfold oget; intros ->; reflexivity. Qed.

Lemma catchNull_total (m : Res JS) : exists v, catchNull m = Ok v.
Proof. destruct m; simpl; eauto. Qed.

Ltac ok_inv :=
  repeat match goal with
  | H : bind _ _ = Ok _ |- _ =>
      let a := fresh "a" in
      let E := fresh "E" in
      apply bind_Ok_inv in H; destruct H as (a & E & H)
  | H : Ok _ = Ok _ |- _ => inversion H; subst; clear H
  | H : Throw _ = Ok _ |- _ => discriminate H
  | H : (if ?c then _ else _) = Ok _ |- _ => destruct c eqn:?
  end.

Lemma orElse_not_nullish (a : JS) (l : list JS) : nullish (orElse a (JArr l)) = false.
Proof.
  unfold orElse. destruct (truthy a) eqn:E; [ apply truthy_not_nullish, E | reflexivity ].
Qed.

Lemma oidx_not_nullish (v : JS) (n : nat) : nullish v = false -> v ?@ n = pidx v n.
Proof. unfold oidx; intros ->; reflexivity. Qed.

Lemma idx_not_nullish (v : JS) (n : nat) : nullish v = false -> idx v n = Ok (pidx v n).
Proof. unfold idx; intros ->; reflexivity. Qed.

Lemma ostartsWith_Ok (v : JS) (p : string) (b : bool) :
  ostartsWith v p = Ok b -> b = hasPrefix v p.
Proof. destruct v; simpl; intros H; inversion H; reflexivity. Qed.


(** ** The duration pattern *)

Section DurationPattern.

Local Open Scope string_scope.










(** The same pattern on the pieces between the colons. *)











End DurationPattern.

(** ** Prefixes *)




(** ** The item mappers *)

Section ItemMappers.

Variable h : Host.

(** What the [const] block of the responsive-list mapper holds, in terms of
    the fragment. *)
Lemma responsiveFields_spec (r : JS) (x : RFields) :
  truthy r = true ->
  responsiveFields h r = Ok x ->
  rSecondCol x = secondaryLine r /\
  rTitle x = responsiveTitle r /\
  rVideoId x = responsiveVideoId r /\
  rBrowseId x = fragmentBrowseId r /\
  rPageType x = fragmentPageType r.
Proof.
  intros Hr H. pose proof (truthy_not_nullish _ Hr) as Hn.
  unfold responsiveFields, flexText in H.
  rewrite !(get_not_nullish r) in H by exact Hn.
  simpl in H. rewrite !idx_not_nullish in H by apply orElse_not_nullish.
  simpl in H.
  unfold secondaryLine, responsiveTitle, flexColumnText,
    fragmentBrowseId, fragmentPageType.
  rewrite !(oget_not_nullish r) by exact Hn.
  rewrite !(oidx_not_nullish (orElse _ _)) by apply orElse_not_nullish.
  assert (Hv : forall a, truthy (prop r "playlistItemData" ?> "videoId") = a ->
               responsiveVideoId r =
               if a then prop r "playlistItemData" ?> "videoId"
               else playEndpoint (prop r "overlay") ?> "watchEndpoint" ?> "videoId").
  { intros a <-. unfold responsiveVideoId, orElse.
    rewrite !(oget_not_nullish r) by exact Hn. reflexivity. }
  destruct (truthy (prop r "playlistItemData" ?> "videoId")) eqn:Ev;
    rewrite (Hv _ eq_refl); simpl in H; ok_inv; simpl; auto.
Qed.

Lemma twoRowFields_spec (r : JS) (x : TFields) :
  truthy r = true ->
  twoRowFields h r = Ok x ->
  tBrowseId x = fragmentBrowseId r /\ tVideoId x = twoRowVideoId r.
Proof.
  intros Hr H. pose proof (truthy_not_nullish _ Hr) as Hn.
  unfold twoRowFields in H.
  rewrite !(get_not_nullish r) in H by exact Hn. simpl in H.
  unfold fragmentBrowseId, twoRowVideoId, browseIdOf.
  rewrite !(oget_not_nullish r) by exact Hn.
  ok_inv. simpl. auto.
Qed.

Ltac prefix_facts :=
  repeat match goal with
  | H : ostartsWith _ _ = Ok _ |- _ => apply ostartsWith_Ok in H; symmetry in H
  end.

Lemma twoRowItem_type (r : JS) (x : TFields) (v : JS) :
  twoRowItem h r x = Ok v ->
  prop v "type" =
  JStr (if hasPrefix (tBrowseId x) "MPREb" then "album"
        else if truthy (tVideoId x) then "song"
        else if hasPrefix (tBrowseId x) "UC" then "artist"
        else if hasPrefix (tBrowseId x) "VL" || hasPrefix (tBrowseId x) "RDCLAK"
             then "playlist"
        else "unknown").
Proof.
  unfold twoRowItem, twoRowAlbum, twoRowSong, twoRowArtist, twoRowPlaylist, twoRowUnknown.
  intros H. ok_inv; prefix_facts;
    repeat match goal with
    | H : hasPrefix _ _ = _ |- _ => rewrite H
    | H : truthy _ = _ |- _ => rewrite H
    end; reflexivity.
Qed.

Lemma responsiveItem_type (r : JS) (x : RFields) (v : JS) :
  responsiveItem h r x = Ok v ->
  match
    (if isStr (rPageType x) "MUSIC_PAGE_TYPE_ARTIST" || hasPrefix (rBrowseId x) "UC"
     then Some "artist"
     else if isStr (rPageType x) "MUSIC_PAGE_TYPE_ALBUM" then Some "album"
     else if isStr (rPageType x) "MUSIC_PAGE_TYPE_PLAYLIST" then Some "playlist"
     else if truthy (rVideoId x) || truthy (rTitle x) then Some "song"
     else None)
  with
  | Some t => prop v "type" = JStr t
  | None => v = JNull
  end.
Proof.
  unfold responsiveItem, responsiveAlbum, responsivePlaylist, responsiveSong, responsiveArtist.
  intros H. ok_inv; prefix_facts;
    repeat match goal with
    | H : hasPrefix _ _ = _ |- _ => rewrite H
    | H : isStr _ _ = _ |- _ => rewrite H
    | H : truthy _ || truthy _ = _ |- _ => rewrite H
    end; simpl; reflexivity.
Qed.

Lemma twoRowItem_not_null (r : JS) (x : TFields) :
  twoRowItem h r x <> Ok JNull.
Proof.
  intros H. apply twoRowItem_type in H. simpl in H. discriminate.
Qed.

Lemma responsiveItem_null (r : JS) (x : RFields) :
  responsiveItem h r x = Ok JNull <->
  isStr (rPageType x) "MUSIC_PAGE_TYPE_ARTIST" = false /\
  ostartsWith (rBrowseId x) "UC" = Ok false /\
  isStr (rPageType x) "MUSIC_PAGE_TYPE_ALBUM" = false /\
  isStr (rPageType x) "MUSIC_PAGE_TYPE_PLAYLIST" = false /\
  truthy (rVideoId x) = false /\ truthy (rTitle x) = false.
Proof.
  split.
  - unfold responsiveItem, responsiveAlbum, responsivePlaylist, responsiveSong,
      responsiveArtist.
    intros H. ok_inv; try discriminate.
    match goal with H : _ || _ = false |- _ => apply orb_false_iff in H end.
    tauto.
  - intros (A & B & C & D & E & F). unfold responsiveItem.
    rewrite A, B; simpl. rewrite C, D, E, F. reflexivity.
Qed.

Lemma parseResponsive_total (r : JS) :
  exists v, parseMusicResponsiveListItemRenderer h r = Ok v.
Proof.
  unfold parseMusicResponsiveListItemRenderer.
  destruct (negb (truthy r)); [ eauto | apply catchNull_total ].
Qed.

Lemma parseTwoRow_total (r : JS) :
  exists v, parseMusicTwoRowItemRenderer h r = Ok v.
Proof.
  unfold parseMusicTwoRowItemRenderer.
  destruct (negb (truthy r)); [ eauto | apply catchNull_total ].
Qed.

(** The outcome of each mapper, case by case. *)
Lemma parseTwoRow_cases (r : JS) :
  parseMusicTwoRowItemRenderer h r =
  if truthy r then
    match twoRowFields h r with
    | Ok x => match twoRowItem h r x with Ok v => Ok v | Throw _ => Ok JNull end
    | Throw _ => Ok JNull
    end
  else Ok JNull.
Proof.
  unfold parseMusicTwoRowItemRenderer, twoRowBody.
  destruct (truthy r); simpl; [ | reflexivity ].
  destruct (twoRowFields h r); simpl; reflexivity.
Qed.

Lemma parseResponsive_cases (r : JS) :
  parseMusicResponsiveListItemRenderer h r =
  if truthy r then
    match responsiveFields h r with
    | Ok x => match responsiveItem h r x with Ok v => Ok v | Throw _ => Ok JNull end
    | Throw _ => Ok JNull
    end
  else Ok JNull.
Proof.
  unfold parseMusicResponsiveListItemRenderer, responsiveBody.
  destruct (truthy r); simpl; [ | reflexivity ].
  destruct (responsiveFields h r); simpl; reflexivity.
Qed.

(** C2 (amended).  Each mapper classifies by a fixed first-match-wins list,
    but not the one list of the design.  A two-row fragment is an album when
    its browse identifier has the album prefix, else a song when it carries
    a track identifier, else an artist on the channel prefix, else a playlist
    on one of the two playlist prefixes, else unknown.  A responsive-list
    fragment is an artist on the artist page type or the channel prefix,
    else an album on the album page type, else a playlist on the playlist
    page type, else a song when it has a track identifier or a title, else
    nothing.  Whenever a mapper yields an item, its [type] is the one the
    list gives. *)
Theorem classifier_decision_order (r : JS) :
  (parseMusicTwoRowItemRenderer h r = Ok JNull \/
   exists v, parseMusicTwoRowItemRenderer h r = Ok v /\
             prop v "type" = JStr (twoRowOrder r)) /\
  (parseMusicResponsiveListItemRenderer h r = Ok JNull \/
   exists v t, parseMusicResponsiveListItemRenderer h r = Ok v /\
               responsiveOrder r = Some t /\ prop v "type" = JStr t).
Proof.
  split.
  - rewrite parseTwoRow_cases.
    destruct (truthy r) eqn:Hr; [ | left; reflexivity ].
    destruct (twoRowFields h r) as [x | e] eqn:Hx; [ | left; reflexivity ].
    destruct (twoRowItem h r x) as [v | e] eqn:Hv; [ | left; reflexivity ].
    right. exists v. split; [ reflexivity | ].
    apply twoRowItem_type in Hv.
    destruct (twoRowFields_spec r x Hr Hx) as [Hb Hi].
    rewrite Hb, Hi in Hv. exact Hv.
  - rewrite parseResponsive_cases.
    destruct (truthy r) eqn:Hr; [ | left; reflexivity ].
    destruct (responsiveFields h r) as [x | e] eqn:Hx; [ | left; reflexivity ].
    destruct (responsiveItem h r x) as [v | e] eqn:Hv; [ | left; reflexivity ].
    apply responsiveItem_type in Hv.
    destruct (responsiveFields_spec r x Hr Hx) as (_ & Ht & Hi & Hb & Hp).
    rewrite Ht, Hi, Hb, Hp in Hv. fold (responsiveOrder r) in Hv.
    destruct (responsiveOrder r) as [t |].
    + right. exists v, t. auto.
    + left. rewrite Hv. reflexivity.
Qed.



Lemma filterBoolean_truthy (l : list JS) :
  Forall (fun v => truthy v = true) (filterBoolean l).
Proof.
  unfold filterBoolean. apply Forall_forall. intros v Hv.
  apply filter_In in Hv. tauto.
Qed.

Lemma filterBoolean_length (l : list JS) : length (filterBoolean l) <= length l.
Proof. unfold filterBoolean. apply filter_length_le. Qed.

Lemma mapM_total {A B : Type} (f : A -> Res B) (l : list A) :
  Forall (fun a => exists b, f a = Ok b) l ->
  exists m, mapM f l = Ok m /\ length m = length l.
Proof.
  induction 1 as [| a l [b Hb] _ (m & Hm & Hl)]; simpl.
  - exists []. auto.
  - rewrite Hb; simpl. rewrite Hm; simpl. exists (b :: m). simpl. auto.
Qed.

Lemma filterM_pure {A : Type} (p : A -> Res bool) (q : A -> bool) (l : list A) :
  Forall (fun a => p a = Ok (q a)) l -> filterM p l = Ok (filter q l).
Proof.
  induction 1 as [| a l Ha _ IH]; simpl; [ reflexivity | ].
  rewrite Ha; simpl. rewrite IH; simpl. reflexivity.
Qed.

(** A list of entries, none of them [null], always maps to a list: the
    entries a mapper rejects are dropped. *)
Lemma responsiveList_shorter (l : list JS) :
  Forall (fun c => nullish c = false) l ->
  exists items, responsiveList h (JArr l) = Ok items /\
                length items <= length l /\
                Forall (fun v => truthy v = true) items.
Proof.
  intros Hl. unfold responsiveList, optChain. simpl.
  rewrite (filterM_pure _ (fun c => negb (truthy (prop c "continuationItemRenderer")))).
  2:{ eapply Forall_impl; [ | exact Hl ]. intros c Hc; simpl.
      rewrite get_not_nullish by exact Hc. reflexivity. }
  simpl.
  destruct (mapM_total
              (fun c => r <- get c "musicResponsiveListItemRenderer" ;;
                        parseMusicResponsiveListItemRenderer h r)
              (filter (fun c => negb (truthy (prop c "continuationItemRenderer"))) l))
    as (m & Hm & Hlen).
  { apply Forall_forall. intros c Hc. apply filter_In in Hc. destruct Hc as [Hc _].
    rewrite Forall_forall in Hl. rewrite get_not_nullish by auto. simpl.
    apply parseResponsive_total. }
  rewrite Hm. simpl. eexists. split; [ reflexivity | ]. split.
  - etransitivity; [ apply filterBoolean_length | ]. rewrite Hlen. apply filter_length_le.
  - apply filterBoolean_truthy.
Qed.

Lemma twoRowList_shorter (l : list JS) :
  Forall (fun c => nullish c = false) l ->
  exists items, twoRowList h (JArr l) = Ok items /\
                length items <= length l /\
                Forall (fun v => truthy v = true) items.
Proof.
  intros Hl. unfold twoRowList, optChain, mapTwoRow. simpl.
  destruct (mapM_total
              (fun i => r <- get i "musicTwoRowItemRenderer" ;;
                        parseMusicTwoRowItemRenderer h r) l)
    as (m & Hm & Hlen).
  { eapply Forall_impl; [ | exact Hl ]. intros c Hc; simpl.
    rewrite get_not_nullish by exact Hc. simpl. apply parseTwoRow_total. }
  rewrite Hm. simpl. eexists. split; [ reflexivity | ]. split.
  - etransitivity; [ apply filterBoolean_length | ]. rewrite Hlen. apply le_n.
  - apply filterBoolean_truthy.
Qed.

(** A list with a [null] or [undefined] entry: the read of the entry's
    renderer is the caller's, outside the mapper's [try], and raises. *)
Lemma mapM_raises {A B : Type} (f : A -> Res B) (l : list A) (e : Exn) :
  Forall (fun a => (exists b, f a = Ok b) \/ f a = Throw e) l ->
  Exists (fun a => f a = Throw e) l ->
  mapM f l = Throw e.
Proof.
  induction 1 as [| a l Ha _ IH]; intros Hex; inversion Hex as [x y Hx | x y Hy]; subst;
    simpl.
  - rewrite Hx. reflexivity.
  - destruct Ha as [[b Hb] | Hb]; rewrite Hb; simpl; [ | reflexivity ].
    rewrite (IH Hy). reflexivity.
Qed.

Lemma filterM_raises {A : Type} (p : A -> Res bool) (l : list A) (e : Exn) :
  Forall (fun a => (exists b, p a = Ok b) \/ p a = Throw e) l ->
  Exists (fun a => p a = Throw e) l ->
  filterM p l = Throw e.
Proof.
  induction 1 as [| a l Ha _ IH]; intros Hex; inversion Hex as [x y Hx | x y Hy]; subst;
    simpl.
  - rewrite Hx. reflexivity.
  - destruct Ha as [[b Hb] | Hb]; rewrite Hb; simpl; [ | reflexivity ].
    rewrite (IH Hy). reflexivity.
Qed.

Lemma twoRowList_raises (l : list JS) :
  Exists (fun c => nullish c = true) l -> twoRowList h (JArr l) = Throw TypeError.
Proof.
  intros Hex. unfold twoRowList, optChain, mapTwoRow. simpl.
  rewrite (mapM_raises _ l TypeError); [ reflexivity | | ].
  - apply Forall_forall. intros c _. unfold get.
    destruct (nullish c); simpl; [ right; reflexivity | left; apply parseTwoRow_total ].
  - eapply Exists_impl; [ | exact Hex ]. intros c Hc; simpl.
    unfold get. rewrite Hc. reflexivity.
Qed.

Lemma responsiveList_raises (l : list JS) :
  Exists (fun c => nullish c = true) l -> responsiveList h (JArr l) = Throw TypeError.
Proof.
  intros Hex. unfold responsiveList, optChain. simpl.
  rewrite (filterM_raises _ l TypeError); [ reflexivity | | ].
  - apply Forall_forall. intros c _. unfold get.
    destruct (nullish c); simpl; [ right; reflexivity | left; eauto ].
  - eapply Exists_impl; [ | exact Hex ]. intros c Hc; simpl.
    unfold get. rewrite Hc. reflexivity.
Qed.

(** The grid page and the playlist-shelf page of [artistItemsContinuation]
    on a container that is an array. *)
Lemma gridPage_entries (gc : JS) (l : list JS) :
  truthy gc = true ->
  prop gc "items" = JArr l ->
  (Forall (fun c => nullish c = false) l ->
   exists items token,
     gridPage h gc = Ok (itemsResult items token) /\
     length items <= length l /\
     Forall (fun v => truthy v = true) items) /\
  (Exists (fun c => nullish c = true) l -> gridPage h gc = Throw TypeError).
Proof.
  intros Hgc Hitems. pose proof (truthy_not_nullish _ Hgc) as Hn.
  unfold gridPage. rewrite !(get_not_nullish _ _ Hn), Hitems. cbn [bind].
  split.
  - intros Hl. destruct (twoRowList_shorter l Hl) as (items & -> & Hlen & Ht).
    cbn [bind]. eauto.
  - intros Hex. rewrite (twoRowList_raises l Hex). reflexivity.
Qed.

Lemma shelfPage_entries (mpc : JS) (l : list JS) :
  truthy mpc = true ->
  prop mpc "contents" = JArr l ->
  (Forall (fun c => nullish c = false) l ->
   exists items token,
     shelfPage h mpc = Ok (itemsResult items token) /\
     length items <= length l /\
     Forall (fun v => truthy v = true) items) /\
  (Exists (fun c => nullish c = true) l -> shelfPage h mpc = Throw TypeError).
Proof.
  intros Hmpc Hcontents. pose proof (truthy_not_nullish _ Hmpc) as Hn.
  unfold shelfPage. rewrite !(get_not_nullish _ _ Hn), Hcontents. cbn [bind].
  split.
  - intros Hl. destruct (responsiveList_shorter l Hl) as (items & -> & Hlen & Ht).
    cbn [bind]. eauto.
  - intros Hex. rewrite (responsiveList_raises l Hex). reflexivity.
Qed.

(** C5 (amended).  The responsive-list and the two-row mappers never throw.
    The two-row mapper returns [null] exactly when the fragment is missing or
    a lookup inside it fails; a fragment with no identifier and no title
    maps to the unknown item.  The responsive-list mapper returns [null]
    exactly when the fragment is missing, a lookup inside it fails, or its
    decision list reaches the end (no artist, album or playlist mark, no
    track identifier and no title).  The caller reads the fragment off each
    entry of the page's container and drops every [null]: when the
    transport answers [artistItemsContinuation] with a grid page or a
    playlist-shelf page whose container is an array with no [null] or
    [undefined] entry, whatever the fragments of the entries hold, the call
    returns a list of items, none of them [null], that is at most as long
    as the container.  The read of the fragment is outside the mapper's
    [try]: with a [null] or [undefined] entry the call raises a
    [TypeError]. *)
Theorem item_mappers_never_throw :
  (forall r, exists v, parseMusicResponsiveListItemRenderer h r = Ok v) /\
  (forall r, exists v, parseMusicTwoRowItemRenderer h r = Ok v) /\
  (forall r, parseMusicTwoRowItemRenderer h r = Ok JNull <->
             truthy r = false \/ exists e, twoRowBody h r = Throw e) /\
  (forall r, parseMusicResponsiveListItemRenderer h r = Ok JNull <->
             truthy r = false \/
             (exists e, responsiveBody h r = Throw e) \/
             (responsiveOrder r = None /\ exists v, responsiveBody h r = Ok v)) /\
  (forall (tr : Transport) continuation w response l,
     tr w (BrowseWithCtoken continuation) = Ok response ->
     nullish response = false ->
     truthy (prop response "continuationContents" ?> "gridContinuation") = true ->
     prop (prop response "continuationContents" ?> "gridContinuation") "items" = JArr l ->
     (Forall (fun c => nullish c = false) l ->
      exists items token,
        fst (artistItemsContinuation h tr continuation w) = Ok (itemsResult items token) /\
        length items <= length l /\
        Forall (fun v => truthy v = true) items) /\
     (Exists (fun c => nullish c = true) l ->
      fst (artistItemsContinuation h tr continuation w) = Throw TypeError)) /\
  (forall (tr : Transport) continuation w response l,
     tr w (BrowseWithCtoken continuation) = Ok response ->
     nullish response = false ->
     truthy (prop response "continuationContents" ?> "gridContinuation") = false ->
     truthy (prop response "continuationContents" ?> "musicPlaylistShelfContinuation")
       = true ->
     prop (prop response "continuationContents" ?> "musicPlaylistShelfContinuation")
       "contents" = JArr l ->
     (Forall (fun c => nullish c = false) l ->
      exists items token,
        fst (artistItemsContinuation h tr continuation w) = Ok (itemsResult items token) /\
        length items <= length l /\
        Forall (fun v => truthy v = true) items) /\
     (Exists (fun c => nullish c = true) l ->
      fst (artistItemsContinuation h tr continuation w) = Throw TypeError)).
Proof.
  split; [ exact parseResponsive_total | ].
  split; [ exact parseTwoRow_total | ].
  split; [ | split; [ | split ] ].
  - intros r. unfold parseMusicTwoRowItemRenderer, twoRowBody.
    destruct (truthy r) eqn:Hr; simpl; [ | split; auto ].
    destruct (twoRowFields h r) as [x | e]; simpl.
    + destruct (twoRowItem h r x) as [v | e] eqn:Hv; simpl.
      * split.
        -- intros H. inversion H; subst v. exfalso. exact (twoRowItem_not_null r x Hv).
        -- intros [H | [e H]]; discriminate H.
      * split; eauto.
    + split; eauto.
  - intros r. unfold parseMusicResponsiveListItemRenderer, responsiveBody.
    destruct (truthy r) eqn:Hr; simpl; [ | split; auto ].
    destruct (responsiveFields h r) as [x | e] eqn:Hx; simpl.
    + destruct (responsiveItem h r x) as [v | e] eqn:Hv; simpl.
      * pose proof (responsiveItem_type r x v Hv) as Ht.
        destruct (responsiveFields_spec r x Hr Hx) as (_ & E1 & E2 & E3 & E4).
        rewrite E1, E2, E3, E4 in Ht. fold (responsiveOrder r) in Ht.
        split.
        -- intros H. inversion H; subst v. right; right.
           destruct (responsiveOrder r); [ discriminate Ht | eauto ].
        -- intros [H | [[e H] | [H _]]]; try discriminate H.
           rewrite H in Ht. rewrite Ht. reflexivity.
      * split; eauto.
    + split; eauto.
  - intros tr continuation w response l Htr Hn Hg Hitems.
    unfold artistItemsContinuation, send. cbn [fst]. rewrite Htr. cbn [bind].
    unfold artistItemsPage.
    rewrite (get_not_nullish _ _ Hn). cbn [bind]. rewrite Hg.
    exact (gridPage_entries _ l Hg Hitems).
  - intros tr continuation w response l Htr Hn Hg Hs Hcontents.
    unfold artistItemsContinuation, send. cbn [fst]. rewrite Htr. cbn [bind].
    unfold artistItemsPage.
    rewrite (get_not_nullish _ _ Hn). cbn [bind]. rewrite Hg, Hs.
    exact (shelfPage_entries _ l Hs Hcontents).
Qed.

(** *** The duration of a song *)






End ItemMappers.

(** ** The playlist page *)

Section PlaylistFacts.

Variable h : Host.

Lemma findM_total (p : JS -> Res bool) (l : list JS) :
  Forall (fun c => exists b, p c = Ok b) l -> exists v, findM p l = Ok v.
Proof.
  induction 1 as [| c l [b Hb] _ [v IH]]; simpl; [ eauto | ].
  rewrite Hb; simpl. destruct b; eauto.
Qed.

(** *** The reads of the fallback on a well-formed row *)

Lemma flatMapM_columnRuns (cols : list JS) :
  forallb (fun col => negb (nullish col)) cols = true ->
  flatMapM (fun col => c <- get col "musicResponsiveListItemFlexColumnRenderer" ;;
                       Ok (orElse (c ?> "text" ?> "runs") (JArr []))) cols =
  Ok (flat_map columnRuns cols).
Proof.
  induction cols as [| col cols IH]; cbn [forallb flatMapM flat_map]; [ reflexivity | ].
  intros H. apply andb_true_iff in H. destruct H as [Hc Hcols].
  apply negb_true_iff in Hc.
  rewrite (get_not_nullish _ _ Hc). cbn [bind]. rewrite (IH Hcols). cbn [bind].
  unfold columnRuns. rewrite (oget_not_nullish col) by exact Hc.
  unfold orElse.
  destruct (prop col "musicResponsiveListItemFlexColumnRenderer" ?> "text" ?> "runs")
    as [ | | b | z | t | l | f ];
    try reflexivity.
  - destruct b; reflexivity.
  - destruct (truthy (JNum z)); reflexivity.
  - destruct (truthy (JStr t)); reflexivity.
Qed.

Lemma allRunsOf_rowRuns (row : JS) :
  match row ?> "flexColumns" with
  | JArr cols => forallb (fun col => negb (nullish col)) cols
  | v => nullish v
  end = true ->
  allRunsOf row = Ok (rowRuns row).
Proof.
  unfold allRunsOf, rowRuns, optChain.
  destruct (row ?> "flexColumns") as [ | | b | z | t | cols | f ]; intros H;
    try discriminate H; try reflexivity.
  cbn [nullish arrayOf bind]. rewrite (flatMapM_columnRuns cols H). reflexivity.
Qed.

Lemma findM_linked (p : string) (runs : list JS) :
  forallb (fun run => negb (nullish run) && stringOrAbsent (fragmentBrowseId run)) runs
    = true ->
  findM (runHasPrefix p) runs =
  Ok (match find (fun run => hasPrefix (fragmentBrowseId run) p) runs with
      | Some run => run
      | None => JUndef
      end).
Proof.
  induction runs as [| run runs IH]; cbn [forallb findM find]; [ reflexivity | ].
  intros H. apply andb_true_iff in H. destruct H as [H Hruns].
  apply andb_true_iff in H. destruct H as [Hn Hs]. apply negb_true_iff in Hn.
  assert (Hrun : runHasPrefix p run = Ok (hasPrefix (fragmentBrowseId run) p)).
  { unfold runHasPrefix, fragmentBrowseId, browseIdOf in *.
    rewrite (get_not_nullish _ _ Hn). cbn [bind].
    rewrite (oget_not_nullish run) in Hs |- * by exact Hn.
    destruct (prop run "navigationEndpoint" ?> "browseEndpoint" ?> "browseId");
      try discriminate Hs; reflexivity. }
  rewrite Hrun. cbn [bind].
  destruct (hasPrefix (fragmentBrowseId run) p); [ reflexivity | exact (IH Hruns) ].
Qed.

Lemma find_linked_some (runs : list JS) (run : JS) :
  find linksToChannel runs = Some run -> linksToChannel run = true.
Proof. intros H. apply find_some in H. tauto. Qed.

(** A run that links to a channel is an object, and the strict reads of
    its name and identifier go through. *)
Lemma nameAndIdStrict_linked (run : JS) :
  linksToChannel run = true ->
  truthy run = true /\
  nameAndIdStrict run = Ok (JObj [("name", prop run "text"); ("id", fragmentBrowseId run)]).
Proof.
  unfold linksToChannel, fragmentBrowseId, nameAndIdStrict. intros H.
  destruct (nullish run) eqn:Hn.
  { unfold oget at 3 in H. rewrite Hn in H. discriminate H. }
  rewrite (oget_not_nullish run) in H |- * by exact Hn.
  rewrite !(get_not_nullish run) by exact Hn. cbn [bind].
  destruct (nullish (prop run "navigationEndpoint")) eqn:Hnav.
  { unfold oget at 2 in H. rewrite Hnav in H. discriminate H. }
  rewrite (oget_not_nullish (prop run "navigationEndpoint")) in H |- * by exact Hnav.
  rewrite (get_not_nullish (prop run "navigationEndpoint")) by exact Hnav. cbn [bind].
  destruct (nullish (prop (prop run "navigationEndpoint") "browseEndpoint")) eqn:Hbe.
  { unfold oget in H. rewrite Hbe in H. discriminate H. }
  rewrite (oget_not_nullish _ _ Hbe) in H |- *.
  rewrite (get_not_nullish _ _ Hbe). cbn [bind].
  split; [ | reflexivity ].
  destruct run; try reflexivity; try discriminate Hn; discriminate H.
Qed.

(** The last thumbnail candidate, read the two ways the code reads it:
    by [getThumbnailUrl] and by [slice(-1)]. *)
Lemma thumbnails_agree (tr : JS) :
  match tr ?> "thumbnail" ?> "thumbnails" with
  | JArr _ | JStr _ | JUndef | JNull => true
  | _ => false
  end = true ->
  exists s, optChain (tr ?> "thumbnail" ?> "thumbnails") sliceLast = Ok s /\
            (truthy (getThumbnailUrl h tr) = true ->
             getThumbnailUrl h tr = s ?@ 0 ?> "url").
Proof.
  unfold getThumbnailUrl, optChain.
  destruct (tr ?> "thumbnail" ?> "thumbnails") as [ | | b | z | t | l | f ]; intros Hwf;
    try discriminate Hwf.
  - exists JUndef. split; [ reflexivity | ]. intros H. discriminate H.
  - exists JUndef. split; [ reflexivity | ]. intros H. discriminate H.
  - exists (JStr (strLast t)). split; [ reflexivity | ].
    destruct (negb (truthy (JStr t)) || negb (truthy (prop (JStr t) "length")));
      [ intros H; discriminate H | ].
    cbn [lastIndex]. destruct (isEmpty t); intros H; discriminate H.
  - destruct l as [| x l].
    + exists (JArr []). split; [ reflexivity | ]. intros H. discriminate H.
    + exists (JArr [last (x :: l) JUndef]). split; [ reflexivity | ].
      destruct (negb (truthy (JArr (x :: l))) || negb (truthy (prop (JArr (x :: l)) "length")));
        [ intros H; discriminate H | ].
      cbn [lastIndex]. change (JArr [last (x :: l) JUndef] ?@ 0) with (last (x :: l) JUndef).
      unfold orElse. destruct (truthy (last (x :: l) JUndef ?> "url"));
        [ reflexivity | intros H; discriminate H ].
Qed.

Lemma responsiveItem_thumbnail (r : JS) (x : RFields) (v : JS) :
  responsiveItem h r x = Ok v -> v <> JNull -> prop v "thumbnail" = rThumbnail x.
Proof.
  unfold responsiveItem, responsiveAlbum, responsivePlaylist, responsiveSong, responsiveArtist.
  intros H Hv. ok_inv; try reflexivity. congruence.
Qed.

(** The thumbnail of a mapped row: what [getThumbnailUrl] finds and, when
    it finds nothing, what [slice(-1)] gives. *)
Lemma responsiveFields_thumbnail (r : JS) (x : RFields) :
  truthy r = true ->
  responsiveFields h r = Ok x ->
  (truthy (getThumbnailUrl h (r ?> "thumbnail" ?> "musicThumbnailRenderer")) = true /\
   rThumbnail x = getThumbnailUrl h (r ?> "thumbnail" ?> "musicThumbnailRenderer")) \/
  (truthy (getThumbnailUrl h (r ?> "thumbnail" ?> "musicThumbnailRenderer")) = false /\
   exists s,
     optChain (r ?> "thumbnail" ?> "musicThumbnailRenderer" ?> "thumbnail" ?> "thumbnails")
       sliceLast = Ok s /\
     rThumbnail x = s ?@ 0 ?> "url").
Proof.
  intros Hr H. pose proof (truthy_not_nullish _ Hr) as Hn.
  rewrite !(oget_not_nullish r) by exact Hn.
  unfold responsiveFields in H.
  rewrite !(get_not_nullish r) in H by exact Hn. cbn [bind] in H.
  destruct (truthy (getThumbnailUrl h (prop r "thumbnail" ?> "musicThumbnailRenderer")))
    eqn:Ht.
  - left. split; [ reflexivity | ]. ok_inv; reflexivity.
  - right. split; [ reflexivity | ].
    destruct (optChain (prop r "thumbnail" ?> "musicThumbnailRenderer"
                          ?> "thumbnail" ?> "thumbnails") sliceLast) as [s | e] eqn:Hs.
    + exists s. split; [ reflexivity | ]. ok_inv; reflexivity.
    + exfalso. ok_inv.
Qed.

Lemma typed_is_truthy (v : JS) (t : string) : prop v "type" = JStr t -> truthy v = true.
Proof.
  destruct v; simpl; intros H; try discriminate H; try reflexivity.
Qed.

(** C7 (amended).  A playlist page without a header block, whose shelf
    starts with a well-formed song row, maps to a page with a playlist
    descriptor read from that row.  The author is the first run, over all
    the flex columns of the row in order, that links to a channel (its text
    and its browse identifier), or [null] when no run does; the thumbnail is
    the thumbnail of the row's own song, the first song of the page, or
    [null] when that song has none.  The other entries of the shelf are any
    values but [null]. *)
Theorem headerless_playlist_descriptor
  (response playlistId e0 fs s0 : JS) (rest : list JS) :
  nullish response = false ->
  truthy (playlistHeader (prop response "contents" ?> "twoColumnBrowseResultsRenderer")) = false ->
  playlistShelfOf (prop response "contents" ?> "twoColumnBrowseResultsRenderer")
    ?> "contents" = JArr (e0 :: rest) ->
  Forall (fun c => nullish c = false) (e0 :: rest) ->
  truthy (e0 ?> "continuationItemRenderer") = false ->
  e0 ?> "musicResponsiveListItemRenderer" = fs ->
  wellFormedRow fs = true ->
  parseMusicResponsiveListItemRenderer h fs = Ok s0 ->
  prop s0 "type" = JStr "song" ->
  exists title songs' songsContinuation continuation,
    parsePlaylistPage h response playlistId =
    Ok (pageResult
          (JObj [("id", playlistId); ("title", title);
                 ("author", channelAuthor fs);
                 ("songCountText", JStr (natKey (S (length songs')) ++ " songs"));
                 ("thumbnail", orElse (prop s0 "thumbnail") JNull);
                 ("isEditable", JBool false)])
          (s0 :: songs') songsContinuation continuation).
Proof.
  intros Hresp Hhead Hshelf Hent He0 Hfs Hwf Hparse Htype.
  pose proof (typed_is_truthy _ _ Htype) as Hs0.
  inversion Hent as [| ? ? Hn0 Hrest]; subst.
  set (fs := e0 ?> "musicResponsiveListItemRenderer") in *.
  unfold wellFormedRow in Hwf.
  apply andb_true_iff in Hwf. destruct Hwf as [Hwf Hthumbs].
  apply andb_true_iff in Hwf. destruct Hwf as [Hcols Hruns].
  unfold parsePlaylistPage. rewrite (get_not_nullish _ _ Hresp). cbn [bind].
  set (twoCol := prop response "contents" ?> "twoColumnBrowseResultsRenderer") in *.
  set (shelf := playlistShelfOf twoCol) in *.
  (* the songs of the shelf *)
  assert (Hsongs : exists songs', playlistSongs h shelf = Ok (s0 :: songs')).
  { unfold playlistSongs, getItems. rewrite Hshelf. cbn [truthy negb arrayOf bind].
    rewrite (filterM_pure _ (fun c => negb (truthy (prop c "continuationItemRenderer")))).
    2:{ eapply Forall_impl; [ | exact Hent ]. intros c Hc; cbn beta.
        rewrite get_not_nullish by exact Hc. reflexivity. }
    cbn [bind filter]. rewrite <- (oget_not_nullish e0) by exact Hn0.
    rewrite He0. cbn [negb mapM].
    rewrite (get_not_nullish e0) by exact Hn0. cbn [bind].
    rewrite <- (oget_not_nullish e0) by exact Hn0. fold fs. rewrite Hparse. cbn [bind].
    destruct (mapM_total
                (fun c => r <- get c "musicResponsiveListItemRenderer" ;;
                          parseMusicResponsiveListItemRenderer h r)
                (filter (fun c => negb (truthy (prop c "continuationItemRenderer"))) rest))
      as (m & Hm & _).
    { apply Forall_forall. intros c Hc. apply filter_In in Hc. destruct Hc as [Hc _].
      rewrite Forall_forall in Hrest. rewrite get_not_nullish by auto. cbn [bind].
      apply parseResponsive_total. }
    rewrite Hm. cbn [bind]. unfold filterBoolean. cbn [filter]. rewrite Hs0.
    eexists. reflexivity. }
  destruct Hsongs as (songs' & Hsongs). rewrite Hsongs. cbn [bind].
  (* the continuation of the songs *)
  assert (Hcont : exists sc,
            (if truthy (getContinuation (shelf ?> "continuations"))
             then Ok (getContinuation (shelf ?> "continuations"))
             else getItemsContinuation (shelf ?> "contents")) = Ok sc).
  { destruct (truthy (getContinuation (shelf ?> "continuations"))); [ eauto | ].
    unfold getItemsContinuation. rewrite Hshelf. cbn [truthy negb arrayOf bind].
    destruct (findM_total
                (fun c => r <- get c "continuationItemRenderer" ;; Ok (truthy r))
                (e0 :: rest)) as (v & Hv).
    { eapply Forall_impl; [ | exact Hent ]. intros c Hc; cbn beta.
      rewrite get_not_nullish by exact Hc. cbn [bind]. eauto. }
    rewrite Hv. cbn [bind]. eauto. }
  destruct Hcont as (sc & Hsc). rewrite Hsc. cbn [bind].
  rewrite Hhead. cbn [length Nat.ltb Nat.leb orb].
  (* the descriptor *)
  unfold fallbackPlaylist.
  assert (Hfirst : firstSongOf shelf = fs).
  { unfold firstSongOf. rewrite Hshelf. reflexivity. }
  rewrite Hfirst.
  destruct (thumbnails_agree (fs ?> "thumbnail" ?> "musicThumbnailRenderer") Hthumbs)
    as (s & Hs & Hagree).
  rewrite Hs. cbn [bind].
  rewrite (allRunsOf_rowRuns fs Hcols). cbn [bind].
  rewrite (get_not_nullish _ _ Hresp). cbn [bind].
  rewrite !(findM_linked _ _ Hruns). cbn [bind].
  change (fun run : JS => hasPrefix (fragmentBrowseId run) "UC") with linksToChannel.
  assert (Hauthor :
            (if truthy (match find linksToChannel (rowRuns fs) with
                        | Some run => run
                        | None => JUndef
                        end)
             then nameAndIdStrict (match find linksToChannel (rowRuns fs) with
                                   | Some run => run
                                   | None => JUndef
                                   end)
             else Ok JNull) = Ok (channelAuthor fs)).
  { unfold channelAuthor.
    destruct (find linksToChannel (rowRuns fs)) as [run |] eqn:Hf; [ | reflexivity ].
    destruct (nameAndIdStrict_linked run (find_linked_some _ _ Hf)) as [-> ->].
    reflexivity. }
  rewrite Hauthor. cbn [bind].
  (* the thumbnail is the one of the first song *)
  assert (Hthumb : orElse (s ?@ 0 ?> "url") JNull = orElse (prop s0 "thumbnail") JNull).
  { unfold parseMusicResponsiveListItemRenderer in Hparse.
    destruct (truthy fs) eqn:Hfst; cbn [negb] in Hparse;
      [ | inversion Hparse; subst s0; discriminate Htype ].
    unfold responsiveBody in Hparse.
    destruct (responsiveFields h fs) as [x | e] eqn:Hx; cbn [bind catchNull] in Hparse;
      [ | inversion Hparse; subst s0; discriminate Htype ].
    destruct (responsiveItem h fs x) as [v | e] eqn:Hi;
      [ | inversion Hparse; subst s0; discriminate Htype ].
    inversion Hparse; subst v.
    rewrite (responsiveItem_thumbnail fs x s0 Hi) by (intros ->; discriminate Htype).
    destruct (responsiveFields_thumbnail fs x Hfst Hx) as [[Ht ->] | [_ (s' & Hs' & ->)]].
    - rewrite (Hagree Ht). reflexivity.
    - rewrite Hs in Hs'. inversion Hs'. reflexivity. }
  rewrite Hthumb.
  eexists. exists songs', sc. eexists. reflexivity.
Qed.

End PlaylistFacts.

(** ** The client *)

Section ClientFacts.

Variable h : Host.
Variable tr : Transport.

Lemma app_one_neq {A : Type} (l : list A) (x : A) : l ++ [x] <> l.
Proof.
  intros H. apply (f_equal (@length A)) in H.
  rewrite length_app in H. simpl in H. lia.
Qed.

(** C9.  [queue] raises, and sends nothing, exactly when [videoIds] is an
    array of more than 1000 entries; for [null] and for every array of at
    most 1000 entries the get-queue request is sent. *)
Theorem queue_size_guard (videoIds : option (list JS)) (playlistId : JS) (w : World) :
  (forall ids, videoIds = Some ids -> 1000 < length ids ->
     queue tr videoIds playlistId w =
     (Throw (JsError "Max queue size is 1000"), w)) /\
  (videoIds = None \/ (exists ids, videoIds = Some ids /\ length ids <= 1000) ->
     queue tr videoIds playlistId w =
     (response <- tr w (GetQueue (arrayOrNull videoIds) playlistId) ;; parseQueue response,
      {| innerTube := innerTube w;
         sent := sent w ++ [{| request := GetQueue (arrayOrNull videoIds) playlistId;
                               sentVisitorData := visitorData (innerTube w) |}] |})) /\
  (sent (snd (queue tr videoIds playlistId w)) = sent w <->
   exists ids, videoIds = Some ids /\ 1000 < length ids).
Proof.
  assert (Big : forall ids, videoIds = Some ids -> 1000 < length ids ->
                tooMany videoIds = true).
  { intros ids -> Hl. unfold tooMany, MAX_GET_QUEUE_SIZE. apply Nat.ltb_lt, Hl. }
  assert (Small : videoIds = None \/ (exists ids, videoIds = Some ids /\ length ids <= 1000) ->
                  tooMany videoIds = false).
  { intros [-> | (ids & -> & Hl)]; [ reflexivity | ].
    unfold tooMany, MAX_GET_QUEUE_SIZE. apply Nat.ltb_ge, Hl. }
  split; [ | split ].
  - intros ids E Hl. unfold queue. rewrite (Big ids E Hl). reflexivity.
  - intros Hs. unfold queue, send. rewrite (Small Hs). reflexivity.
  - unfold queue, send. split.
    + intros Hsent. destruct videoIds as [ids |].
      * exists ids. split; [ reflexivity | ].
        destruct (Nat.ltb_spec 1000 (length ids)) as [Hl | Hl]; [ exact Hl | ].
        rewrite Small in Hsent by (right; exists ids; auto).
        simpl in Hsent. exfalso. exact (app_one_neq _ _ Hsent).
      * simpl in Hsent. exfalso. exact (app_one_neq _ _ Hsent).
    + intros (ids & E & Hl). rewrite (Big ids E Hl). reflexivity.
Qed.

Lemma setVisitorData_same (w : World) (sentLog : list Sent) :
  setVisitorData (visitorData (innerTube w))
    {| innerTube := innerTube (setVisitorData (visitorData (innerTube w)) w);
       sent := sentLog |} =
  {| innerTube := innerTube w; sent := sentLog |}.
Proof. destruct w as [[v d c] s]. reflexivity. Qed.

(** C10.  Whatever the transport answers and whether the call returns or
    raises, [artistAlbumsContinuation] leaves the client's session fields,
    the visitor identifier among them, as they were before the call; the one
    resume request it sends is built with the supplied visitor identifier
    when one is supplied, and with the stored one otherwise. *)
Theorem artistAlbumsContinuation_restores_visitorData
  (continuation suppliedVisitorData : JS) (w : World) :
  innerTube (snd (artistAlbumsContinuation h tr continuation suppliedVisitorData w)) =
  innerTube w /\
  visitorData (innerTube (snd (artistAlbumsContinuation h tr continuation
                                 suppliedVisitorData w))) =
  visitorData (innerTube w) /\
  sent (snd (artistAlbumsContinuation h tr continuation suppliedVisitorData w)) =
  sent w ++ [{| request := BrowseWithCtoken continuation;
                sentVisitorData := if truthy suppliedVisitorData
                                   then suppliedVisitorData
                                   else visitorData (innerTube w) |}] /\
  fst (artistAlbumsContinuation h tr continuation suppliedVisitorData w) =
  (response <- tr (if truthy suppliedVisitorData
                   then setVisitorData suppliedVisitorData w else w)
                  (BrowseWithCtoken continuation) ;;
   artistAlbumsPage h response suppliedVisitorData).
Proof.
  unfold artistAlbumsContinuation, tryFinally, send.
  destruct w as [[v d c] s].
  destruct (truthy suppliedVisitorData); simpl; auto.
Qed.

(** C6 (amended).  The resumed response is probed for the grid
    continuation first, then for the playlist-shelf continuation, then for
    the section-list continuation, and the append-actions fallback comes
    last; the first shape that is present gives the whole result, so two
    responses with the same grid continuation map to the same page whatever
    else they carry.  Inside a section list an item section is unwrapped by
    one level: its contents are read as sections. *)
Theorem continuation_shape_precedence (response : JS) :
  nullish response = false ->
  (truthy (prop response "continuationContents" ?> "gridContinuation") = true ->
   artistItemsPage h response =
   gridPage h (prop response "continuationContents" ?> "gridContinuation")) /\
  (truthy (prop response "continuationContents" ?> "gridContinuation") = false ->
   truthy (prop response "continuationContents" ?> "musicPlaylistShelfContinuation") = true ->
   artistItemsPage h response =
   shelfPage h (prop response "continuationContents" ?> "musicPlaylistShelfContinuation")) /\
  (truthy (prop response "continuationContents" ?> "gridContinuation") = false ->
   truthy (prop response "continuationContents" ?> "musicPlaylistShelfContinuation") = false ->
   truthy (prop response "continuationContents" ?> "sectionListContinuation") = true ->
   artistItemsPage h response =
   sectionListPage h (prop response "continuationContents" ?> "sectionListContinuation")) /\
  (truthy (prop response "continuationContents" ?> "gridContinuation") = false ->
   truthy (prop response "continuationContents" ?> "musicPlaylistShelfContinuation") = false ->
   truthy (prop response "continuationContents" ?> "sectionListContinuation") = false ->
   artistItemsPage h response = appendPage h response) /\
  (forall acc inner,
     sectionStep h acc (JObj [("itemSectionRenderer", JObj [("contents", JArr inner)])]) =
     foldM (parseSectionContent h) inner acc) /\
  (forall other,
     nullish other = false ->
     truthy (prop response "continuationContents" ?> "gridContinuation") = true ->
     prop other "continuationContents" ?> "gridContinuation" =
     prop response "continuationContents" ?> "gridContinuation" ->
     artistItemsPage h other = artistItemsPage h response).
Proof.
  intros Hn. unfold artistItemsPage. rewrite (get_not_nullish _ _ Hn). simpl.
  repeat split.
  - intros ->. reflexivity.
  - intros -> ->. reflexivity.
  - intros -> -> ->. reflexivity.
  - intros -> -> ->. reflexivity.
  - intros other Ho Ht He. rewrite (get_not_nullish _ _ Ho). simpl.
    rewrite He, Ht. reflexivity.
Qed.

(** *** albumSongs *)

Lemma world_eta (w : World) : {| innerTube := innerTube w; sent := sent w ++ [] |} = w.
Proof. destruct w as [i s]. simpl. rewrite app_nil_r. reflexivity. Qed.

(** The loop from any state: it comes to an end within the calls that are
    left, and asks only for tokens it has not asked for before. *)
Lemma albumSongsLoop_bounded (n : nat) :
  forall (st : Loop) (w : World),
    maxRequests - requestCount st <= n ->
    exists res tokens,
      (forall fuel, n < fuel ->
         albumSongsLoop h tr fuel st w =
         Some (res, {| innerTube := innerTube w;
                      sent := sent w ++ map (fun c => sentWith w (resumeRequest c)) tokens |})) /\
      length tokens <= maxRequests - requestCount st /\
      freshFrom (seenContinuations st) tokens = true.
Proof.
  induction n as [| n IH]; intros st w Hn.
  - exists (Ok (songs st)), []. split; [ | split; [ apply Nat.le_0_l | reflexivity ] ].
    intros [| fuel] Hf; [ lia | ]. simpl. unfold albumSongsStep.
    replace (requestCount st <? maxRequests)%nat with false
      by (symmetry; apply Nat.ltb_ge; lia).
    rewrite andb_false_r. rewrite world_eta. reflexivity.
  - destruct (truthy (continuation st) && (requestCount st <? maxRequests)%nat) eqn:Hc.
    + apply andb_true_iff in Hc. destruct Hc as [Ht Hlt]. apply Nat.ltb_lt in Hlt.
      destruct (setHas (seenContinuations st) (continuation st)) eqn:Hs.
      * exists (Ok (songs st)), []. split; [ | split; [ apply Nat.le_0_l | reflexivity ] ].
        intros [| fuel] Hf; [ lia | ]. simpl. unfold albumSongsStep.
        rewrite Ht, (proj2 (Nat.ltb_lt _ _) Hlt), Hs. simpl.
        rewrite world_eta. reflexivity.
      * destruct (response <- tr w (Browse JNull JNull (continuation st) false) ;;
                  resumedPage h response) as [[found next] | e] eqn:Hr.
        -- destruct (IH {| songs := songs st ++ found;
                           continuation := next;
                           seenContinuations := continuation st :: seenContinuations st;
                           requestCount := S (requestCount st) |}
                        {| innerTube := innerTube w;
                           sent := sent w ++ [sentWith w (resumeRequest (continuation st))] |})
             as (res & tokens & Hrun & Hlen & Hfresh).
           { cbn [requestCount]. lia. }
           exists res, (continuation st :: tokens). split; [ | split ].
           ++ intros [| fuel] Hf; [ lia | ]. simpl. unfold albumSongsStep, send.
              rewrite Ht, (proj2 (Nat.ltb_lt _ _) Hlt), Hs. simpl. rewrite Hr.
              rewrite Hrun by lia. simpl. rewrite <- app_assoc. reflexivity.
           ++ cbn [requestCount length] in Hlen |- *. lia.
           ++ cbn [seenContinuations freshFrom] in Hfresh |- *.
              rewrite Hs, Hfresh. reflexivity.
        -- exists (Throw e), [continuation st]. split; [ | split ].
           ++ intros [| fuel] Hf; [ lia | ]. simpl. unfold albumSongsStep, send.
              rewrite Ht, (proj2 (Nat.ltb_lt _ _) Hlt), Hs. simpl. rewrite Hr.
              reflexivity.
           ++ cbn [length]. lia.
           ++ cbn [freshFrom]. rewrite Hs. reflexivity.
    + exists (Ok (songs st)), []. split; [ | split; [ apply Nat.le_0_l | reflexivity ] ].
      intros [| fuel] Hf; [ lia | ]. simpl. unfold albumSongsStep.
      rewrite Hc. rewrite world_eta. reflexivity.
Qed.

Lemma albumSongs_bounded (playlistId : string) (w : World) :
  exists res tokens,
    (forall fuel, maxRequests < fuel ->
       albumSongs h tr fuel playlistId w = Some (res, afterRun w playlistId tokens)) /\
    length tokens <= maxRequests /\
    freshFrom [] tokens = true.
Proof.
  unfold albumSongs, send, afterRun.
  destruct (response <- tr w (Browse (JStr ("VL" ++ playlistId)) JNull JNull false) ;;
            parseAlbumSongs h response) as [[first token] | e] eqn:Hp.
  - destruct (albumSongsLoop_bounded maxRequests
                {| songs := first; continuation := token;
                   seenContinuations := []; requestCount := 0 |}
                {| innerTube := innerTube w;
                   sent := sent w ++ [sentWith w (firstRequest playlistId)] |})
      as (res & tokens & Hrun & Hlen & Hfresh).
    { cbn [requestCount]. lia. }
    exists res, tokens. split; [ | split ].
    + intros fuel Hf. fold (firstRequest playlistId). fold (sentWith w (firstRequest playlistId)).
      rewrite Hrun by exact Hf. simpl. rewrite <- app_assoc. reflexivity.
    + cbn [requestCount] in Hlen. lia.
    + exact Hfresh.
  - exists (Throw e), []. split; [ | split; [ apply Nat.le_0_l | reflexivity ] ].
    intros fuel _. reflexivity.
Qed.

(** When every page carries the same token [t], the second evaluation of
    the loop test finds [t] among the tokens seen. *)
Lemma albumSongs_echo_run (playlistId : string) (w : World) (t : string) :
  (forall w' response s c,
     tr w' (firstRequest playlistId) = Ok response ->
     parseAlbumSongs h response = Ok (s, c) -> c = JStr t) ->
  (forall w' token response f c,
     tr w' (resumeRequest token) = Ok response ->
     resumedPage h response = Ok (f, c) -> c = JStr t) ->
  forall fuel, 2 <= fuel ->
  exists res tokens,
    albumSongs h tr fuel playlistId w = Some (res, afterRun w playlistId tokens) /\
    length tokens <= 1.
Proof.
  intros Hfirst Hecho fuel Hf.
  destruct fuel as [| [| fuel]]; [ lia | lia | ].
  unfold albumSongs, send, afterRun.
  fold (firstRequest playlistId). fold (sentWith w (firstRequest playlistId)).
  destruct (tr w (firstRequest playlistId)) as [response | e] eqn:Htr; simpl;
    [ | exists (Throw e), []; split; [ reflexivity | apply Nat.le_0_l ] ].
  destruct (parseAlbumSongs h response) as [[first c] | e] eqn:Hp;
    [ | exists (Throw e), []; split; [ reflexivity | apply Nat.le_0_l ] ].
  rewrite (Hfirst _ _ _ _ Htr Hp).
  unfold albumSongsStep at 1. cbn [continuation requestCount seenContinuations songs].
  destruct (truthy (JStr t)) eqn:Ht; cbn [andb];
    [ | exists (Ok first), []; split; [ reflexivity | apply Nat.le_0_l ] ].
  change ((0 <? maxRequests)%nat) with true. cbn [setHas existsb].
  unfold send. cbn [innerTube sent].
  match goal with
  | |- context [tr ?w1 (Browse JNull JNull (JStr t) false)] =>
      destruct (tr w1 (Browse JNull JNull (JStr t) false)) as [resumed | e] eqn:Htr2
  end; cbn [bind];
    [ | exists (Throw e), [JStr t]; split;
        [ cbn [map]; rewrite <- app_assoc; reflexivity | apply le_n ] ].
  destruct (resumedPage h resumed) as [[found next] | e] eqn:Hr;
    [ | exists (Throw e), [JStr t]; split;
        [ cbn [map]; rewrite <- app_assoc; reflexivity | apply le_n ] ].
  rewrite (Hecho _ _ _ _ _ Htr2 Hr).
  cbn [albumSongsLoop]. unfold albumSongsStep.
  cbn [continuation requestCount seenContinuations songs].
  rewrite Ht. change ((1 <? maxRequests)%nat) with true.
  cbn [andb setHas existsb sameValueZero]. rewrite String.eqb_refl. cbn [orb].
  exists (Ok (first ++ found)), [JStr t]. split; [ | apply le_n ].
  cbn [map]. rewrite <- app_assoc. reflexivity.
Qed.

(** C4.  Whatever the transport answers, [albumSongs] comes to an end: with
    any fuel above the cap it returns the same outcome, after the first page
    and at most 50 resume calls, and it never asks for a token it has asked
    for before.  When every page carries the same token, it makes at most
    one resume call. *)
Theorem albumSongs_terminates_within_cap (playlistId : string) (w : World) :
  exists res tokens,
    (forall fuel, maxRequests < fuel ->
       albumSongs h tr fuel playlistId w = Some (res, afterRun w playlistId tokens)) /\
    length tokens <= 50 /\
    freshFrom [] tokens = true /\
    (forall t,
       (forall w' response s c,
          tr w' (firstRequest playlistId) = Ok response ->
          parseAlbumSongs h response = Ok (s, c) -> c = JStr t) ->
       (forall w' token response f c,
          tr w' (resumeRequest token) = Ok response ->
          resumedPage h response = Ok (f, c) -> c = JStr t) ->
       length tokens <= 1).
Proof.
  destruct (albumSongs_bounded playlistId w) as (res & tokens & Hrun & Hlen & Hfresh).
  exists res, tokens. repeat split; auto.
  intros t Hfirst Hecho.
  destruct (albumSongs_echo_run playlistId w t Hfirst Hecho (S maxRequests))
    as (res' & tokens' & Hrun' & Hlen').
  { unfold maxRequests. lia. }
  rewrite Hrun in Hrun' by apply Nat.lt_succ_diag_r.
  inversion Hrun' as [[Hres Hsent]].
  apply app_inv_head in Hsent. inversion Hsent as [Hmap].
  apply (f_equal (@length Sent)) in Hmap. rewrite !length_map in Hmap.
  rewrite Hmap. exact Hlen'.
Qed.

(** One evaluation of the loop of [albumSongs], case by case.  The test
    looks at the token, the call count and the seen-token set and never at
    the number of items: a resumed page with no item and a token [next] is
    followed by a turn with [next].  The page-level resumes do look at it:
    [parsePlaylistContinuation] and [artistAlbumsContinuation] report a
    [null] continuation whenever the page yields no item. *)
Lemma albumSongsStep_outcomes (st : Loop) (w : World) :
  (forall a w', albumSongsStep h tr st w = (Done a, w') <->
     a = songs st /\ w' = w /\
     (truthy (continuation st) = false \/
      maxRequests <= requestCount st \/
      setHas (seenContinuations st) (continuation st) = true)) /\
  (forall response next,
     truthy (continuation st) = true ->
     requestCount st < maxRequests ->
     setHas (seenContinuations st) (continuation st) = false ->
     tr w (resumeRequest (continuation st)) = Ok response ->
     resumedPage h response = Ok ([], next) ->
     albumSongsStep h tr st w =
     (Continue {| songs := songs st ++ [];
                  continuation := next;
                  seenContinuations := continuation st :: seenContinuations st;
                  requestCount := S (requestCount st) |},
      {| innerTube := innerTube w;
         sent := sent w ++ [sentWith w (resumeRequest (continuation st))] |})) /\
  (forall response v,
     parsePlaylistContinuation h response = Ok v ->
     prop v "songs" = JArr [] ->
     prop v "continuation" = JNull) /\
  (forall response suppliedVisitorData v,
     artistAlbumsPage h response suppliedVisitorData = Ok v ->
     prop v "albums" = JArr [] ->
     prop v "continuation" = JNull).
Proof.
  split; [ | split; [ | split ] ].
  - intros a w'. unfold albumSongsStep, send.
    destruct (truthy (continuation st)) eqn:Ht; cbn [andb].
    + destruct (Nat.ltb_spec (requestCount st) maxRequests) as [Hlt | Hge].
      * destruct (setHas (seenContinuations st) (continuation st)) eqn:Hs.
        -- split.
           ++ intros H. inversion H. auto.
           ++ intros (-> & -> & _). reflexivity.
        -- destruct (response <- tr w (Browse JNull JNull (continuation st) false) ;;
                     resumedPage h response) as [[found next] | e].
           ++ split; [ intros H; discriminate H | ].
              intros (_ & _ & [H | [H | H]]); [ discriminate H | lia | discriminate H ].
           ++ split; [ intros H; discriminate H | ].
              intros (_ & _ & [H | [H | H]]); [ discriminate H | lia | discriminate H ].
      * split.
        -- intros H. inversion H. auto.
        -- intros (-> & -> & _). reflexivity.
    + split.
      * intros H. inversion H. auto.
      * intros (-> & -> & _). reflexivity.
  - intros response next Ht Hlt Hs Htr Hr. unfold albumSongsStep, send.
    rewrite Ht, (proj2 (Nat.ltb_lt _ _) Hlt), Hs. cbn [andb].
    unfold resumeRequest in Htr. rewrite Htr. cbn [bind]. rewrite Hr. reflexivity.
  - intros response v H Hsongs. unfold parsePlaylistContinuation in H.
    ok_inv; simpl in Hsongs; inversion Hsongs as [Hl];
      try reflexivity;
      match goal with
      | Hlen : (0 <? length (filterBoolean ?m))%nat = true |- _ =>
          rewrite Hl in Hlen; discriminate Hlen
      end.
  - intros response vd v H Halbums. unfold artistAlbumsPage in H.
    apply bind_Ok_inv in H. destruct H as (cc & _ & H).
    destruct (negb (truthy (cc ?> "gridContinuation")));
      [ inversion H; reflexivity | ].
    ok_inv. simpl in Halbums. inversion Halbums as [Hl].
    simpl. reflexivity.
Qed.

End ClientFacts.



(** *** Runs of the item mappers on the example payloads *)

(** C2, as stated, fails: a responsive-list row whose browse identifier has
    the album prefix, with a title and no page type, maps to a song. *)
Lemma album_prefix_row_maps_to_song :
  hasPrefix (fragmentBrowseId albumLinkRow) "MPREb" = true /\
  parseMusicResponsiveListItemRenderer exampleHost albumLinkRow =
  Ok (JObj [("type", JStr "song"); ("id", JUndef); ("title", JStr "Sky");
            ("artists", JArr []); ("thumbnail", JUndef);
            ("explicit", JBool false); ("musicVideoType", JUndef);
            ("album", JNull); ("duration", JNull)]).
Proof. split; vm_compute; reflexivity. Qed.



(** A lookup that fails inside a mapper: [slice] on an object.  The
    responsive-list mapper catches it and returns [null], channel prefix or
    not; [parseAlbumSong] has no [try] and lets a failing lookup escape. *)
Example failing_lookups :
  parseMusicResponsiveListItemRenderer exampleHost channelWithBadThumbnails = Ok JNull /\
  parseMusicResponsiveListItemRenderer exampleHost songWithBadBadges = Ok JNull /\
  parseAlbumSong exampleHost songWithBadBadges JNull = Throw TypeError.
Proof. repeat split; vm_compute; reflexivity. Qed.

(** C5, as stated, fails in both directions: the empty fragment has no
    identifier and no title and maps to the unknown item, and a
    responsive-list row that has a browse identifier maps to [null]. *)
Lemma null_is_not_absence_of_fields :
  parseMusicTwoRowItemRenderer exampleHost (JObj []) =
  Ok (JObj [("type", JStr "unknown"); ("browseId", JUndef); ("videoId", JUndef);
            ("title", JUndef); ("thumbnail", JNull); ("subtitle", JUndef)]) /\
  fragmentBrowseId bareAlbumLink = JStr "MPREb_sky" /\
  parseMusicResponsiveListItemRenderer exampleHost bareAlbumLink = Ok JNull.
Proof. repeat split; vm_compute; reflexivity. Qed.

(** A resumed grid page whose first two entries the mapper rejects: by the
    theorem the call returns, with at most three items and no [null] among
    them. *)
Lemma grid_page_drops_rejected_entries :
  exists items token,
    fst (artistItemsContinuation exampleHost (fun _ _ => Ok gridWithRejects)
           (JStr "t") exampleWorld) = Ok (itemsResult items token) /\
    length items <= length gridEntries /\
    Forall (fun v => truthy v = true) items.
Proof.
  refine (proj1 (proj1 (proj2 (proj2 (proj2 (proj2 (item_mappers_never_throw exampleHost)))))
                   (fun _ _ => Ok gridWithRejects) (JStr "t") exampleWorld
                   gridWithRejects gridEntries _ _ _ _) _).
  - reflexivity.
  - reflexivity.
  - reflexivity.
  - reflexivity.
  - repeat constructor.
Defined.

(** The same call evaluated: one album is left; with a [null] entry in
    front the call raises. *)
Example grid_page_runs :
  option_map (fun v => prop v "items")
    (match fst (artistItemsContinuation exampleHost (fun _ _ => Ok gridWithRejects)
                  (JStr "t") exampleWorld) with
     | Ok v => Some v
     | Throw _ => None
     end) =
  Some (JArr [JObj [("type", JStr "album"); ("browseId", JStr "MPREb_sky");
                    ("playlistId", JUndef); ("title", JStr "Sky");
                    ("artists", JArr []); ("year", JNull);
                    ("thumbnail", JNull); ("explicit", JBool false)]]) /\
  fst (artistItemsContinuation exampleHost (fun _ _ => Ok gridWithNullEntry)
         (JStr "t") exampleWorld) = Throw TypeError.
Proof. split; vm_compute; reflexivity. Qed.



(** The rule on other rows: the duration column wins over the byline, an
    empty column text gives way to the byline, a year is no duration, and
    neither is a text of four groups. *)
Example duration_runs :
  map (fun r => option_map (fun v => prop v "duration")
                  (match parseMusicResponsiveListItemRenderer exampleHost r with
                   | Ok v => Some v
                   | Throw _ => None
                   end))
    [songEnding "2019" (Some "4:05"); songEnding "3:45" (Some "");
     songEnding "2019" None; songEnding "1:02:03" None; songEnding "12:34:56:78" None] =
  [Some (JStr "4:05"); Some (JStr "3:45"); Some JNull; Some (JStr "1:02:03"); Some JNull] /\
  map durationByRule
    [songEnding "2019" (Some "4:05"); songEnding "3:45" (Some "");
     songEnding "2019" None; songEnding "1:02:03" None; songEnding "12:34:56:78" None] =
  [JStr "4:05"; JStr "3:45"; JNull; JStr "1:02:03"; JNull] /\
  map strictClock ["3:45"; "03:45"; "1:02:03"; "1:2"; "7:5:3"; "123:45"] =
  [true; true; true; false; false; false] /\
  map durationPattern ["3:45"; "03:45"; "1:02:03"; "1:2"; "7:5:3"; "123:45"] =
  [true; true; true; true; true; true].
Proof. repeat split; vm_compute; reflexivity. Qed.

(** *** Runs of the client on the example payloads *)

(** C6, as stated, fails: when a response carries both a grid continuation
    and a playlist-shelf continuation, the result is the grid's album and
    not the shelf's song. *)
Lemma grid_wins_over_shelf :
  artistItemsPage exampleHost bothShapes =
  Ok (itemsResult
        [JObj [("type", JStr "album"); ("browseId", JStr "MPREb_sky");
               ("playlistId", JUndef); ("title", JStr "Sky"); ("artists", JArr []);
               ("year", JNull); ("thumbnail", JNull); ("explicit", JBool false)]]
        JNull) /\
  artistItemsPage exampleHost bothShapes = gridPage exampleHost gridPart /\
  artistItemsPage exampleHost bothShapes <> shelfPage exampleHost shelfPart.
Proof.
  split; [ vm_compute; reflexivity | ].
  split; [ vm_compute; reflexivity | ].
  vm_compute. intros H. discriminate H.
Qed.

Lemma both_shapes_by_precedence :
  artistItemsPage exampleHost bothShapes = gridPage exampleHost gridPart.
Proof.
  refine (proj1 (continuation_shape_precedence exampleHost bothShapes _) _);
    vm_compute; reflexivity.
Defined.

(** C1 (defect in the code).  On the three-page album the second page
    yields no item and carries the new token [t2].  The claim has the
    sequence end there; [albumSongs] asks for the third page and returns its
    song as well.  [parsePlaylistContinuation], the resume the caller drives,
    reports a [null] continuation for the very same page. *)
Theorem zero_yield_page_is_followed :
  resumedPage exampleHost pageTwo = Ok ([], JStr "t2") /\
  option_map (fun out => sent (snd out))
    (albumSongs exampleHost threePages 51 "PL" exampleWorld) =
  Some [sentWith exampleWorld (firstRequest "PL");
        sentWith exampleWorld (resumeRequest (JStr "t1"));
        sentWith exampleWorld (resumeRequest (JStr "t2"))] /\
  option_map (fun out => option_map (@length JS)
                           (match fst out with Ok l => Some l | Throw _ => None end))
    (albumSongs exampleHost threePages 51 "PL" exampleWorld) =
  Some (Some 2) /\
  parsePlaylistContinuation exampleHost pageTwo =
  Ok (JObj [("songs", JArr []); ("continuation", JNull)]).
Proof. repeat split; vm_compute; reflexivity. Qed.

(** The step after the first page of the three-page album, by the case
    analysis of the loop. *)
Lemma step_after_zero_yield_page :
  albumSongsStep exampleHost threePages
    {| songs := []; continuation := JStr "t1";
       seenContinuations := []; requestCount := 0 |} exampleWorld =
  (Continue {| songs := [] ++ []; continuation := JStr "t2";
               seenContinuations := [JStr "t1"]; requestCount := 1 |},
   {| innerTube := innerTube exampleWorld;
      sent := sent exampleWorld ++ [sentWith exampleWorld (resumeRequest (JStr "t1"))] |}).
Proof.
  refine (proj1 (proj2 (albumSongsStep_outcomes exampleHost threePages
                          {| songs := []; continuation := JStr "t1";
                             seenContinuations := []; requestCount := 0 |}
                          exampleWorld)) pageTwo (JStr "t2") _ _ _ _ _);
    vm_compute; try reflexivity.
  lia.
Defined.

(** The loop reads the items of a resumed page from the append action and
    the token from the shelf continuation.  When every resumed page is in
    the shelf format (one song row each, a new token each time) the loop
    finds no song on any of them and stops only at the cap: 51 requests and
    an empty result, where [parsePlaylistContinuation] finds the song. *)
Example shelf_format_pages_yield_nothing :
  option_map (fun out => (length (sent (snd out)),
                          match fst out with Ok l => Some (length l) | Throw _ => None end))
    (albumSongs exampleHost shelfFormatTransport 51 "PL" exampleWorld) =
  Some (51, Some 0) /\
  resumedPage exampleHost (shelfFormatResumed "t") = Ok ([], JStr "t+") /\
  option_map (fun v => (prop v "songs", prop v "continuation"))
    (match parsePlaylistContinuation exampleHost (shelfFormatResumed "t") with
     | Ok v => Some v
     | Throw _ => None
     end) = Some (JArr [exampleSongItem], JStr "t+").
Proof. repeat split; vm_compute; reflexivity. Qed.

(** *** Runs of the playlist page mapper *)

(** A headerless page whose shelf holds the example row and an entry
    without a renderer, by the theorem. *)
Lemma example_headerless_page :
  exists title songs' songsContinuation continuation,
    parsePlaylistPage exampleHost (headerlessPage [exampleEntry; JObj []])
      (JStr "OLAK5uy_x") =
    Ok (pageResult
          (JObj [("id", JStr "OLAK5uy_x"); ("title", title);
                 ("author", channelAuthor exampleRow);
                 ("songCountText", JStr (natKey (S (length songs')) ++ " songs"));
                 ("thumbnail", orElse (prop exampleSongItem "thumbnail") JNull);
                 ("isEditable", JBool false)])
          (exampleSongItem :: songs') songsContinuation continuation).
Proof.
  apply (headerless_playlist_descriptor exampleHost
           (headerlessPage [exampleEntry; JObj []]) (JStr "OLAK5uy_x")
           exampleEntry exampleRow exampleSongItem [JObj []]);
    try (vm_compute; reflexivity).
  repeat constructor.
Defined.

(** The same page evaluated: the author is Ana, the thumbnail is the last
    candidate of the row. *)
Example headerless_page_run :
  channelAuthor exampleRow = JObj [("name", JStr "Ana"); ("id", JStr "UCana")] /\
  descriptorOf (parsePlaylistPage exampleHost (headerlessPage [exampleEntry; JObj []])
                  (JStr "OLAK5uy_x")) =
  Some (JObj [("name", JStr "Ana"); ("id", JStr "UCana")], JStr "large").
Proof. split; vm_compute; reflexivity. Qed.

(** C7, as stated, fails.  On a headerless page whose song row has a title
    that links to a channel, the author of the descriptor is that title
    link, found in the first flex column, and not the byline artist of the
    song.  On a headerless page whose shelf starts with an entry that is no
    song row, the descriptor has no author and no thumbnail, although the
    first song of the page has both.  On a headerless page whose first row
    is mapped to a song and has flex columns that are a number, there is no
    descriptor: the reads of the fallback are outside any [try] and the
    page call raises. *)
Lemma headerless_descriptor_off_the_claim :
  descriptorOf (parsePlaylistPage exampleHost (headerlessPage [linkedTitleEntry])
                  (JStr "OLAK5uy_x")) =
  Some (JObj [("name", JStr "Blue"); ("id", JStr "UCblue")], JStr "large") /\
  firstSongFields (parsePlaylistPage exampleHost (headerlessPage [linkedTitleEntry])
                     (JStr "OLAK5uy_x")) =
  Some (JArr [JObj [("name", JStr "Ana"); ("id", JStr "UCana")]], JStr "large") /\
  descriptorOf (parsePlaylistPage exampleHost (headerlessPage [JObj []; exampleEntry])
                  (JStr "OLAK5uy_x")) =
  Some (JNull, JNull) /\
  firstSongFields (parsePlaylistPage exampleHost (headerlessPage [JObj []; exampleEntry])
                     (JStr "OLAK5uy_x")) =
  Some (JArr [JObj [("name", JStr "Ana"); ("id", JStr "UCana")]], JStr "large") /\
  option_map (fun v => prop v "type")
    (match parseMusicResponsiveListItemRenderer exampleHost numberedColumnsRow with
     | Ok v => Some v
     | Throw _ => None
     end) = Some (JStr "song") /\
  parsePlaylistPage exampleHost
    (headerlessPage [JObj [("musicResponsiveListItemRenderer", numberedColumnsRow)];
                     exampleEntry])
    (JStr "OLAK5uy_x") = Throw TypeError.
Proof. repeat split; vm_compute; reflexivity. Qed.

(** The rows of these pages against the shape the theorem asks for. *)
Example rows_well_formed :
  map wellFormedRow [exampleRow; linkedTitleRow; numberedColumnsRow] = [true; true; false].
Proof. vm_compute. reflexivity. Qed.

(** *** Runs of the client on the example transports *)

(** 1001 identifiers: refused before anything is sent. *)
Lemma queue_refuses_1001_identifiers :
  queue failingTransport (Some (repeat JNull 1001)) JNull exampleWorld =
  (Throw (JsError "Max queue size is 1000"), exampleWorld).
Proof.
  apply (proj1 (queue_size_guard failingTransport (Some (repeat JNull 1001)) JNull
                  exampleWorld) (repeat JNull 1001)).
  - reflexivity.
  - rewrite repeat_length. lia.
Defined.

(** A resume that raises: the supplied visitor identifier went out with the
    request, and the stored one is back afterwards. *)
Lemma raising_resume_restores_visitorData :
  artistAlbumsContinuation exampleHost failingTransport (JStr "token") (JStr "supplied")
    exampleWorld =
  (Throw TransportError,
   {| innerTube := innerTube exampleWorld;
      sent := [{| request := BrowseWithCtoken (JStr "token");
                  sentVisitorData := JStr "supplied" |}] |}) /\
  visitorData (innerTube (snd (artistAlbumsContinuation exampleHost failingTransport
                                 (JStr "token") (JStr "supplied") exampleWorld))) =
  visitorData (innerTube exampleWorld).
Proof.
  split; [ vm_compute; reflexivity | ].
  exact (proj1 (proj2 (artistAlbumsContinuation_restores_visitorData exampleHost
                         failingTransport (JStr "token") (JStr "supplied") exampleWorld))).
Defined.

(** The transport that echoes the token [t] on every page: one resume
    call. *)
Lemma echo_run_makes_one_resume_call :
  exists res tokens,
    (forall fuel, maxRequests < fuel ->
       albumSongs exampleHost echoTransport fuel "PL" exampleWorld =
       Some (res, afterRun exampleWorld "PL" tokens)) /\
    length tokens <= 1.
Proof.
  destruct (albumSongs_terminates_within_cap exampleHost echoTransport "PL" exampleWorld)
    as (res & tokens & Hrun & _ & _ & Hecho).
  exists res, tokens. split; [ exact Hrun | ].
  apply (Hecho "t").
  - intros w' response s c H Hp. vm_compute in H. inversion H; subst response.
    vm_compute in Hp. inversion Hp. reflexivity.
  - intros w' token response f c H Hp. vm_compute in H. inversion H; subst response.
    vm_compute in Hp. inversion Hp. reflexivity.
Defined.

Example echo_run_value :
  option_map (fun out => sent (snd out))
    (albumSongs exampleHost echoTransport 51 "PL" exampleWorld) =
  Some (sent (afterRun exampleWorld "PL" [JStr "t"])).
Proof. vm_compute. reflexivity. Qed.

(** The order of the two-row mapper on a fragment of each kind. *)
Example two_row_kinds :
  map (fun r => match parseMusicTwoRowItemRenderer exampleHost r with
                | Ok v => prop v "type"
                | Throw _ => JUndef
                end)
    [JObj [("navigationEndpoint", navigation (Some "MPREb_sky") (Some "v1"))];
     JObj [("navigationEndpoint", navigation (Some "UCana") (Some "v1"))];
     JObj [("navigationEndpoint", navigation (Some "UCana") None)];
     JObj [("navigationEndpoint", navigation (Some "VLPL1") None)];
     JObj [("navigationEndpoint", navigation (Some "RDCLAK5uy") None)];
     JObj [("navigationEndpoint", navigation (Some "FEmusic") None)]] =
  [JStr "album"; JStr "song"; JStr "artist"; JStr "playlist"; JStr "playlist";
   JStr "unknown"].
Proof. vm_compute. reflexivity. Qed.

(** ** Splitting and lower-casing *)

Lemma splitOn_nonempty (sep : ascii) (s : string) : splitOn sep s <> [].
Proof.
  destruct s as [| c r]; simpl; [ discriminate | ].
  destruct (Ascii.eqb c sep); [ discriminate | ].
  destruct (splitOn sep r); discriminate.
Qed.

Lemma splitOn_one (sep : ascii) (s a : string) :
  splitOn sep s = [a] <-> s = a /\ contains sep a = false.
Proof.
  revert a. induction s as [| c r IH]; intros a; simpl.
  - split.
    + intros H; inversion H; auto.
    + intros [<- _]; reflexivity.
  - destruct (Ascii.eqb c sep) eqn:E.
    + split.
      * intros H. inversion H as [[Ha Hr]]. exfalso. exact (splitOn_nonempty _ _ Hr).
      * intros [<- H]. simpl in H. rewrite E in H. discriminate H.
    + destruct (splitOn sep r) as [| p ps] eqn:S.
      * exfalso. exact (splitOn_nonempty _ _ S).
      * split.
        -- intros H. inversion H; subst.
           destruct (proj1 (IH p) eq_refl) as [-> Hc].
           simpl. rewrite E, Hc. auto.
        -- intros [<- H]. simpl in H. rewrite E in H. simpl in H.
           assert (Hr : p :: ps = [r]) by (apply IH; auto).
           inversion Hr; reflexivity.
Qed.

Lemma splitOn_two (sep : ascii) (s a b : string) :
  splitOn sep s = [a; b] <->
  s = (a ++ String sep b)%string /\ contains sep a = false /\ contains sep b = false.
Proof.
  split.
  - revert a. induction s as [| c r IH]; intros a; simpl.
    + discriminate.
    + destruct (Ascii.eqb c sep) eqn:E.
      * intros H. inversion H as [[Ha Hr]]. apply splitOn_one in Hr.
        destruct Hr as [-> Hb]. apply Ascii.eqb_eq in E. subst c. simpl. auto.
      * destruct (splitOn sep r) as [| p ps] eqn:S; [ discriminate | ].
        intros H. inversion H; subst.
        destruct (IH p eq_refl) as (-> & Hp & Hb).
        simpl. rewrite E, Hp. auto.
  - intros (-> & Ha & Hb). induction a as [| c a IH]; simpl in *.
    + rewrite Ascii.eqb_refl. f_equal. apply splitOn_one. auto.
    + apply orb_false_iff in Ha. destruct Ha as [E Ha].
      rewrite E, (IH Ha). reflexivity.
Qed.

Lemma lowerChar_space (c : ascii) : Ascii.eqb (lowerChar c) " " = Ascii.eqb c " ".
Proof.
  destruct c as [[] [] [] [] [] [] [] []]; vm_compute; reflexivity.
Qed.

Lemma toLowerCase_space (s : string) :
  contains " " (toLowerCase s) = contains " " s.
Proof.
  induction s as [| c r IH]; simpl; [ reflexivity | ].
  rewrite lowerChar_space, IH. reflexivity.
Qed.

(** ** The bearer-token middleware *)

(** X1.  The middleware calls [next()] for exactly one kind of request: the
    header is a scheme, one space and a token; the scheme reads [bearer]
    whatever its case; a token is configured, it is not empty, and the
    header carries that very token.  As a header with a second space is
    refused for its form, a configured token that contains a space lets no
    request through. *)
Theorem authMiddleware_calls_next_iff (authorization expectedToken : option string) :
  authMiddleware authorization expectedToken = CallNext <->
  exists scheme token,
    authorization = Some (scheme ++ " " ++ token)%string /\
    toLowerCase scheme = "bearer" /\
    expectedToken = Some token /\
    token <> "" /\
    contains " " token = false.
Proof.
  unfold authMiddleware. split.
  - destruct authorization as [authHeader |]; [ | discriminate ].
    destruct (isEmpty authHeader); [ discriminate | ].
    destruct (splitOn " " authHeader) as [| a [| b [| c rest]]] eqn:S;
      simpl; try discriminate.
    destruct (toLowerCase a =? "bearer") eqn:L; simpl; [ | discriminate ].
    destruct expectedToken as [expected |]; [ | discriminate ].
    destruct (isEmpty expected) eqn:Ee; [ discriminate | ].
    destruct (b =? expected) eqn:T; [ | discriminate ].
    intros _. apply String.eqb_eq in L, T. subst expected.
    apply splitOn_two in S. destruct S as (-> & _ & Hb).
    exists a, b. repeat split; auto.
    intros ->. discriminate Ee.
  - intros (scheme & token & -> & L & -> & Hn & Ht).
    assert (Hs : contains " " scheme = false).
    { rewrite <- toLowerCase_space, L. reflexivity. }
    assert (S : splitOn " " (scheme ++ " " ++ token) = [scheme; token]).
    { apply splitOn_two. auto. }
    rewrite S. simpl.
    destruct scheme as [| c r]; [ discriminate L | ]. simpl isEmpty. cbv iota.
    replace (toLowerCase (String c r) =? "bearer") with true
      by (symmetry; apply String.eqb_eq; exact L).
    simpl. destruct token; [ congruence | ]. simpl isEmpty. cbv iota.
    rewrite String.eqb_refl. reflexivity.
Qed.

(** ** The retry wrapper *)

Section RetryFacts.

Variable A : Type.
Variable fn : nat -> Res A.

Lemma withRetryLoop_first_success (maxAttempts : Z) (a : A) (k : nat) :
  forall (fuel i c : nat) (d : Z) (sl : list Z),
    (forall j, j < k -> exists e, fn (c + j) = Throw e) ->
    fn (c + k) = Ok a ->
    (Z.of_nat (i + k) < maxAttempts)%Z ->
    k < fuel ->
    withRetryLoop A fn fuel maxAttempts {| attempt := i; delay := d |}
      {| calls := c; sleeps := sl |}
    = Some (Ok (Some a), {| calls := c + k + 1; sleeps := sl ++ backoff d k |}).
Proof.
  induction k as [| k IH]; intros fuel i c d sl Hf Hk Hm Hfuel.
  - destruct fuel as [| fuel]; [ lia | ].
    cbn [withRetryLoop]. unfold withRetryStep. cbn [attempt delay calls sleeps].
    replace (Z.of_nat i <? maxAttempts)%Z with true by (symmetry; apply Z.ltb_lt; lia).
    rewrite Nat.add_0_r in Hk. rewrite Hk.
    rewrite app_nil_r. do 3 f_equal. lia.
  - destruct fuel as [| fuel]; [ lia | ].
    cbn [withRetryLoop]. unfold withRetryStep. cbn [attempt delay calls sleeps].
    replace (Z.of_nat i <? maxAttempts)%Z with true by (symmetry; apply Z.ltb_lt; lia).
    destruct (Hf 0) as [e He]; [ lia | ]. rewrite Nat.add_0_r in He. rewrite He.
    replace (maxAttempts - 1 <=? Z.of_nat i)%Z with false
      by (symmetry; apply Z.leb_gt; lia).
    rewrite (IH fuel (S i) (S c) (d * 2)%Z (sl ++ [d])).
    + rewrite <- app_assoc. simpl. do 3 f_equal. lia.
    + intros j Hj. destruct (Hf (S j)) as [e' He']; [ lia | ].
      exists e'. rewrite <- He'. f_equal. lia.
    + rewrite <- Hk. f_equal. lia.
    + lia.
    + lia.
Qed.

Lemma withRetryLoop_exhausted (maxAttempts : Z) (e : Exn) (n : nat) :
  forall (fuel i c : nat) (d : Z) (sl : list Z),
    (forall j, j < n -> exists e', fn (c + j) = Throw e') ->
    fn (c + n) = Throw e ->
    Z.of_nat (i + n + 1) = maxAttempts ->
    n < fuel ->
    withRetryLoop A fn fuel maxAttempts {| attempt := i; delay := d |}
      {| calls := c; sleeps := sl |}
    = Some (Throw e, {| calls := c + n + 1; sleeps := sl ++ backoff d n |}).
Proof.
  induction n as [| n IH]; intros fuel i c d sl Hf Hk Hm Hfuel.
  - destruct fuel as [| fuel]; [ lia | ].
    cbn [withRetryLoop]. unfold withRetryStep. cbn [attempt delay calls sleeps].
    replace (Z.of_nat i <? maxAttempts)%Z with true by (symmetry; apply Z.ltb_lt; lia).
    rewrite Nat.add_0_r in Hk. rewrite Hk.
    replace (maxAttempts - 1 <=? Z.of_nat i)%Z with true
      by (symmetry; apply Z.leb_le; lia).
    rewrite app_nil_r. do 3 f_equal. lia.
  - destruct fuel as [| fuel]; [ lia | ].
    cbn [withRetryLoop]. unfold withRetryStep. cbn [attempt delay calls sleeps].
    replace (Z.of_nat i <? maxAttempts)%Z with true by (symmetry; apply Z.ltb_lt; lia).
    destruct (Hf 0) as [e0 He]; [ lia | ]. rewrite Nat.add_0_r in He. rewrite He.
    replace (maxAttempts - 1 <=? Z.of_nat i)%Z with false
      by (symmetry; apply Z.leb_gt; lia).
    rewrite (IH fuel (S i) (S c) (d * 2)%Z (sl ++ [d])).
    + rewrite <- app_assoc. simpl. do 3 f_equal. lia.
    + intros j Hj. destruct (Hf (S j)) as [e' He']; [ lia | ].
      exists e'. rewrite <- He'. f_equal. lia.
    + rewrite <- Hk. f_equal. lia.
    + lia.
    + lia.
Qed.

(** X2.  When the wrapped request fails [k] times and then answers, with
    [k] below the budget, the wrapper returns that answer, has invoked the
    request [k + 1] times and has slept [k] times in between: the initial
    delay first, then twice the previous delay each time. *)
Theorem withRetry_returns_first_success
  (maxAttempts initialDelay : Z) (k fuel : nat) (a : A) :
  (forall j, j < k -> exists e, fn j = Throw e) ->
  fn k = Ok a ->
  (Z.of_nat k < maxAttempts)%Z ->
  k < fuel ->
  _withRetry A fn fuel maxAttempts initialDelay
  = Some (Ok (Some a), {| calls := k + 1; sleeps := backoff initialDelay k |}).
Proof.
  intros Hf Hk Hm Hfuel. unfold _withRetry.
  rewrite (withRetryLoop_first_success maxAttempts a k); auto.
Qed.

(** X3.  When every attempt of a positive budget fails, the wrapper raises
    the error of the last attempt.  It has invoked the request as many
    times as the budget says and slept one time less: it does not wait
    after the last failure. *)
Theorem withRetry_rethrows_last_error
  (initialDelay : Z) (n fuel : nat) (e : Exn) :
  (forall j, j < n -> exists e', fn j = Throw e') ->
  fn n = Throw e ->
  n < fuel ->
  _withRetry A fn fuel (Z.of_nat (S n)) initialDelay
  = Some (Throw e, {| calls := S n; sleeps := backoff initialDelay n |}).
Proof.
  intros Hf Hn Hfuel. unfold _withRetry.
  rewrite (withRetryLoop_exhausted (Z.of_nat (S n)) e n); auto.
  - do 3 f_equal. lia.
  - f_equal. lia.
Qed.

(** X4.  With the defaults of [_post] and [_get] (three attempts, 500 ms),
    whatever the request does: the call ends, it makes between one and
    three attempts, it sleeps 500 ms and then 1000 ms at most, and it never
    resolves to [undefined]: it returns a payload or raises. *)
Theorem post_attempts_and_backoff (fuel : nat) :
  exists (r : Res (option A)) (log : Attempts),
    _post A fn (3 + fuel) = Some (r, log) /\
    1 <= calls log <= 3 /\
    sleeps log = firstn (calls log - 1) [500; 1000]%Z /\
    r <> Ok None.
Proof.
  unfold _post, _withRetry. cbn [withRetryLoop Nat.add]. unfold withRetryStep.
  cbn [attempt delay calls sleeps].
  destruct (fn 0) as [a0 | e0]; cbn.
  - eexists _, _. split; [ reflexivity | ]. cbn. repeat split; try lia. discriminate.
  - destruct (fn 1) as [a1 | e1]; cbn.
    + eexists _, _. split; [ reflexivity | ]. cbn. repeat split; try lia. discriminate.
    + destruct (fn 2) as [a2 | e2]; cbn.
      * eexists _, _. split; [ reflexivity | ]. cbn. repeat split; try lia. discriminate.
      * eexists _, _. split; [ reflexivity | ]. cbn. repeat split; try lia. discriminate.
Qed.

End RetryFacts.

(** ** deduplicateById *)

Lemma dedupFrom_key (seen : list JS) (item : JS) (rest r : list JS) :
  dedupFrom seen (item :: rest) = Ok r ->
  nullish item = false /\
  (if negb (truthy (keyOf item)) || setHas seen (keyOf item)
   then dedupFrom seen rest = Ok r
   else exists kept, dedupFrom (keyOf item :: seen) rest = Ok kept /\ r = item :: kept).
Proof.
  cbn [dedupFrom]. unfold get, keyOf, orElse.
  destruct (nullish item); [ discriminate | ]. cbn [bind].
  destruct (truthy (prop item "id")); cbn [bind]; intros H; (split; [ reflexivity | ]).
  - destruct (negb (truthy (prop item "id")) || setHas seen (prop item "id")); [ exact H | ].
    apply bind_Ok_inv in H. destruct H as (kept & E & H). inversion H. eauto.
  - destruct (negb (truthy (prop item "browseId")) || setHas seen (prop item "browseId"));
      [ exact H | ].
    apply bind_Ok_inv in H. destruct H as (kept & E & H). inversion H. eauto.
Qed.

Lemma dedupFrom_again (items : list JS) :
  forall seen r, dedupFrom seen items = Ok r -> dedupFrom seen r = Ok r.
Proof.
  induction items as [| item rest IH]; intros seen r H.
  - inversion H. reflexivity.
  - pose proof (dedupFrom_key _ _ _ _ H) as [Hn Hk].
    destruct (negb (truthy (keyOf item)) || setHas seen (keyOf item)) eqn:D.
    + apply IH, Hk.
    + destruct Hk as (kept & Hk & ->).
      apply IH in Hk.
      cbn [dedupFrom]. unfold get. rewrite Hn. cbn [bind].
      unfold keyOf, orElse in D, Hk.
      destruct (truthy (prop item "id")); cbn [bind]; rewrite D, Hk; reflexivity.
Qed.

Lemma dedupFrom_facts (items : list JS) :
  forall seen r,
    dedupFrom seen items = Ok r ->
    Subseq r items /\
    freshFrom seen (map keyOf r) = true /\
    Forall (fun item => truthy (keyOf item) = true) r /\
    (forall item, In item items -> truthy (keyOf item) = true ->
                  setHas (map keyOf r ++ seen) (keyOf item) = true \/ In item r).
Proof.
  induction items as [| item rest IH]; intros seen r H.
  - inversion H. repeat split; [ constructor | constructor | intros ? [] ].
  - pose proof (dedupFrom_key _ _ _ _ H) as [Hn Hk].
    destruct (negb (truthy (keyOf item)) || setHas seen (keyOf item)) eqn:D.
    + destruct (IH _ _ Hk) as (S & F & T & C).
      repeat split; [ constructor; exact S | exact F | exact T | ].
      intros x [<- | Hx] Hx'.
      * rewrite Hx' in D. simpl in D. left. unfold setHas in *.
        rewrite existsb_app, D. apply orb_true_r.
      * apply C; assumption.
    + apply orb_false_iff in D. destruct D as [D1 D2].
      apply negb_false_iff in D1.
      destruct Hk as (kept & Hk & ->).
      destruct (IH _ _ Hk) as (S & F & T & C).
      repeat split.
      * constructor; exact S.
      * simpl. rewrite D2. exact F.
      * constructor; assumption.
      * intros x [<- | Hx] Hx'; [ right; left; reflexivity | ].
        destruct (C x Hx Hx') as [Hs | Hi]; [ left | right; right; exact Hi ].
        unfold setHas in *. simpl. rewrite existsb_app in *. simpl in Hs.
        destruct (sameValueZero (keyOf x) (keyOf item)); simpl;
          [ reflexivity | ].
        rewrite orb_false_r in Hs || idtac. exact Hs.
Qed.

(** X5.  [deduplicateById] does nothing to a list it has produced. *)
Theorem deduplicateById_idempotent (items r : list JS) :
  deduplicateById items = Ok r -> deduplicateById r = Ok r.
Proof. apply dedupFrom_again. Qed.

(** X6.  What [deduplicateById] returns is the input with entries left out
    and the order kept; the kept entries all have a key ([id], else
    [browseId]) and no two of them have the same key; every entry of the
    input that has a key is kept or shares its key with a kept entry. *)
Theorem deduplicateById_distinct_keys (items r : list JS) :
  deduplicateById items = Ok r ->
  Subseq r items /\
  freshFrom [] (map keyOf r) = true /\
  Forall (fun item => truthy (keyOf item) = true) r /\
  (forall item, In item items -> truthy (keyOf item) = true ->
                setHas (map keyOf r) (keyOf item) = true \/ In item r).
Proof.
  intros H. destruct (dedupFrom_facts _ _ _ H) as (S & F & T & C).
  repeat split; auto.
  intros item Hi Ht. specialize (C item Hi Ht). rewrite app_nil_r in C. exact C.
Qed.

(** ** Lists mapped and filtered in the exception monad *)

Lemma mapM_Forall {A B : Type} (f : A -> Res B) (P : B -> Prop) :
  (forall a b, f a = Ok b -> P b) ->
  forall l m, mapM f l = Ok m -> Forall P m.
Proof.
  intros Hf. induction l as [| a l IH]; intros m H; simpl in H.
  - inversion H. constructor.
  - ok_inv. constructor; eauto.
Qed.

Lemma mapM_length {A B : Type} (f : A -> Res B) :
  forall l m, mapM f l = Ok m -> length m = length l.
Proof.
  induction l as [| a l IH]; intros m H; simpl in H.
  - inversion H. reflexivity.
  - ok_inv. simpl. f_equal. eauto.
Qed.

Lemma filterM_Forall {A : Type} (p : A -> Res bool) (P : A -> Prop) :
  forall l f, filterM p l = Ok f -> Forall P l -> Forall P f.
Proof.
  induction l as [| a l IH]; intros f H HP; simpl in H.
  - inversion H. constructor.
  - inversion HP; subst. ok_inv.
    match goal with |- Forall _ (if ?b then _ else _) => destruct b end; eauto.
Qed.

Lemma filterM_kept {A : Type} (p : A -> Res bool) :
  forall l f, filterM p l = Ok f -> Forall (fun a => p a = Ok true) f.
Proof.
  induction l as [| a l IH]; intros f H; simpl in H.
  - inversion H. constructor.
  - ok_inv.
    match goal with E : p a = Ok ?b |- _ => destruct b end; eauto.
Qed.

Lemma filterM_length {A : Type} (p : A -> Res bool) :
  forall l f, filterM p l = Ok f -> length f <= length l.
Proof.
  induction l as [| a l IH]; intros f H; simpl in H.
  - inversion H. simpl. lia.
  - ok_inv.
    match goal with |- length (if ?b then _ else _) <= _ => destruct b end;
      simpl; match goal with E : filterM _ _ = _ |- _ => apply IH in E end; lia.
Qed.

Lemma foldM_invariant {A B : Type} (f : A -> B -> Res A) (P : A -> Prop) :
  (forall a b a', P a -> f a b = Ok a' -> P a') ->
  forall l a a', P a -> foldM f l a = Ok a' -> P a'.
Proof.
  intros Hf. induction l as [| b l IH]; intros a a' Ha H; simpl in H.
  - inversion H; subst. exact Ha.
  - ok_inv. eauto.
Qed.

Lemma orElse_null_or_truthy (v : JS) :
  orElse v JNull = JNull \/ truthy (orElse v JNull) = true.
Proof. unfold orElse. destruct (truthy v) eqn:E; auto. Qed.

Lemma getContinuation_null_or_truthy (c : JS) :
  getContinuation c = JNull \/ truthy (getContinuation c) = true.
Proof.
  unfold getContinuation.
  destruct (negb (truthy c) || negb (truthy (prop c "length"))); auto.
  apply orElse_null_or_truthy.
Qed.

Lemma getItemsContinuation_null_or_truthy (c t : JS) :
  getItemsContinuation c = Ok t -> t = JNull \/ truthy t = true.
Proof.
  unfold getItemsContinuation. intros H. ok_inv; auto.
  apply orElse_null_or_truthy.
Qed.

Lemma nextContinuationOf_null_or_truthy (c : JS) :
  nextContinuationOf c = JNull \/ truthy (nextContinuationOf c) = true.
Proof. apply orElse_null_or_truthy. Qed.

Lemma arrayOf_orElse (a : JS) (l : list JS) :
  arrayOf (orElse a (JArr [])) = Ok l ->
  (a = JArr l) \/ (truthy a = false /\ l = []).
Proof.
  unfold orElse. destruct (truthy a) eqn:E; intros H.
  - destruct a; try discriminate H. inversion H. auto.
  - inversion H. auto.
Qed.

Lemma optChain_filterBoolean (xs : JS) (f : JS -> Res JS) (a : JS) (items : list JS) :
  optChain xs (fun v => l <- arrayOf v ;; m <- mapM f l ;; Ok (JArr (filterBoolean m))) = Ok a ->
  arrayOf (orElse a (JArr [])) = Ok items ->
  Forall (fun v => truthy v = true) items.
Proof.
  unfold optChain. intros H Ha.
  apply arrayOf_orElse in Ha. destruct Ha as [-> | [_ ->]]; [ | constructor ].
  destruct (nullish xs); [ discriminate H | ].
  ok_inv. apply filterBoolean_truthy.
Qed.

Section MoreParserFacts.

Variable h : Host.

Lemma twoRowList_truthy (xs : JS) (items : list JS) :
  twoRowList h xs = Ok items -> Forall (fun v => truthy v = true) items.
Proof.
  unfold twoRowList, mapTwoRow. intros H. ok_inv.
  eapply optChain_filterBoolean; eauto.
Qed.

Lemma responsiveList_truthy (xs : JS) (items : list JS) :
  responsiveList h xs = Ok items -> Forall (fun v => truthy v = true) items.
Proof.
  unfold responsiveList, optChain. intros H. ok_inv.
  - match goal with H : arrayOf (orElse _ _) = _ |- _ => inversion H end. constructor.
  - match goal with H : arrayOf (orElse _ _) = _ |- _ => inversion H end.
    apply filterBoolean_truthy.
Qed.

Lemma carouselList_truthy (xs : JS) (items : list JS) :
  carouselList h xs = Ok items -> Forall (fun v => truthy v = true) items.
Proof.
  unfold carouselList. intros H. ok_inv.
  eapply optChain_filterBoolean; eauto.
Qed.

Lemma mappedResponsive_truthy (xs : JS) (items : list JS) :
  mappedResponsive h xs = Ok items -> Forall (fun v => truthy v = true) items.
Proof.
  unfold mappedResponsive. intros H. ok_inv.
  eapply optChain_filterBoolean; eauto.
Qed.

(** *** parseSearchContinuation *)

(** X7.  A resumed search page: every item kept is a mapped item (never
    [null]); a page that yields no item carries no token, whatever the
    response says; and the token is [null] or a truthy value, never
    [undefined] or the empty string. *)
Theorem parseSearchContinuation_zero_yield (response v : JS) :
  parseSearchContinuation h response = Ok v ->
  exists items token,
    v = itemsResult items token /\
    Forall (fun i => truthy i = true) items /\
    (items = [] -> token = JNull) /\
    (token = JNull \/ truthy token = true).
Proof.
  unfold parseSearchContinuation, parseSearchItem. intros H.
  apply bind_Ok_inv in H. destruct H as (a & Ha & H).
  apply bind_Ok_inv in H. destruct H as (items & Hi & H).
  inversion H; subst; clear H.
  eexists _, _. split; [ reflexivity | ].
  split; [ eapply optChain_filterBoolean; eauto | ].
  split.
  - intros ->. reflexivity.
  - destruct (0 <? length items)%nat; [ apply getContinuation_null_or_truthy | auto ].
Qed.

(** *** parseSearchSummary *)

Lemma summaryOf_shape (title : JS) (items : list JS) :
  truthy title = true ->
  freshFrom [] (map keyOf items) = true ->
  summaryOf title items = JNull \/ wellFormedSummary (summaryOf title items).
Proof.
  intros Ht Hf. unfold summaryOf. destruct items as [| i items]; simpl; [ auto | ].
  right. exists title, (i :: items). repeat split; auto. discriminate.
Qed.

Lemma orElse_text_truthy (v : JS) (s : string) :
  s <> "" -> truthy (orElse v (JStr s)) = true.
Proof.
  intros Hs. unfold orElse. destruct (truthy v) eqn:E; [ exact E | ].
  simpl. destruct s; [ congruence | reflexivity ].
Qed.

Lemma summarySection_shape (section v : JS) :
  summarySection h section = Ok v -> v = JNull \/ wellFormedSummary v.
Proof.
  unfold summarySection. intros H. ok_inv; auto.
  - apply summaryOf_shape.
    + apply orElse_text_truthy. discriminate.
    + match goal with H : deduplicateById _ = Ok _ |- _ =>
        apply dedupFrom_facts in H; tauto end.
  - apply summaryOf_shape.
    + apply orElse_text_truthy. discriminate.
    + match goal with H : deduplicateById _ = Ok _ |- _ =>
        apply dedupFrom_facts in H; tauto end.
Qed.

(** X8.  The search summary is a list of sections, each with a title that
    is not empty and at least one item, and within a section no two items
    share their key ([id], else [browseId]): a section whose items all fall
    away is left out, and a top result that comes back among its own
    shelf's rows is listed once. *)
Theorem parseSearchSummary_sections (response v : JS) :
  parseSearchSummary h response = Ok v ->
  exists summaries,
    v = JObj [("summaries", JArr summaries)] /\
    Forall wellFormedSummary summaries.
Proof.
  unfold parseSearchSummary, optChain. intros H.
  destruct (nullish (searchSections response)).
  - ok_inv. exists []. split; [ reflexivity | constructor ].
  - ok_inv. eexists. split; [ reflexivity | ].
    match goal with H : mapM _ _ = Ok ?m |- _ =>
      apply (mapM_Forall _ _ summarySection_shape) in H; rename H into Hm end.
    unfold filterBoolean. apply Forall_forall. intros s Hs.
    apply filter_In in Hs. destruct Hs as [Hin Ht].
    rewrite Forall_forall in Hm. destruct (Hm s Hin) as [-> | Hw];
      [ discriminate Ht | exact Hw ].
Qed.

End MoreParserFacts.

(** *** parseQueue and parseNextResult *)

Lemma parsePanel_song (renderer v : JS) :
  parsePlaylistPanelVideoRenderer renderer = Ok v ->
  v = JNull \/ prop v "type" = JStr "song".
Proof.
  unfold parsePlaylistPanelVideoRenderer. intros H.
  destruct (negb (truthy renderer)); [ inversion H; auto | ].
  right. ok_inv; reflexivity.
Qed.

Lemma typed_not_null (v : JS) (t : string) : prop v "type" = JStr t -> v <> JNull.
Proof. intros H ->. discriminate H. Qed.

(** X9.  The queue is an array of song items: an entry without a video
    renderer is left out, every other entry gives an item of type [song],
    so the queue is never longer than the list of entries it was built
    from. *)
Theorem parseQueue_songs (response v : JS) :
  parseQueue response = Ok v ->
  exists items,
    v = JArr items /\
    Forall (fun s => prop s "type" = JStr "song") items /\
    (forall entries, prop response "queueDatas" = JArr entries ->
                     length items <= length entries).
Proof.
  unfold parseQueue, optChain. intros H.
  apply bind_Ok_inv in H. destruct H as (q & Hq & H).
  apply get_Ok_inv in Hq. destruct Hq as [_ ->].
  destruct (nullish (prop response "queueDatas")) eqn:N.
  - ok_inv. exists []. repeat split; [ constructor | ]. intros; simpl; lia.
  - ok_inv. unfold orElse; simpl. eexists. split; [ reflexivity | ]. split.
    + match goal with H : mapM _ _ = Ok ?m |- _ => rename H into Hm end.
      apply (mapM_Forall _ (fun x => x = JNull \/ prop x "type" = JStr "song")) in Hm.
      * unfold filterBoolean. apply Forall_forall. intros s Hs.
        apply filter_In in Hs. destruct Hs as [Hin Ht].
        rewrite Forall_forall in Hm. destruct (Hm s Hin) as [-> | Hw];
          [ discriminate Ht | exact Hw ].
      * intros qd b Hb. ok_inv. eapply parsePanel_song; eauto.
    + intros entries He.
      match goal with H : arrayOf _ = Ok _ |- _ => rewrite He in H; inversion H; subst end.
      match goal with H : mapM _ _ = Ok ?m |- _ => apply mapM_length in H; rewrite <- H end.
      apply filterBoolean_length.
Qed.

Lemma panelEntry_shape (c e : JS) :
  panelEntry c = Ok e ->
  e = JNull \/
  exists item sel,
    e = JObj [("item", item); ("selected", sel)] /\ prop item "type" = JStr "song".
Proof.
  unfold panelEntry. intros H. ok_inv; auto.
  right. eexists _, _. split; [ reflexivity | ].
  match goal with H : parsePlaylistPanelVideoRenderer ?r = Ok _ |- _ =>
    unfold parsePlaylistPanelVideoRenderer in H;
    destruct (negb (truthy r)); [ discriminate | ]; ok_inv; reflexivity end.
Qed.

Lemma hasItem_kept (x : JS) :
  hasItem x = Ok true -> truthy x = true.
Proof. unfold hasItem. destruct (truthy x); [ auto | discriminate ]. Qed.

Lemma findIndexM_range (p : JS -> Res bool) :
  forall l i z,
    findIndexM p l i = Ok z ->
    z = (-1)%Z \/ exists j, z = Z.of_nat j /\ i <= j < i + length l.
Proof.
  induction l as [| x l IH]; intros i z H; simpl in H.
  - inversion H. auto.
  - ok_inv.
    + right. exists i. simpl. split; [ reflexivity | lia ].
    + match goal with H : findIndexM _ _ _ = _ |- _ => apply IH in H; rename H into Hr end.
      destruct Hr as [-> | (j & -> & Hj)]; [ auto | ].
      right. exists j. simpl. split; [ reflexivity | lia ].
Qed.

(** X10.  What [parseNextResult] returns is [null] or a panel whose items
    are all of type [song] and whose [currentIndex] is [null] or the
    position of one of these items: an entry without a video renderer
    shifts neither the list nor the index out of step. *)
Theorem parseNextResult_current_index (response v : JS) :
  parseNextResult response = Ok v ->
  v = JNull \/
  exists items,
    prop v "items" = JArr items /\
    Forall (fun s => prop s "type" = JStr "song") items /\
    (prop v "currentIndex" = JNull \/
     exists i, prop v "currentIndex" = JNum (Z.of_nat i) /\ i < length items).
Proof.
  unfold parseNextResult. intros H.
  apply bind_Ok_inv in H. destruct H as (cc & _ & H).
  apply bind_Ok_inv in H. destruct H as (ppr & _ & H).
  destruct (negb (truthy ppr)); [ inversion H; auto | ].
  right.
  apply bind_Ok_inv in H. destruct H as (tabs1 & _ & H).
  apply bind_Ok_inv in H. destruct H as (cs & _ & H).
  apply bind_Ok_inv in H. destruct H as (a & Ha & H).
  apply bind_Ok_inv in H. destruct H as (kept & Hk & H).
  apply bind_Ok_inv in H. destruct H as (found & Hf & H).
  apply bind_Ok_inv in H. destruct H as (ci & Hc & H).
  apply bind_Ok_inv in H. destruct H as (tabs & _ & H).
  apply bind_Ok_inv in H. destruct H as (conts & _ & H).
  inversion H; subst; clear H.
  exists found. split; [ reflexivity | ].
  assert (Hshape : Forall (fun e => exists item sel,
                      e = JObj [("item", item); ("selected", sel)] /\
                      prop item "type" = JStr "song") kept).
  { apply arrayOf_orElse in Hk. destruct Hk as [-> | [_ ->]]; [ | constructor ].
    unfold optChain in Ha. destruct (nullish cs); [ discriminate Ha | ].
    ok_inv.
    match goal with H : mapM panelEntry _ = Ok ?m |- _ =>
      apply (mapM_Forall _ _ panelEntry_shape) in H; rename H into Hm end.
    match goal with H : filterM hasItem _ = Ok _ |- _ =>
      pose proof (filterM_kept _ _ _ H) as Hkept;
      apply (filterM_Forall _ _ _ _ H) in Hm end.
    apply Forall_forall. intros e He.
    rewrite Forall_forall in Hm, Hkept.
    destruct (Hm e He) as [-> | Hw]; [ | exact Hw ].
    specialize (Hkept _ He). discriminate Hkept. }
  split.
  - clear Hc Hk Ha. revert found Hf.
    induction Hshape as [| e kept (item & sel & -> & Ht) _ IH];
      intros found Hf; simpl in Hf.
    + inversion Hf. constructor.
    + ok_inv. constructor; [ exact Ht | apply IH; assumption ].
  - apply mapM_length in Hf. apply findIndexM_range in Hc.
    destruct Hc as [-> | (j & -> & Hj)]; [ left; reflexivity | ].
    right. exists j. simpl.
    replace (0 <=? Z.of_nat j)%Z with true by (symmetry; apply Z.leb_le; lia).
    split; [ reflexivity | lia ].
Qed.

(** ** Feedback and the library toggles *)

Lemma everyM_processed (l : list JS) (b : bool) :
  everyM (fun r => p <- get r "isProcessed" ;; Ok (truthy p)) l = Ok b ->
  (b = true <-> Forall (fun r => truthy (prop r "isProcessed") = true) l).
Proof.
  revert b. induction l as [| x l IH]; intros b H; simpl in H.
  - inversion H. split; [ constructor | reflexivity ].
  - apply bind_Ok_inv in H. destruct H as (b0 & Hb & H).
    apply bind_Ok_inv in Hb. destruct Hb as (p & Hp & Hb).
    apply get_Ok_inv in Hp. destruct Hp as [_ ->]. inversion Hb; subst; clear Hb.
    destruct (truthy (prop x "isProcessed")) eqn:T.
    + apply IH in H. rewrite H. split.
      * intros Hl. constructor; assumption.
      * intros Hl. inversion Hl; assumption.
    + inversion H; subst. split; [ discriminate | ].
      intros Hl. inversion Hl; congruence.
Qed.

Lemma findM_found (p : JS -> Res bool) (l : list JS) (x : JS) :
  findM p l = Ok x -> (In x l /\ p x = Ok true) \/ x = JUndef.
Proof.
  induction l as [| y l IH]; simpl; intros H.
  - inversion H. auto.
  - apply bind_Ok_inv in H. destruct H as (b & Hb & H). destruct b.
    + inversion H; subst. left. auto.
    + destruct (IH H) as [[Hin Hp] | ->]; [ left | right ]; auto.
Qed.

Section FeedbackFacts.

Variable service : Service.

(** X11.  [feedback] sends the tokens in one call and answers with a
    boolean: [true] exactly when the response lists its feedback responses
    in an array and every one of them is marked as processed.  An empty
    array therefore counts as success, and a response without the list as
    failure. *)
Theorem feedback_true_iff_all_processed (tokens v : JS) (log log' : list Call) :
  feedback service tokens log = (Ok v, log') ->
  log' = log ++ [FeedbackCall tokens] /\
  exists response b,
    service log (FeedbackCall tokens) = Ok response /\
    v = JBool b /\
    (b = true <->
     exists l, prop response "feedbackResponses" = JArr l /\
               Forall (fun r => truthy (prop r "isProcessed") = true) l).
Proof.
  unfold feedback, invoke. intros H. inversion H as [[Hv Hl]]. clear H.
  split; [ reflexivity | ].
  apply bind_Ok_inv in Hv. destruct Hv as (response & Hr & Hv).
  exists response. unfold allProcessed in Hv.
  apply bind_Ok_inv in Hv. destruct Hv as (fr & Hfr & Hv).
  apply get_Ok_inv in Hfr. destruct Hfr as [_ ->].
  apply bind_Ok_inv in Hv. destruct Hv as (a & Ha & Hv).
  inversion Hv; subst; clear Hv.
  unfold optChain in Ha.
  destruct (nullish (prop response "feedbackResponses")) eqn:N.
  - inversion Ha; subst. exists false.
    split; [ assumption | ]. split; [ reflexivity | ]. split.
    + intros Hb. discriminate Hb.
    + intros (l & Hl & _). rewrite Hl in N. discriminate N.
  - apply bind_Ok_inv in Ha. destruct Ha as (l & Hl & Ha).
    apply bind_Ok_inv in Ha. destruct Ha as (b & Hb & Ha).
    inversion Ha; subst; clear Ha.
    destruct (prop response "feedbackResponses") eqn:P; try discriminate Hl.
    inversion Hl; subst; clear Hl.
    apply everyM_processed in Hb.
    exists b. split; [ assumption | ]. split; [ destruct b; reflexivity | ].
    rewrite Hb. split.
    + intros Hall. eauto.
    + intros (l' & Hl' & Hall). inversion Hl'; subst. exact Hall.
Qed.

Lemma toggleLibrary_outcome (tokenName message : string) (videoId : JS)
  (log : list Call) :
  toggleOutcome service videoId log tokenName
    (toggleLibrary service tokenName message videoId log).
Proof.
  unfold toggleOutcome, toggleLibrary, next, invoke. cbv zeta. cbn [defaultNull].
  set (asked := NextCall videoId JNull JNull JNull JNull JNull).
  destruct (response <- service log asked ;; parseNextResult response)
    as [nextResult | e] eqn:E; cbn [bind].
  2:{ left. simpl. eauto. }
  destruct (optChain (nextResult ?> "items") _) as [song | e] eqn:S; cbn [bind].
  2:{ left. simpl. eauto. }
  destruct (truthy (song ?> tokenName)) eqn:T; cbn [negb].
  2:{ left. simpl. eauto. }
  unfold feedback, invoke. cbn [fst snd].
  right.
  assert (Hs : nullish song = false).
  { destruct song; try reflexivity; discriminate T. }
  unfold optChain in S.
  destruct (nullish (nextResult ?> "items")) eqn:N;
    [ inversion S; subst; discriminate Hs | ].
  apply bind_Ok_inv in S. destruct S as (items & Hi & S).
  destruct (nextResult ?> "items") eqn:P; try discriminate Hi.
  inversion Hi; subst; clear Hi.
  apply findM_found in S. destruct S as [[Hin Hp] | ->]; [ | discriminate Hs ].
  apply bind_Ok_inv in Hp. destruct Hp as (i & Hg & Hp).
  apply get_Ok_inv in Hg. destruct Hg as [_ ->].
  assert (Heq : strictEquals (prop song "id") videoId = true) by congruence.
  clear Hp.
  exists nextResult, items, song, (prop song tokenName).
  rewrite (oget_not_nullish _ _ Hs) in *.
  repeat split; auto.
  - unfold oget in P. destruct (nullish nextResult); [ discriminate P | exact P ].
  - rewrite <- app_assoc. reflexivity.
Qed.

(** X12.  [addSongToLibrary] and [removeSongFromLibrary] ask for the
    watch-next panel of the video and then either raise without sending any
    feedback, or send exactly one feedback call whose only token is truthy
    and is the add token (the remove token) of an item of that panel whose
    [id] is the given video. *)
Theorem library_toggle_sends_the_item_token (videoId : JS) (log : list Call) :
  toggleOutcome service videoId log "libraryAddToken"
    (addSongToLibrary service videoId log) /\
  toggleOutcome service videoId log "libraryRemoveToken"
    (removeSongFromLibrary service videoId log).
Proof.
  unfold addSongToLibrary, removeSongFromLibrary.
  split; apply toggleLibrary_outcome.
Qed.

End FeedbackFacts.

(** ** Resumed pages *)

Section ResumedPageFacts.

Variable h : Host.

Lemma tokenIfAny_invariant (items : list JS) (token : JS) :
  Forall (fun i => truthy i = true) items ->
  pageInvariant items (tokenIfAny items token).
Proof.
  intros Hi. unfold pageInvariant, tokenIfAny. split; [ exact Hi | ]. split.
  - intros ->. reflexivity.
  - destruct (0 <? length items)%nat; [ apply orElse_null_or_truthy | auto ].
Qed.

Lemma firstToken_null_or_truthy (nc conts : JS) :
  nc = JNull \/ truthy nc = true ->
  (if truthy nc then nc else nextContinuationOf conts) = JNull \/
  truthy (if truthy nc then nc else nextContinuationOf conts) = true.
Proof.
  intros H. destruct (truthy nc) eqn:T; [ auto | apply nextContinuationOf_null_or_truthy ].
Qed.

Lemma parseSectionContent_walked (acc acc' : list JS * JS) (section : JS) :
  walked acc -> parseSectionContent h acc section = Ok acc' -> walked acc'.
Proof.
  destruct acc as [allItems nc]. unfold walked, parseSectionContent. simpl.
  intros [Hi Hn] H. ok_inv; simpl.
  - split; [ apply Forall_app; split; [ exact Hi | eapply twoRowList_truthy; eauto ] | ].
    apply firstToken_null_or_truthy, Hn.
  - split; [ apply Forall_app; split; [ exact Hi | eapply responsiveList_truthy; eauto ] | ].
    apply firstToken_null_or_truthy, Hn.
  - split; [ apply Forall_app; split; [ exact Hi | eapply carouselList_truthy; eauto ] | ].
    exact Hn.
  - auto.
Qed.

Lemma sectionStep_walked (acc acc' : list JS * JS) (section : JS) :
  walked acc -> sectionStep h acc section = Ok acc' -> walked acc'.
Proof.
  unfold sectionStep. intros Hw H. ok_inv.
  - eapply foldM_invariant; [ | exact Hw | eassumption ].
    intros x y x' Hx Hy. eapply parseSectionContent_walked; eauto.
  - eapply parseSectionContent_walked; eauto.
Qed.

(** X13.  Whatever shape a resumed artist page comes in (grid, playlist
    shelf, section list or appended items), [artistItemsContinuation]
    returns mapped items only, no token when the page yields no item, and a
    token that is [null] or truthy. *)
Theorem artistItemsPage_zero_yield (response v : JS) :
  artistItemsPage h response = Ok v ->
  exists items token, v = itemsResult items token /\ pageInvariant items token.
Proof.
  unfold artistItemsPage. intros H.
  apply bind_Ok_inv in H. destruct H as (cc & _ & H).
  destruct (truthy (cc ?> "gridContinuation")).
  { unfold gridPage in H. ok_inv. eexists _, _. split; [ reflexivity | ].
    apply tokenIfAny_invariant. eapply twoRowList_truthy; eauto. }
  destruct (truthy (cc ?> "musicPlaylistShelfContinuation")).
  { unfold shelfPage in H. ok_inv. eexists _, _. split; [ reflexivity | ].
    apply tokenIfAny_invariant. eapply responsiveList_truthy; eauto. }
  destruct (truthy (cc ?> "sectionListContinuation")).
  { unfold sectionListPage in H.
    apply bind_Ok_inv in H. destruct H as (cs & _ & H).
    apply bind_Ok_inv in H. destruct H as (sections & _ & H).
    apply bind_Ok_inv in H. destruct H as ([allItems nc] & Hf & H).
    apply bind_Ok_inv in H. destruct H as (conts & _ & H).
    inversion H; subst; clear H.
    assert (Hw : walked (allItems, nc)).
    { eapply foldM_invariant; [ | | exact Hf ].
      - intros x y x' Hx Hy. eapply sectionStep_walked; eauto.
      - split; [ constructor | left; reflexivity ]. }
    destruct Hw as [Hi Hn]. simpl in Hi, Hn.
    eexists _, _. split; [ reflexivity | ].
    split; [ exact Hi | ]. split.
    - intros ->. reflexivity.
    - destruct (0 <? length allItems)%nat; [ | auto ].
      apply firstToken_null_or_truthy, Hn. }
  unfold appendPage in H.
  apply bind_Ok_inv in H. destruct H as (a & _ & H).
  apply bind_Ok_inv in H. destruct H as (items & Hi & H).
  apply responsiveList_truthy in Hi.
  destruct (0 <? length items)%nat eqn:L.
  - ok_inv. eexists _, _. split; [ reflexivity | ].
    split; [ exact Hi | ]. split.
    + intros ->. discriminate L.
    + apply orElse_null_or_truthy.
  - ok_inv. eexists _, _. split; [ reflexivity | ].
    split; [ exact Hi | ]. split; auto.
Qed.

(** X14.  A resumed playlist page: mapped songs only, no token when the
    page yields no song, and a token that is [null] or truthy. *)
Theorem parsePlaylistContinuation_zero_yield (response v : JS) :
  parsePlaylistContinuation h response = Ok v ->
  exists found token, v = songsResult found token /\ pageInvariant found token.
Proof.
  unfold parsePlaylistContinuation. intros H.
  apply bind_Ok_inv in H. destruct H as (cc & _ & H).
  apply bind_Ok_inv in H. destruct H as (m & _ & H).
  apply bind_Ok_inv in H. destruct H as (cc1 & _ & H).
  apply bind_Ok_inv in H. destruct H as (appended & _ & H).
  apply bind_Ok_inv in H. destruct H as (mainContents & _ & H).
  apply bind_Ok_inv in H. destruct H as (shelfContents & _ & H).
  apply bind_Ok_inv in H. destruct H as (appendedContents & _ & H).
  apply bind_Ok_inv in H. destruct H as (mapped & _ & H).
  pose proof (filterBoolean_truthy mapped) as Hi.
  destruct (0 <? length (filterBoolean mapped))%nat eqn:L.
  - assert (Hne : filterBoolean mapped = [] -> False).
    { intros E. rewrite E in L. discriminate L. }
    apply bind_Ok_inv in H. destruct H as (cc2 & _ & H).
    repeat match type of H with
    | (if truthy ?c then _ else _) = _ =>
        let T := fresh "T" in
        destruct (truthy c) eqn:T;
        [ inversion H; subst; clear H;
          eexists _, _; split; [ reflexivity | ];
          split; [ exact Hi | split; [ intros E; destruct (Hne E) | right; exact T ] ]
        | ]
    end.
    apply bind_Ok_inv in H. destruct H as (appended' & _ & H).
    apply bind_Ok_inv in H. destruct H as (token & Ht & H).
    inversion H; subst; clear H.
    eexists _, _. split; [ reflexivity | ].
    split; [ exact Hi | ]. split; [ intros E; destruct (Hne E) | ].
    eapply getItemsContinuation_null_or_truthy; eauto.
  - inversion H; subst; clear H.
    eexists _, _. split; [ reflexivity | ].
    split; [ exact Hi | ]. split; auto.
Qed.

Lemma isAlbumItem_kept (i : JS) : isAlbumItem i = Ok true -> prop i "type" = JStr "album".
Proof.
  unfold isAlbumItem. destruct (truthy i) eqn:T; [ | discriminate ].
  rewrite (get_truthy _ _ T). simpl.
  destruct (prop i "type"); simpl; try discriminate.
  intros H. inversion H as [E]. apply String.eqb_eq in E. subst. reflexivity.
Qed.

Lemma filterM_albums (l f : list JS) :
  filterM isAlbumItem l = Ok f -> Forall (fun a => prop a "type" = JStr "album") f.
Proof.
  intros H. apply filterM_kept in H.
  eapply Forall_impl; [ | exact H ]. intros a. apply isAlbumItem_kept.
Qed.

Lemma artistAlbumsPage_result (response supplied v : JS) :
  artistAlbumsPage h response supplied = Ok v ->
  exists albums token visitor,
    v = albumsResult albums token visitor /\
    Forall (fun a => prop a "type" = JStr "album") albums /\
    (albums = [] -> token = JNull) /\
    (token = JNull \/ truthy token = true) /\
    (token = JNull -> visitor = JNull) /\
    (visitor = JNull \/ truthy visitor = true).
Proof.
  unfold artistAlbumsPage. intros H.
  apply bind_Ok_inv in H. destruct H as (cc & _ & H).
  destruct (negb (truthy (cc ?> "gridContinuation"))).
  { inversion H. exists [], JNull, JNull. repeat split; auto. }
  apply bind_Ok_inv in H. destruct H as (its & _ & H).
  apply bind_Ok_inv in H. destruct H as (a & Ha & H).
  apply bind_Ok_inv in H. destruct H as (albums & Hal & H).
  apply bind_Ok_inv in H. destruct H as (conts & _ & H).
  apply bind_Ok_inv in H. destruct H as (rc & _ & H).
  inversion H; subst; clear H.
  eexists _, _, _. split; [ reflexivity | ].
  assert (Halb : Forall (fun a => prop a "type" = JStr "album") albums).
  { apply arrayOf_orElse in Hal. destruct Hal as [-> | [_ ->]]; [ | constructor ].
    unfold optChain in Ha. destruct (nullish its); [ discriminate Ha | ].
    ok_inv. eapply filterM_albums; eauto. }
  split; [ exact Halb | ].
  set (token := if (0 <? length albums)%nat then nextContinuationOf conts else JNull).
  assert (Ht : token = JNull \/ truthy token = true).
  { unfold token. destruct (0 <? length albums)%nat;
      [ apply nextContinuationOf_null_or_truthy | auto ]. }
  split; [ intros ->; reflexivity | ].
  split; [ exact Ht | ].
  split.
  - intros ->. reflexivity.
  - destruct (truthy token); [ | auto ].
    apply orElse_null_or_truthy.
Qed.

End ResumedPageFacts.

(** ** Further methods of the client *)

Lemma falsy_contents (v : JS) : truthy v = false -> v ?> "contents" = JUndef.
Proof. destruct v; simpl; intros H; try reflexivity; discriminate H. Qed.

Lemma falsy_continuations (v : JS) : truthy v = false -> v ?> "continuations" = JUndef.
Proof. destruct v; simpl; intros H; try reflexivity; discriminate H. Qed.

Section MoreClientFacts.

Variable h : Host.
Variable tr : Transport.
Variable stringOf : JS -> string.

(** X15.  Every page of [artistAlbumsContinuation] lists albums only; it
    carries no token when it lists no album; the token is [null] or
    truthy; and the visitor identifier is handed on only together with a
    token, so a caller never gets an identifier it has no use for. *)
Theorem artistAlbumsContinuation_albums_only
  (continuation supplied v : JS) (w w' : World) :
  artistAlbumsContinuation h tr continuation supplied w = (Ok v, w') ->
  exists albums token visitor,
    v = albumsResult albums token visitor /\
    Forall (fun a => prop a "type" = JStr "album") albums /\
    (albums = [] -> token = JNull) /\
    (token = JNull \/ truthy token = true) /\
    (token = JNull -> visitor = JNull).
Proof.
  unfold artistAlbumsContinuation, tryFinally, send. intros H.
  inversion H as [[Hv Hw]]. clear H Hw.
  apply bind_Ok_inv in Hv. destruct Hv as (response & _ & Hv).
  apply artistAlbumsPage_result in Hv.
  destruct Hv as (albums & token & visitor & -> & A & B & C & D & _).
  exists albums, token, visitor. auto.
Qed.

(** X16.  [artistAlbums] asks for the artist page and for at most one page
    more.  What it returns lists albums only; its token is [null] or
    truthy; and it hands on a visitor identifier only together with a
    token. *)
Theorem artistAlbums_albums_only (browseId : JS) (w w' : World) (r : Res JS) :
  artistAlbums h tr browseId w = (r, w') ->
  (exists rest,
     sent w' = sent w ++ sentWith w (Browse (defaultNull browseId) JNull JNull false)
                         :: rest /\
     length rest <= 1) /\
  (forall v, r = Ok v ->
     exists albums,
       prop v "albums" = JArr albums /\
       Forall (fun a => prop a "type" = JStr "album") albums /\
       (prop v "continuation" = JNull \/ truthy (prop v "continuation") = true) /\
       (prop v "continuation" = JNull -> prop v "visitorData" = JNull)).
Proof.
  unfold artistAlbums, artist, artistItems, send. cbv zeta.
  set (first := {| request := Browse (defaultNull browseId) JNull JNull false;
                   sentVisitorData := visitorData (innerTube w) |}).
  change (sentWith w (Browse (defaultNull browseId) JNull JNull false)) with first.
  destruct (artistPage <- (response <- tr w (Browse (defaultNull browseId) JNull JNull false) ;;
                           parseArtistPage h response browseId) ;;
            albumsSectionOf artistPage) as [section | e] eqn:E.
  2:{ intros H. inversion H; subst; clear H. split.
      - exists []. simpl. split; [ reflexivity | lia ].
      - intros v Hv. discriminate Hv. }
  destruct (negb (truthy section)).
  { intros H. inversion H; subst; clear H. split.
    - exists []. simpl. split; [ reflexivity | lia ].
    - intros v Hv. inversion Hv; subst. exists []. simpl.
      repeat split; auto. }
  destruct (truthy (prop section "browseId")).
  - intros H. inversion H as [[Hr Hw]]. clear H. split.
    + eexists [_]. simpl. rewrite <- app_assoc. split; [ reflexivity | lia ].
    + intros v Hv.
      apply bind_Ok_inv in Hv. destruct Hv as (firstPage & _ & Hv).
      apply bind_Ok_inv in Hv. destruct Hv as (its & _ & Hv).
      apply bind_Ok_inv in Hv. destruct Hv as (albums & Ha & Hv).
      apply bind_Ok_inv in Hv. destruct Hv as (t & _ & Hv).
      apply bind_Ok_inv in Hv. destruct Hv as (c & _ & Hv).
      apply bind_Ok_inv in Hv. destruct Hv as (vd & _ & Hv).
      inversion Hv; subst; clear Hv.
      exists albums. simpl. split; [ reflexivity | ]. split.
      * unfold albumsOnly in Ha. ok_inv. eapply filterM_albums; eauto.
      * split; [ apply orElse_null_or_truthy | ].
        unfold orElse. destruct (truthy c) eqn:T; [ | reflexivity ].
        intros ->. discriminate T.
  - intros H. inversion H as [[Hr Hw]]. clear H. split.
    + exists []. simpl. split; [ reflexivity | lia ].
    + intros v Hv.
      apply bind_Ok_inv in Hv. destruct Hv as (t & _ & Hv).
      apply bind_Ok_inv in Hv. destruct Hv as (its & _ & Hv).
      apply bind_Ok_inv in Hv. destruct Hv as (albums & Ha & Hv).
      inversion Hv; subst; clear Hv.
      exists albums. simpl. split; [ reflexivity | ]. split.
      * unfold albumsOnly in Ha. ok_inv. eapply filterM_albums; eauto.
      * auto.
Qed.

(** X17.  [album] always ends: it asks for the album page and then, to
    collect the songs, for at most one first page and fifty resumed pages.
    It asks for songs exactly when [withSongs] is set, the page names a
    playlist and lists no song itself; a page that cannot be parsed raises
    [Failed to parse album page] after the one request. *)
Theorem album_requests (browseId : JS) (withSongs : bool) (w : World) :
  let asked := Browse (defaultNull browseId) JNull JNull false in
  exists (r : Res AlbumPage) (w' : World) (rest : list Sent),
    (forall fuel, maxRequests < fuel ->
                  album h tr stringOf fuel browseId withSongs w = Some (r, w')) /\
    innerTube w' = innerTube w /\
    sent w' = sent w ++ sentWith w asked :: rest /\
    length rest <= S maxRequests /\
    (forall response page,
       tr w asked = Ok response ->
       parseAlbumPage h response browseId = Ok (Some page) ->
       (rest = [] <->
        withSongs && truthy (prop (pageAlbum page) "playlistId")
        && (length (pageSongs page) =? 0)%nat = false)) /\
    (forall response,
       tr w asked = Ok response ->
       parseAlbumPage h response browseId = Ok None ->
       r = Throw (JsError "Failed to parse album page") /\ rest = []).
Proof.
  cbv zeta. unfold album, send. cbv zeta.
  set (first := {| request := Browse (defaultNull browseId) JNull JNull false;
                   sentVisitorData := visitorData (innerTube w) |}).
  change (sentWith w (Browse (defaultNull browseId) JNull JNull false)) with first.
  set (w1 := {| innerTube := innerTube w; sent := sent w ++ [first] |}).
  destruct (response <- tr w (Browse (defaultNull browseId) JNull JNull false) ;;
            parseAlbumPage h response browseId) as [[result |] | e] eqn:E.
  - destruct (withSongs && truthy (prop (pageAlbum result) "playlistId")
              && (length (pageSongs result) =? 0)%nat) eqn:C.
    + destruct (albumSongs_bounded h tr
                  (templateText stringOf (prop (pageAlbum result) "playlistId")) w1)
        as (res & tokens & Hrun & Hlen & _).
      set (pid := templateText stringOf (prop (pageAlbum result) "playlistId")) in *.
      exists (match res with
              | Ok songsResult =>
                  Ok {| pageAlbum := pageAlbum result; pageSongs := songsResult;
                        pageOtherVersions := pageOtherVersions result |}
              | Throw e => Throw e
              end), (afterRun w1 pid tokens),
             (sentWith w1 (firstRequest pid)
                :: map (fun c => sentWith w1 (resumeRequest c)) tokens).
      split; [ | split; [ reflexivity | split; [ | split; [ | split ] ] ] ].
      * intros fuel Hfuel. rewrite (Hrun fuel Hfuel). destruct res; reflexivity.
      * simpl. rewrite <- app_assoc. reflexivity.
      * simpl. rewrite length_map. lia.
      * intros response page Hr Hp. rewrite Hr in E. simpl in E. rewrite Hp in E.
        inversion E; subst. rewrite C. split; discriminate.
      * intros response Hr Hp. rewrite Hr in E. simpl in E. rewrite Hp in E.
        discriminate E.
    + exists (Ok result), w1, [].
      split; [ reflexivity | split; [ reflexivity | split; [ reflexivity | ] ] ].
      split; [ simpl; lia | ]. split.
      * intros response page Hr Hp. rewrite Hr in E. simpl in E. rewrite Hp in E.
        inversion E; subst. rewrite C. split; reflexivity.
      * intros response Hr Hp. rewrite Hr in E. simpl in E. rewrite Hp in E.
        discriminate E.
  - exists (Throw (JsError "Failed to parse album page")), w1, [].
    split; [ reflexivity | split; [ reflexivity | split; [ reflexivity | ] ] ].
    split; [ simpl; lia | ]. split; [ | auto ].
    intros response page Hr Hp. rewrite Hr in E. simpl in E. rewrite Hp in E.
    discriminate E.
  - exists (Throw e), w1, [].
    split; [ reflexivity | split; [ reflexivity | split; [ reflexivity | ] ] ].
    split; [ simpl; lia | ]. split.
    + intros response page Hr Hp. rewrite Hr in E. simpl in E. rewrite Hp in E.
      discriminate E.
    + intros response Hr Hp. rewrite Hr in E. simpl in E. rewrite Hp in E.
      discriminate E.
Qed.

Lemma parsePlaylistPage_null (response playlistId : JS) :
  nullish response = false ->
  let twoCol := prop response "contents" ?> "twoColumnBrowseResultsRenderer" in
  truthy (playlistHeader twoCol) = false ->
  truthy (playlistShelfOf twoCol) = false ->
  parsePlaylistPage h response playlistId = Ok JNull.
Proof.
  intros Hn twoCol Hh Hs. unfold parsePlaylistPage.
  rewrite (get_not_nullish _ _ Hn). cbn [bind]. fold twoCol.
  unfold playlistSongs. rewrite (falsy_contents _ Hs), (falsy_continuations _ Hs).
  simpl. rewrite Hh, Hs. reflexivity.
Qed.

Lemma parsePlaylistPage_page (response playlistId v : JS) :
  parsePlaylistPage h response playlistId = Ok v ->
  v = JNull \/ prop (prop v "playlist") "id" = playlistId.
Proof.
  unfold parsePlaylistPage. intros H.
  apply bind_Ok_inv in H. destruct H as (c & _ & H).
  apply bind_Ok_inv in H. destruct H as (found & _ & H).
  apply bind_Ok_inv in H. destruct H as (sc & _ & H).
  match type of H with (if ?c then _ else _) = _ => destruct c end.
  - apply bind_Ok_inv in H. destruct H as (pl & Hp & H).
    inversion H; subst; clear H. right. simpl.
    unfold headerPlaylist in Hp. ok_inv; reflexivity.
  - match type of H with (if ?c then _ else _) = _ => destruct c end.
    + apply bind_Ok_inv in H. destruct H as (pl & Hp & H).
      inversion H; subst; clear H. right. simpl.
      unfold fallbackPlaylist in Hp. ok_inv; reflexivity.
    + inversion H. auto.
Qed.

(** X18.  [playlist] makes one request, for the identifier with [VL] put
    in front and with the login set.  When it returns, it returns a page
    whose playlist carries the identifier it was asked for; when the
    response has neither a header nor a shelf, it raises [Failed to parse
    playlist page]. *)
Theorem playlist_one_request (playlistId : JS) (w w' : World) (r : Res JS) :
  playlist h tr stringOf playlistId w = (r, w') ->
  let asked := Browse (JStr ("VL" ++ templateText stringOf playlistId)) JNull JNull true in
  innerTube w' = innerTube w /\
  sent w' = sent w ++ [sentWith w asked] /\
  (forall v, r = Ok v -> truthy v = true /\ prop (prop v "playlist") "id" = playlistId) /\
  (forall response,
     tr w asked = Ok response ->
     nullish response = false ->
     truthy (playlistHeader
               (prop response "contents" ?> "twoColumnBrowseResultsRenderer")) = false ->
     truthy (playlistShelfOf
               (prop response "contents" ?> "twoColumnBrowseResultsRenderer")) = false ->
     r = Throw (JsError "Failed to parse playlist page")).
Proof.
  unfold playlist, send. intros H. inversion H as [[Hr Hw]]. clear H. cbv zeta.
  split; [ reflexivity | ]. split; [ reflexivity | ]. split.
  - intros v Hv. subst r.
    apply bind_Ok_inv in Hv. destruct Hv as (response & _ & Hv).
    apply bind_Ok_inv in Hv. destruct Hv as (result & Hp & Hv).
    destruct (truthy result) eqn:T; simpl in Hv; [ | discriminate Hv ].
    inversion Hv; subst; clear Hv. split; [ exact T | ].
    apply parsePlaylistPage_page in Hp. destruct Hp as [-> | Hp]; [ discriminate T | exact Hp ].
  - intros response Hresp Hn Hh Hs. subst r.
    cbn [String.append] in Hresp. rewrite Hresp. cbn [bind].
    rewrite (parsePlaylistPage_null response playlistId Hn Hh Hs). reflexivity.
Qed.

Lemma substring_all (s : string) : String.substring 0 (String.length s) s = s.
Proof. induction s as [| c s IH]; simpl; [ reflexivity | rewrite IH; reflexivity ]. Qed.

Lemma replaceVL_prefixed (b : string) :
  ("VL" ++ (if startsWith "VL" b
            then String.substring 2 (String.length b - 2) b else b))%string
  = if startsWith "VL" b then b else ("VL" ++ b)%string.
Proof.
  destruct (startsWith "VL" b) eqn:P; [ | reflexivity ].
  destruct b as [| c1 [| c2 rest]]; cbn [startsWith] in P.
  - discriminate P.
  - rewrite andb_false_r in P. discriminate P.
  - apply andb_true_iff in P. destruct P as [P1 P2].
    apply andb_true_iff in P2. destruct P2 as [P2 _].
    apply Ascii.eqb_eq in P1, P2. subst c1 c2.
    cbn [String.length Nat.sub String.substring String.append].
    rewrite Nat.sub_0_r, substring_all. reflexivity.
Qed.

Lemma playlist_request (playlistId : JS) (w : World) :
  sent (snd (playlist h tr stringOf playlistId w))
  = sent w ++ [sentWith w (Browse (JStr ("VL" ++ templateText stringOf playlistId))
                             JNull JNull true)].
Proof. reflexivity. Qed.

Lemma twoRow_playlist_id (r v : JS) (b : string) :
  parseMusicTwoRowItemRenderer h r = Ok v ->
  prop v "type" = JStr "playlist" ->
  prop v "browseId" = JStr b ->
  prop v "id" = JStr (if startsWith "VL" b
                      then String.substring 2 (String.length b - 2) b else b).
Proof.
  rewrite parseTwoRow_cases. intros H Ht Hb.
  destruct (truthy r); [ | inversion H; subst; discriminate Ht ].
  destruct (twoRowFields h r) as [x | e]; [ | inversion H; subst; discriminate Ht ].
  destruct (twoRowItem h r x) as [v' | e] eqn:E; [ | inversion H; subst; discriminate Ht ].
  inversion H; subst v'; clear H.
  unfold twoRowItem, twoRowAlbum, twoRowSong, twoRowArtist, twoRowPlaylist, twoRowUnknown in E.
  ok_inv; try discriminate Ht.
  - simpl in Hb. simpl.
    match goal with H : oreplaceVL _ = Ok _ |- _ => rewrite Hb in H; inversion H end.
    reflexivity.
  - simpl in Hb. simpl.
    match goal with H : oreplaceVL _ = Ok _ |- _ => rewrite Hb in H; inversion H end.
    reflexivity.
Qed.

Lemma responsive_playlist_id (r v : JS) (b : string) :
  parseMusicResponsiveListItemRenderer h r = Ok v ->
  prop v "type" = JStr "playlist" ->
  prop v "browseId" = JStr b ->
  prop v "id" = JStr (if startsWith "VL" b
                      then String.substring 2 (String.length b - 2) b else b).
Proof.
  rewrite parseResponsive_cases. intros H Ht Hb.
  destruct (truthy r); [ | inversion H; subst; discriminate Ht ].
  destruct (responsiveFields h r) as [x | e]; [ | inversion H; subst; discriminate Ht ].
  destruct (responsiveItem h r x) as [v' | e] eqn:E;
    [ | inversion H; subst; discriminate Ht ].
  inversion H; subst v'; clear H.
  unfold responsiveItem, responsiveArtist, responsiveAlbum, responsivePlaylist,
    responsiveSong in E.
  ok_inv; try discriminate Ht.
  simpl in Hb. simpl.
  match goal with H : oreplaceVL _ = Ok _ |- _ => rewrite Hb in H; inversion H end.
  reflexivity.
Qed.

(** X19.  A playlist item of either mapper carries its browse identifier
    and, as [id], the same with a leading [VL] taken off.  [playlist] puts
    [VL] in front again: asked for the [id] of such an item, it browses the
    item's own browse identifier when that one began with [VL], and the
    browse identifier with [VL] in front when it did not. *)
Theorem playlist_of_item_browses_its_identifier (r v : JS) (b : string) (w : World) :
  parseMusicTwoRowItemRenderer h r = Ok v \/
  parseMusicResponsiveListItemRenderer h r = Ok v ->
  prop v "type" = JStr "playlist" ->
  prop v "browseId" = JStr b ->
  sent (snd (playlist h tr stringOf (prop v "id") w))
  = sent w ++ [sentWith w (Browse (JStr (if startsWith "VL" b then b
                                         else ("VL" ++ b)%string))
                             JNull JNull true)].
Proof.
  intros H Ht Hb. rewrite playlist_request.
  assert (Hid : prop v "id" = JStr (if startsWith "VL" b
                                    then String.substring 2 (String.length b - 2) b
                                    else b)).
  { destruct H as [H | H];
      [ eapply twoRow_playlist_id | eapply responsive_playlist_id ]; eauto. }
  rewrite Hid. cbn [templateText]. rewrite replaceVL_prefixed. reflexivity.
Qed.

End MoreClientFacts.

(** ** The related page and the charts page *)

Lemma isStr_eq (v : JS) (s : string) : isStr v s = true -> v = JStr s.
Proof.
  destruct v; simpl; try discriminate. intros H. apply String.eqb_eq in H. congruence.
Qed.

Lemma forEachM_invariant {A : Type} (f : A -> JS -> Res A) (P : A -> Prop) :
  (forall a b a', P a -> f a b = Ok a' -> P a') ->
  forall v a a', P a -> forEachM f v a = Ok a' -> P a'.
Proof.
  intros Hf v a a' Ha H. unfold forEachM in H.
  destruct (nullish v); [ inversion H; subst; exact Ha | ].
  apply bind_Ok_inv in H. destruct H as (l & _ & H).
  eapply foldM_invariant; eauto.
Qed.

Section PageFacts.

Variable h : Host.

Lemma relatedStep_filed (acc acc' : Related) (content : JS) :
  filed acc -> relatedStep h acc content = Ok acc' -> filed acc'.
Proof.
  unfold relatedStep. intros (S & A & R & P) H.
  apply bind_Ok_inv in H. destruct H as (r & _ & H).
  apply bind_Ok_inv in H. destruct H as (item & _ & H).
  destruct (negb (truthy item)); [ inversion H; subst; repeat split; assumption | ].
  apply bind_Ok_inv in H. destruct H as (ty & Hty & H).
  apply get_Ok_inv in Hty. destruct Hty as [_ ->].
  inversion H; subst; clear H. unfold filed, allOfType.
  destruct (isStr (prop item "type") "song") eqn:T1;
    [ apply isStr_eq in T1; simpl; repeat split; auto; apply Forall_app; auto | ].
  destruct (isStr (prop item "type") "album") eqn:T2;
    [ apply isStr_eq in T2; simpl; repeat split; auto; apply Forall_app; auto | ].
  destruct (isStr (prop item "type") "artist") eqn:T3;
    [ apply isStr_eq in T3; simpl; repeat split; auto; apply Forall_app; auto | ].
  destruct (isStr (prop item "type") "playlist") eqn:T4;
    [ apply isStr_eq in T4; simpl; repeat split; auto; apply Forall_app; auto | ].
  repeat split; assumption.
Qed.

(** X20.  [parseRelatedPage] files every item under its own type: the
    [songs] are all of type [song], the [albums] of type [album], the
    [artists] of type [artist] and the [playlists] of type [playlist]. *)
Theorem parseRelatedPage_files_by_type (response v : JS) :
  parseRelatedPage h response = Ok v ->
  exists found albums artists playlists,
    v = JObj [("songs", JArr found); ("albums", JArr albums);
              ("artists", JArr artists); ("playlists", JArr playlists)] /\
    allOfType "song" found /\ allOfType "album" albums /\
    allOfType "artist" artists /\ allOfType "playlist" playlists.
Proof.
  unfold parseRelatedPage. intros H.
  apply bind_Ok_inv in H. destruct H as (c & _ & H).
  apply bind_Ok_inv in H. destruct H as (acc & Hacc & H).
  inversion H; subst; clear H.
  eexists _, _, _, _. split; [ reflexivity | ].
  change (filed acc).
  eapply forEachM_invariant; [ | | exact Hacc ].
  - intros a section a' Ha Hs.
    apply bind_Ok_inv in Hs. destruct Hs as (m & _ & Hs).
    eapply forEachM_invariant; [ | exact Ha | exact Hs ].
    intros x y x' Hx Hy. eapply relatedStep_filed; eauto.
  - repeat split; constructor.
Qed.

Variable stringOf : JS -> string.
Variable shorterThan3 : JS -> bool.

Lemma determineChartType_values (title : JS) :
  In (determineChartType stringOf title) ["TRENDING"; "TOP"; "GENRE"; "NEW_RELEASES"].
Proof.
  unfold determineChartType.
  destruct (negb (truthy title)); [ simpl; auto | ].
  destruct (testIgnoreCase stringOf "trending" title); [ simpl; auto | ].
  destruct (testIgnoreCase stringOf "top" title); simpl; auto.
Qed.

Lemma chartStep_sections (sections sections' : list JS) (content : JS) :
  Forall wellFormedChart sections ->
  chartStep h stringOf shorterThan3 sections content = Ok sections' ->
  Forall wellFormedChart sections'.
Proof.
  unfold chartStep. intros Hs H.
  apply bind_Ok_inv in H. destruct H as (carousel & _ & H).
  apply bind_Ok_inv in H. destruct H as (after & Ha & H).
  assert (Hafter : match after with
                   | Some s1 => Forall wellFormedChart s1
                   | None => True
                   end).
  { destruct (truthy carousel); [ | inversion Ha; subst; exact Hs ].
    apply bind_Ok_inv in Ha. destruct Ha as (hd & _ & Ha).
    match type of Ha with (if negb (truthy ?t) then _ else _) = _ =>
      destruct (truthy t) eqn:T; cbn [negb] in Ha end;
      [ | inversion Ha; subst; exact I ].
    apply bind_Ok_inv in Ha. destruct Ha as (cs & _ & Ha).
    apply bind_Ok_inv in Ha. destruct Ha as (a & Hopt & Ha).
    apply bind_Ok_inv in Ha. destruct Ha as (items & Hi & Ha).
    inversion Ha; subst; clear Ha.
    destruct items as [| i items]; [ exact Hs | ].
    cbn [length Nat.ltb Nat.leb]. apply Forall_app. split; [ exact Hs | ].
    constructor; [ | constructor ].
    eexists _, _, _. split; [ reflexivity | ].
    split; [ exact T | ]. split; [ discriminate | ].
    split; [ eapply optChain_filterBoolean; eauto | apply determineChartType_values ]. }
  destruct after as [sections1 |]; [ | inversion H; subst; exact Hs ].
  apply bind_Ok_inv in H. destruct H as (grid & _ & H).
  destruct (truthy grid); [ | inversion H; subst; exact Hafter ].
  apply bind_Ok_inv in H. destruct H as (hd & _ & H).
  match type of H with (if negb (truthy ?t) then _ else _) = _ =>
    destruct (truthy t) eqn:T; cbn [negb] in H end;
    [ | inversion H; subst; exact Hafter ].
  apply bind_Ok_inv in H. destruct H as (its & _ & H).
  apply bind_Ok_inv in H. destruct H as (items & Hi & H).
  inversion H; subst; clear H.
  destruct items as [| i items]; [ exact Hafter | ].
  cbn [length Nat.ltb Nat.leb]. apply Forall_app. split; [ exact Hafter | ].
  constructor; [ | constructor ].
  eexists _, _, _. split; [ reflexivity | ].
  split; [ exact T | ]. split; [ discriminate | ].
  split; [ eapply twoRowList_truthy; eauto | simpl; auto ].
Qed.

(** X21.  Every section of the charts page has a truthy title, at least one
    item, mapped items only, and one of the four chart types; a section
    without a title or without items is left out.  The token of the page is
    [null] or truthy.  The sections are read from [contents] and the token
    from [continuationContents]: a response without the latter has no
    token, a response without the former has no section. *)
Theorem parseChartsPage_sections (response v : JS) :
  parseChartsPage h stringOf shorterThan3 response = Ok v ->
  exists sections token,
    v = JObj [("sections", JArr sections); ("continuation", token)] /\
    Forall wellFormedChart sections /\
    (token = JNull \/ truthy token = true) /\
    (nullish (prop response "continuationContents") = true -> token = JNull) /\
    (nullish (prop response "contents") = true -> sections = []).
Proof.
  unfold parseChartsPage. intros H.
  apply bind_Ok_inv in H. destruct H as (c & Hc & H).
  apply get_Ok_inv in Hc. destruct Hc as [_ ->].
  apply bind_Ok_inv in H. destruct H as (sections & Hs & H).
  apply bind_Ok_inv in H. destruct H as (cc & Hcc & H).
  apply get_Ok_inv in Hcc. destruct Hcc as [_ ->].
  inversion H; subst; clear H.
  eexists _, _. split; [ reflexivity | ]. split; [ | split; [ | split ] ].
  - eapply forEachM_invariant; [ | | exact Hs ].
    + intros x y x' Hx Hy. eapply chartStep_sections; eauto.
    + constructor.
  - apply getContinuation_null_or_truthy.
  - intros N. unfold oget at 2. rewrite N. reflexivity.
  - intros N. unfold oget at 6 in Hs. rewrite N in Hs.
    inversion Hs. reflexivity.
Qed.

End PageFacts.

(** ** Request headers *)

Section HeaderFacts.

Variable sha1 : string -> string.
Variable currentTime : nat.

(** X22.  The [Cookie] header is sent exactly when the caller asks for the
    login, the client supports it and a cookie is set, and then it is the
    stored cookie; the [Authorization] header is sent only together with
    the cookie, and only when the cookie map holds a [SAPISID] that is not
    empty.  For the [WEB] client, which the transcript endpoint uses,
    neither header is sent and the context names no user, whatever the
    session holds and whatever the caller asks. *)
Theorem credentials_only_on_login (s : Session) (client : ClientConfig) (setLogin : bool) :
  let headers := _buildHeaders sha1 currentTime s client setLogin in
  assoc "Cookie" headers
  = (if setLogin && loginSupported client && truthy (cookie (tube s))
     then cookie (tube s) else JUndef) /\
  (assoc "Authorization" headers <> JUndef ->
   assoc "Cookie" headers = cookie (tube s) /\
   truthy (cookie (tube s)) = true /\
   exists sapisid, lookup "SAPISID" (cookieMap s) = Some sapisid /\ sapisid <> "") /\
  (client = WEB ->
   assoc "Cookie" headers = JUndef /\
   assoc "Authorization" headers = JUndef /\
   forall v d, _buildContext s client v d ?> "user" ?> "onBehalfOfUser" = JUndef).
Proof.
  cbv zeta. unfold _buildHeaders.
  destruct (truthy (visitorData (tube s))).
  all: destruct (setLogin && loginSupported client && truthy (cookie (tube s))) eqn:C.
  all: destruct (lookup "SAPISID" (cookieMap s)) as [sapisid |] eqn:L.
  all: try destruct (isEmpty sapisid) eqn:Ee.
  all: simpl.
  all: split; [ reflexivity | split ].
  all: try (intros H;
            first [ exfalso; apply H; reflexivity
                  | apply andb_true_iff in C; destruct C as [_ C];
                    split; [ reflexivity | split; [ exact C | ] ];
                    exists sapisid; split; [ reflexivity | intros ->; discriminate Ee ] ]).
  all: intros ->;
       first [ rewrite andb_false_r in C; discriminate C
             | repeat split; reflexivity ].
Qed.

(** X26.  The cookie setter changes the cookie that is sent and nothing
    else: with the login asked for, the [Cookie] header carries the new
    value, while the [Authorization] header is still derived from the
    [SAPISID] of the cookie map that the constructor read, as it was before
    the cookie was replaced. *)
Theorem cookie_setter_keeps_authorization
  (s : Session) (value : JS) (client : ClientConfig) (setLogin : bool) :
  truthy (cookie (tube s)) = true ->
  truthy value = true ->
  assoc "Cookie" (_buildHeaders sha1 currentTime (setCookie value s) client setLogin)
  = (if setLogin && loginSupported client then value else JUndef) /\
  assoc "Authorization" (_buildHeaders sha1 currentTime (setCookie value s) client setLogin)
  = assoc "Authorization" (_buildHeaders sha1 currentTime s client setLogin).
Proof.
  intros Hold Hnew. unfold _buildHeaders, setCookie.
  cbn [tube cookie visitorData cookieMap]. rewrite Hold, Hnew.
  destruct (truthy (visitorData (tube s)));
    destruct (setLogin && loginSupported client);
    cbn [andb];
    destruct (lookup "SAPISID" (cookieMap s)) as [sapisid |];
    try destruct (isEmpty sapisid);
    simpl; split; reflexivity.
Qed.

End HeaderFacts.

(** ** The routes of the YouTube router *)

Lemma toLowerCase_empty (s : string) : toLowerCase s = "" -> s = "".
Proof. destruct s; simpl; [ reflexivity | discriminate ]. Qed.

(** A parameter in the second place matches every path that a literal in
    the second place matches. *)
Lemma parameter_covers_literal (a b name path : string) :
  b <> "" ->
  matchPath [Lit a; Lit b] path = true ->
  matchPath [Lit a; Param name] path = true.
Proof.
  intros Hb. unfold matchPath.
  destruct (splitOn "/" path) as [| first segments]; [ discriminate | ].
  destruct (isEmpty first); [ | discriminate ]. cbn [andb].
  destruct segments as [| s1 [| s2 rest]]; cbn [matchSegments]; try discriminate.
  - rewrite andb_false_r. discriminate.
  - intros H. apply andb_true_iff in H. destruct H as [H1 H].
    apply andb_true_iff in H. destruct H as [H2 H].
    rewrite H1, H. cbn [andb]. rewrite andb_true_r.
    destruct s2; [ | reflexivity ].
    apply String.eqb_eq in H2. simpl in H2. symmetry in H2.
    apply toLowerCase_empty in H2. congruence.
Qed.

(** X23.  Two routes of the YouTube router never run.  [GET
    /playlist/continuation] is registered after [GET /playlist/:playlistId]
    and [GET /library/continuation] after [GET /library/:browseId]; the
    parameter matches the word [continuation] as it matches any other
    segment, so every request for a continuation of a playlist or of the
    library is served by the route of the playlist or of the library
    itself, with [continuation] as the identifier.  Every other route is
    reached by some request. *)
Theorem continuation_routes_are_shadowed :
  (forall m path,
     dispatch m path <> Some PlaylistContinuationRoute /\
     dispatch m path <> Some LibraryContinuationRoute) /\
  (forall path,
     matchPath [Lit "playlist"; Lit "continuation"] path = true ->
     dispatch GET path = Some PlaylistRoute) /\
  (forall path,
     matchPath [Lit "library"; Lit "continuation"] path = true ->
     dispatch GET path = Some LibraryRoute) /\
  Forall (fun r =>
            routeHandler r = PlaylistContinuationRoute \/
            routeHandler r = LibraryContinuationRoute \/
            dispatch (routeMethod r) (samplePath (routePattern r))
            = Some (routeHandler r))
         youtubeRoutes.
Proof.
  assert (Hp : forall path,
             matchPath [Lit "playlist"; Param "playlistId"] path = false ->
             matchPath [Lit "playlist"; Lit "continuation"] path = true -> False).
  { intros path Hf Ht.
    apply (parameter_covers_literal _ _ "playlistId") in Ht; [ | discriminate ].
    congruence. }
  assert (Hl : forall path,
             matchPath [Lit "library"; Param "browseId"] path = false ->
             matchPath [Lit "library"; Lit "continuation"] path = true -> False).
  { intros path Hf Ht.
    apply (parameter_covers_literal _ _ "browseId") in Ht; [ | discriminate ].
    congruence. }
  split; [ | split; [ | split ] ].
  - intros m path. unfold dispatch, youtubeRoutes, route.
    cbn [firstMatch routeMethod routePattern routeHandler].
    destruct m; cbn [sameMethod andb];
      repeat match goal with
      | |- context [if matchPath ?p path then _ else _] =>
          destruct (matchPath p path) eqn:?
      end;
      try (split; discriminate);
      exfalso; eauto.
  - intros path H. unfold dispatch, youtubeRoutes, route.
    cbn [firstMatch routeMethod routePattern routeHandler sameMethod andb].
    pose proof (parameter_covers_literal "playlist" "continuation" "playlistId" path) as C.
    rewrite C; [ | discriminate | exact H ].
    unfold matchPath in *.
    destruct (splitOn "/" path) as [| first segments]; [ discriminate H | ].
    destruct (isEmpty first); [ | discriminate H ]. cbn [andb] in *.
    destruct segments as [| s1 [| s2 rest]]; cbn [matchSegments] in *;
      try discriminate H.
    + rewrite andb_false_r in H. discriminate H.
    + apply andb_true_iff in H. destruct H as [H1 H].
      apply andb_true_iff in H. destruct H as [H2 H].
      apply String.eqb_eq in H1, H2. rewrite H1, H2, H.
      vm_compute. reflexivity.
  - intros path H. unfold dispatch, youtubeRoutes, route.
    cbn [firstMatch routeMethod routePattern routeHandler sameMethod andb].
    pose proof (parameter_covers_literal "library" "continuation" "browseId" path) as C.
    unfold matchPath in *.
    destruct (splitOn "/" path) as [| first segments]; [ discriminate H | ].
    destruct (isEmpty first); [ | discriminate H ]. cbn [andb] in *.
    specialize (C ltac:(discriminate) H).
    destruct segments as [| s1 [| s2 rest]]; cbn [matchSegments] in *;
      try discriminate H.
    + rewrite andb_false_r in H. discriminate H.
    + apply andb_true_iff in H. destruct H as [H1 H].
      apply andb_true_iff in H. destruct H as [H2 H].
      apply andb_true_iff in C. destruct C as [_ C].
      apply andb_true_iff in C. destruct C as [C _].
      apply String.eqb_eq in H1, H2. rewrite H1, H2, H, C.
      vm_compute. reflexivity.
  - unfold youtubeRoutes.
    repeat (constructor;
            [ first [ left; reflexivity
                    | right; left; reflexivity
                    | right; right; vm_compute; reflexivity ] | ]).
    constructor.
Qed.

(** ** Two helpers of the parsers *)

Lemma evens_indices {A : Type} (d : A) (l : list A) :
  (length (evens l) = Nat.div2 (S (length l)) /\
   forall i, nth i (evens l) d = nth (2 * i) l d) /\
  (forall x,
     length (evens (x :: l)) = Nat.div2 (S (length (x :: l))) /\
     forall i, nth i (evens (x :: l)) d = nth (2 * i) (x :: l) d).
Proof.
  induction l as [| y l [IH1 IH2]].
  - split; [ split; [ reflexivity | intros [| i]; reflexivity ] | ].
    intros x. split; [ reflexivity | ].
    intros [| i]; [ reflexivity | ].
    replace (2 * S i) with (S (S (2 * i))) by lia.
    simpl. destruct i; reflexivity.
  - split; [ apply IH2 | ].
    intros x. destruct IH1 as [L N]. split.
    + change (evens (x :: y :: l)) with (x :: evens l). simpl length. rewrite L.
      reflexivity.
    + intros [| i]; [ reflexivity | ].
      change (evens (x :: y :: l)) with (x :: evens l).
      replace (2 * S i) with (S (S (2 * i))) by lia.
      simpl nth. apply N.
Qed.

(** X24.  [oddElements] keeps the entries at the positions 0, 2, 4, ... of
    an array, in their order: half of the entries, rounded up. *)
Theorem oddElements_even_positions (l : list JS) :
  exists r,
    oddElements (JArr l) = Ok r /\
    length r = Nat.div2 (S (length l)) /\
    forall i, nth i r JUndef = nth (2 * i) l JUndef.
Proof.
  exists (evens l). split; [ reflexivity | ].
  apply (evens_indices JUndef l).
Qed.

Section SearchFacts.

Variable h : Host.

(** X25.  Of the sections of a search response only the last one counts:
    the items and the token are those of its shelf, whatever the sections
    before it hold. *)
Theorem parseSearchResults_reads_last_section (sections : list JS) (final : JS) :
  parseSearchResults h (searchTab (sections ++ [final]))
  = parseSearchResults h (searchTab [final]).
Proof.
  unfold parseSearchResults.
  change (searchSections (searchTab (sections ++ [final]))) with (JArr (sections ++ [final])).
  change (searchSections (searchTab [final])) with (JArr [final]).
  cbn [nullish lastIndex]. rewrite last_last. reflexivity.
Qed.

End SearchFacts.

(** ** Closed runs of the further properties *)

(** Two failures, then an answer, within the default budget: three
    invocations, and sleeps of 500 ms and 1000 ms. *)
Lemma third_attempt_answers :
  _withRetry JS (failsThenAnswers 2 (JStr "payload")) 3 3 500
  = Some (Ok (Some (JStr "payload")), {| calls := 3; sleeps := [500; 1000]%Z |}).
Proof.
  apply (withRetry_returns_first_success JS (failsThenAnswers 2 (JStr "payload"))
           3 500 2 3 (JStr "payload")).
  - intros j Hj. exists TransportError.
    destruct j as [| [| j]]; [ reflexivity | reflexivity | lia ].
  - reflexivity.
  - lia.
  - lia.
Defined.

(** Three failures within a budget of three: the third error is raised, and
    there is no third sleep. *)
Lemma three_failures_raise_the_last :
  _withRetry JS alwaysFails 3 3 500
  = Some (Throw (JsError "attempt 2"), {| calls := 3; sleeps := [500; 1000]%Z |}).
Proof.
  apply (withRetry_rethrows_last_error JS alwaysFails 500 2 3 (JsError "attempt 2")).
  - intros j Hj. eexists. reflexivity.
  - reflexivity.
  - lia.
Defined.

Lemma deduplicated_list_is_kept :
  deduplicateById [taggedItem "a" "one"; taggedItem "b" "three"]
  = Ok [taggedItem "a" "one"; taggedItem "b" "three"].
Proof.
  apply (deduplicateById_idempotent
           [taggedItem "a" "one"; taggedItem "a" "two"; taggedItem "b" "three"]).
  reflexivity.
Defined.

Lemma second_item_of_a_key_is_dropped :
  Subseq [taggedItem "a" "one"; taggedItem "b" "three"]
         [taggedItem "a" "one"; taggedItem "a" "two"; taggedItem "b" "three"] /\
  freshFrom [] (map keyOf [taggedItem "a" "one"; taggedItem "b" "three"]) = true /\
  Forall (fun item => truthy (keyOf item) = true)
         [taggedItem "a" "one"; taggedItem "b" "three"] /\
  (forall item,
     In item [taggedItem "a" "one"; taggedItem "a" "two"; taggedItem "b" "three"] ->
     truthy (keyOf item) = true ->
     setHas (map keyOf [taggedItem "a" "one"; taggedItem "b" "three"]) (keyOf item) = true \/
     In item [taggedItem "a" "one"; taggedItem "b" "three"]).
Proof.
  apply (deduplicateById_distinct_keys
           [taggedItem "a" "one"; taggedItem "a" "two"; taggedItem "b" "three"]).
  reflexivity.
Defined.

(** A resumed search page that names a token and lists no row: the token is
    not handed on. *)
Lemma empty_search_page_has_no_token :
  exists items token,
    itemsResult [] JNull = itemsResult items token /\
    Forall (fun i => truthy i = true) items /\
    (items = [] -> token = JNull) /\
    (token = JNull \/ truthy token = true).
Proof.
  apply (parseSearchContinuation_zero_yield exampleHost emptySearchPage).
  reflexivity.
Defined.

(** The top result and its own row are one entry; the empty shelf is no
    section. *)
Lemma top_result_is_listed_once :
  exists summaries,
    JObj [("summaries",
           JArr [JObj [("title", JStr "Top result"); ("items", JArr [topResultItem])]])]
    = JObj [("summaries", JArr summaries)] /\
    Forall wellFormedSummary summaries.
Proof.
  apply (parseSearchSummary_sections exampleHost summaryResponse).
  vm_compute. reflexivity.
Defined.

Lemma queue_of_two_entries :
  exists items,
    JArr [panelSong "v1" JNull] = JArr items /\
    Forall (fun s => prop s "type" = JStr "song") items /\
    (forall entries, prop queueResponse "queueDatas" = JArr entries ->
                     length items <= length entries).
Proof.
  apply (parseQueue_songs queueResponse). vm_compute. reflexivity.
Defined.

(** The entry that is no video shifts neither list nor index: the selected
    track is the second item, at index one. *)
Lemma selected_track_is_at_its_index :
  let panel :=
    JObj [("title", JUndef);
          ("items", JArr [panelSong "v1" (JStr "add-v1"); panelSong "v2" JNull]);
          ("currentIndex", JNum 1); ("lyricsEndpoint", JNull);
          ("relatedEndpoint", JNull); ("continuation", JNull)] in
  panel = JNull \/
  exists items,
    prop panel "items" = JArr items /\
    Forall (fun s => prop s "type" = JStr "song") items /\
    (prop panel "currentIndex" = JNull \/
     exists i, prop panel "currentIndex" = JNum (Z.of_nat i) /\ i < length items).
Proof.
  apply (parseNextResult_current_index watchNextResponse). vm_compute. reflexivity.
Defined.

(** An empty list of feedback responses counts as success. *)
Lemma empty_feedback_is_success :
  [FeedbackCall (JArr [JStr "t"])] = [] ++ [FeedbackCall (JArr [JStr "t"])] /\
  exists response b,
    exampleService [] (FeedbackCall (JArr [JStr "t"])) = Ok response /\
    JBool true = JBool b /\
    (b = true <->
     exists l, prop response "feedbackResponses" = JArr l /\
               Forall (fun r => truthy (prop r "isProcessed") = true) l).
Proof.
  apply (feedback_true_iff_all_processed exampleService (JArr [JStr "t"]) (JBool true)
           [] [FeedbackCall (JArr [JStr "t"])]).
  reflexivity.
Defined.

Lemma resumed_grid_page :
  exists items token,
    itemsResult [exampleAlbumItem] JNull = itemsResult items token /\
    pageInvariant items token.
Proof.
  apply (artistItemsPage_zero_yield exampleHost bothShapes). vm_compute. reflexivity.
Defined.

(** A resumed playlist page that names a token and lists no row. *)
Lemma empty_playlist_page_has_no_token :
  exists found token,
    songsResult [] JNull = songsResult found token /\ pageInvariant found token.
Proof.
  apply (parsePlaylistContinuation_zero_yield exampleHost emptyPlaylistPage).
  vm_compute. reflexivity.
Defined.

(** The artist tile of the resumed grid is left out; the token and the
    visitor identifier of the response are handed on together. *)
Lemma resumed_albums_page :
  exists albums token visitor,
    albumsResult [exampleAlbumItem] (JStr "more") (JStr "fresh")
    = albumsResult albums token visitor /\
    Forall (fun a => prop a "type" = JStr "album") albums /\
    (albums = [] -> token = JNull) /\
    (token = JNull \/ truthy token = true) /\
    (token = JNull -> visitor = JNull).
Proof.
  apply (artistAlbumsContinuation_albums_only exampleHost artistTransport
           (JStr "more") (JStr "given")
           (albumsResult [exampleAlbumItem] (JStr "more") (JStr "fresh"))
           exampleWorld
           {| innerTube := innerTube exampleWorld;
              sent := [{| request := BrowseWithCtoken (JStr "more");
                          sentVisitorData := JStr "given" |}] |}).
  vm_compute. reflexivity.
Defined.

(** The artist page, then the page behind the albums section: two
    requests. *)
Lemma artist_albums_in_two_requests :
  let w' :=
    {| innerTube := innerTube exampleWorld;
       sent := [sentWith exampleWorld (Browse (JStr "UCana") JNull JNull false);
                sentWith exampleWorld (Browse (JStr "MPADana") JNull JNull false)] |} in
  let r :=
    Ok (JObj [("title", JStr "Albums"); ("albums", JArr [exampleAlbumItem]);
              ("continuation", JStr "more"); ("visitorData", JStr "fresh")]) in
  (exists rest,
     sent w' = sent exampleWorld
               ++ sentWith exampleWorld (Browse (defaultNull (JStr "UCana")) JNull JNull false)
                  :: rest /\
     length rest <= 1) /\
  (forall v, r = Ok v ->
     exists albums,
       prop v "albums" = JArr albums /\
       Forall (fun a => prop a "type" = JStr "album") albums /\
       (prop v "continuation" = JNull \/ truthy (prop v "continuation") = true) /\
       (prop v "continuation" = JNull -> prop v "visitorData" = JNull)).
Proof.
  cbv zeta.
  apply (artistAlbums_albums_only exampleHost artistTransport (JStr "UCana") exampleWorld).
  vm_compute. reflexivity.
Defined.

(** A headerless page is returned with a reconstructed playlist that
    carries the identifier asked for. *)
Lemma headerless_playlist_is_returned :
  let asked := Browse (JStr ("VL" ++ templateText exampleStringOf (JStr "PLx")))
                 JNull JNull true in
  let w' := {| innerTube := innerTube exampleWorld;
               sent := [sentWith exampleWorld asked] |} in
  innerTube w' = innerTube exampleWorld /\
  sent w' = sent exampleWorld ++ [sentWith exampleWorld asked] /\
  (forall v, Ok headerlessPlaylist = Ok v ->
             truthy v = true /\ prop (prop v "playlist") "id" = JStr "PLx") /\
  (forall response,
     headerlessTransport exampleWorld asked = Ok response ->
     nullish response = false ->
     truthy (playlistHeader
               (prop response "contents" ?> "twoColumnBrowseResultsRenderer")) = false ->
     truthy (playlistShelfOf
               (prop response "contents" ?> "twoColumnBrowseResultsRenderer")) = false ->
     Ok headerlessPlaylist = Throw (JsError "Failed to parse playlist page")).
Proof.
  cbv zeta.
  apply (playlist_one_request exampleHost headerlessTransport exampleStringOf
           (JStr "PLx") exampleWorld).
  vm_compute. reflexivity.
Defined.

(** The tile's browse identifier is [VLPLmix], its [id] is [PLmix], and
    [playlist] asked for [PLmix] browses [VLPLmix]. *)
Lemma playlist_tile_round_trip :
  sent (snd (playlist exampleHost headerlessTransport exampleStringOf
               (prop examplePlaylistItem "id") exampleWorld))
  = sent exampleWorld
    ++ [sentWith exampleWorld (Browse (JStr "VLPLmix") JNull JNull true)].
Proof.
  apply (playlist_of_item_browses_its_identifier exampleHost headerlessTransport
           exampleStringOf examplePlaylistTile examplePlaylistItem "VLPLmix"
           exampleWorld).
  - left. vm_compute. reflexivity.
  - reflexivity.
  - reflexivity.
Defined.

Lemma related_song_and_album :
  exists found albums artists playlists,
    JObj [("songs", JArr [exampleSongItem]); ("albums", JArr [exampleAlbumItem]);
          ("artists", JArr []); ("playlists", JArr [])]
    = JObj [("songs", JArr found); ("albums", JArr albums);
            ("artists", JArr artists); ("playlists", JArr playlists)] /\
    allOfType "song" found /\ allOfType "album" albums /\
    allOfType "artist" artists /\ allOfType "playlist" playlists.
Proof.
  apply (parseRelatedPage_files_by_type exampleHost relatedResponse).
  vm_compute. reflexivity.
Defined.

(** Of a titled carousel, an untitled carousel and an empty grid, only the
    first is a section; its title holds both words and reads TRENDING. *)
Lemma one_chart_section :
  exists sections token,
    JObj [("sections",
           JArr [JObj [("title", JStr "Top Trending");
                       ("items", JArr [exampleAlbumItem]);
                       ("chartType", JStr "TRENDING")]]);
          ("continuation", JNull)]
    = JObj [("sections", JArr sections); ("continuation", token)] /\
    Forall wellFormedChart sections /\
    (token = JNull \/ truthy token = true) /\
    (nullish (prop chartsResponse "continuationContents") = true -> token = JNull) /\
    (nullish (prop chartsResponse "contents") = true -> sections = []).
Proof.
  apply (parseChartsPage_sections exampleHost exampleStringOf (fun _ => true)
           chartsResponse).
  vm_compute. reflexivity.
Defined.


(** The cookie is replaced by one with another [SAPISID]; the hash still
    names the old one. *)
Lemma replaced_cookie_keeps_old_hash :
  assoc "Cookie"
    (_buildHeaders exampleSha1 7 (setCookie (JStr "SAPISID=new") exampleSession)
       WEB_REMIX true)
  = (if true && loginSupported WEB_REMIX then JStr "SAPISID=new" else JUndef) /\
  assoc "Authorization"
    (_buildHeaders exampleSha1 7 (setCookie (JStr "SAPISID=new") exampleSession)
       WEB_REMIX true)
  = assoc "Authorization" (_buildHeaders exampleSha1 7 exampleSession WEB_REMIX true).
Proof.
  apply (cookie_setter_keeps_authorization exampleSha1 7 exampleSession
           (JStr "SAPISID=new") WEB_REMIX true); reflexivity.
Defined.

Example old_hash_value :
  assoc "Authorization"
    (_buildHeaders exampleSha1 7 (setCookie (JStr "SAPISID=new") exampleSession)
       WEB_REMIX true)
  = JStr "SAPISIDHASH 7_hash(7 old https://music.youtube.com)".
Proof. reflexivity. Qed.
